(** * LinearAllocator: a page arena for upload memory (DirectXTK12)

    Shallow embedding of [DirectXTK12/Src/LinearAllocator.cpp].

    - The page objects live in a free store, a finite map from addresses to
      [LinearAllocatorPage] records; a pointer is an [option nat], [None]
      being [nullptr].  Reading or writing through a pointer that is not
      live yields [None] (undefined behaviour).
    - [size_t] and [UINT64] are 64-bit, [UINT] is 32-bit, all with
      wrap-around.
    - The three intrusive page lists are kept as the code keeps them: head
      pointers in the allocator, [pPrevPage]/[pNextPage] in the pages.
    - A loop over a page list runs on a fuel bounded by the number of live
      pages; it runs out only on a cyclic chain, where the code spins.
    - [assert]s are not executed (they vanish under NDEBUG); the conditions
      that matter are stated as lemmas.  The [_DEBUG] blocks are kept, driven
      by a build flag.
    - The device is an oracle: the result of creating a page's resource,
      mapping and fence is an argument, and so is the completed value read
      from each page's fence. *)

From Stdlib Require Import ZArith Lia String.
From stdpp Require Import base option list functions gmap.

Local Open Scope Z_scope.

(** ** Machine integers *)

Definition size_t (z : Z) : Z := z mod 2 ^ 64.
Definition UINT64 (z : Z) : Z := z mod 2 ^ 64.
Definition UINT (z : Z) : Z := z mod 2 ^ 32.

(** ** AlignOffset *)

Definition AlignOffset (offset alignment : Z) : Z :=
  if 0 <? alignment
  then Z.land (size_t (offset + alignment - 1)) (size_t (Z.lnot (alignment - 1)))
  else offset.

(** ** Pages *)

Record LinearAllocatorPage := Page {
  pPrevPage : option nat;
  pNextPage : option nat;
  mPendingFence : Z;
  mOffset : Z;
  mSize : Z;
  mRefCount : Z
}.

(** The constructor [LinearAllocatorPage::LinearAllocatorPage]. *)
Definition LinearAllocatorPage_new : LinearAllocatorPage :=
  Page None None 0 0 0 0.

Definition set_pPrevPage (v : option nat) (pg : LinearAllocatorPage) :=
  Page v (pNextPage pg) (mPendingFence pg) (mOffset pg) (mSize pg) (mRefCount pg).
Definition set_pNextPage (v : option nat) (pg : LinearAllocatorPage) :=
  Page (pPrevPage pg) v (mPendingFence pg) (mOffset pg) (mSize pg) (mRefCount pg).
Definition set_mPendingFence (v : Z) (pg : LinearAllocatorPage) :=
  Page (pPrevPage pg) (pNextPage pg) v (mOffset pg) (mSize pg) (mRefCount pg).
Definition set_mOffset (v : Z) (pg : LinearAllocatorPage) :=
  Page (pPrevPage pg) (pNextPage pg) (mPendingFence pg) v (mSize pg) (mRefCount pg).
Definition set_mSize (v : Z) (pg : LinearAllocatorPage) :=
  Page (pPrevPage pg) (pNextPage pg) (mPendingFence pg) (mOffset pg) v (mRefCount pg).
Definition set_mRefCount (v : Z) (pg : LinearAllocatorPage) :=
  Page (pPrevPage pg) (pNextPage pg) (mPendingFence pg) (mOffset pg) (mSize pg) v.

(** ** Exceptions *)

Inductive exn :=
| out_of_range (what : string)
| std_exception (what : string)
| com_exception.

Inductive outcome (A : Type) :=
| Returned (a : A)
| Thrown (e : exn).
Arguments Returned {A} a.
Arguments Thrown {A} e.

(** ** LinearAllocatorPage::Suballocate

    [debug] is true in a build that defines [_DEBUG]. *)
Definition Suballocate (debug : bool) (size alignment : Z)
    (pg : LinearAllocatorPage) : outcome (Z * LinearAllocatorPage) :=
  let offset := AlignOffset (mOffset pg) alignment in
  if debug && (mSize pg <? size_t (offset + size))
  then Thrown (std_exception "Out of free memory in page suballoc")
  else Returned (offset, set_mOffset (size_t (offset + size)) pg).

(** ** The allocator and the free store *)

Abbreviation store := (gmap nat LinearAllocatorPage).

(** [pages] is the free store of page objects; [created] and [destroyed]
    count the executions of [new LinearAllocatorPage] and [delete page];
    [signals] records the calls of [ID3D12CommandQueue::Signal], oldest
    first, as (page whose fence is signalled, value). *)
Record LinearAllocator := Allocator {
  m_pendingPages : option nat;
  m_usedPages : option nat;
  m_unusedPages : option nat;
  m_increment : Z;
  m_numPending : Z;
  m_totalPages : Z;
  pages : store;
  created : nat;
  destroyed : nat;
  signals : list (nat * Z)
}.

Definition set_pendingPages (v : option nat) (s : LinearAllocator) :=
  Allocator v (m_usedPages s) (m_unusedPages s) (m_increment s) (m_numPending s)
    (m_totalPages s) (pages s) (created s) (destroyed s) (signals s).
Definition set_usedPages (v : option nat) (s : LinearAllocator) :=
  Allocator (m_pendingPages s) v (m_unusedPages s) (m_increment s) (m_numPending s)
    (m_totalPages s) (pages s) (created s) (destroyed s) (signals s).
Definition set_unusedPages (v : option nat) (s : LinearAllocator) :=
  Allocator (m_pendingPages s) (m_usedPages s) v (m_increment s) (m_numPending s)
    (m_totalPages s) (pages s) (created s) (destroyed s) (signals s).
Definition set_increment (v : Z) (s : LinearAllocator) :=
  Allocator (m_pendingPages s) (m_usedPages s) (m_unusedPages s) v (m_numPending s)
    (m_totalPages s) (pages s) (created s) (destroyed s) (signals s).
Definition set_numPending (v : Z) (s : LinearAllocator) :=
  Allocator (m_pendingPages s) (m_usedPages s) (m_unusedPages s) (m_increment s) v
    (m_totalPages s) (pages s) (created s) (destroyed s) (signals s).
Definition set_totalPages (v : Z) (s : LinearAllocator) :=
  Allocator (m_pendingPages s) (m_usedPages s) (m_unusedPages s) (m_increment s)
    (m_numPending s) v (pages s) (created s) (destroyed s) (signals s).
Definition set_pages (v : store) (s : LinearAllocator) :=
  Allocator (m_pendingPages s) (m_usedPages s) (m_unusedPages s) (m_increment s)
    (m_numPending s) (m_totalPages s) v (created s) (destroyed s) (signals s).
Definition set_created (v : nat) (s : LinearAllocator) :=
  Allocator (m_pendingPages s) (m_usedPages s) (m_unusedPages s) (m_increment s)
    (m_numPending s) (m_totalPages s) (pages s) v (destroyed s) (signals s).
Definition set_destroyed (v : nat) (s : LinearAllocator) :=
  Allocator (m_pendingPages s) (m_usedPages s) (m_unusedPages s) (m_increment s)
    (m_numPending s) (m_totalPages s) (pages s) (created s) v (signals s).
Definition set_signals (v : list (nat * Z)) (s : LinearAllocator) :=
  Allocator (m_pendingPages s) (m_usedPages s) (m_unusedPages s) (m_increment s)
    (m_numPending s) (m_totalPages s) (pages s) (created s) (destroyed s) v.

(** [page->field = ...]: undefined when [page] is not live. *)
Definition update_page (page : nat)
    (f : LinearAllocatorPage -> LinearAllocatorPage)
    (s : LinearAllocator) : option LinearAllocator :=
  pg ← pages s !! page;
  Some (set_pages (<[page := f pg]> (pages s)) s).

(** [if (q) q->field = ...]. *)
Definition update_if_page (q : option nat)
    (f : LinearAllocatorPage -> LinearAllocatorPage)
    (s : LinearAllocator) : option LinearAllocator :=
  match q with
  | Some p => update_page p f s
  | None => Some s
  end.

(** The [LinearAllocatorPage*& list] parameter of [LinkPage] and
    [LinkPageChain] names one of the three head fields. *)
Inductive PageList := unusedPages | usedPages | pendingPages.

Global Instance PageList_eq_dec : EqDecision PageList.
Proof. solve_decision. Defined.

Definition list_head (r : PageList) (s : LinearAllocator) : option nat :=
  match r with
  | unusedPages => m_unusedPages s
  | usedPages => m_usedPages s
  | pendingPages => m_pendingPages s
  end.

Definition set_list_head (r : PageList) (v : option nat) (s : LinearAllocator) :=
  match r with
  | unusedPages => set_unusedPages v s
  | usedPages => set_usedPages v s
  | pendingPages => set_pendingPages v s
  end.

(** The fuel of a loop over a page chain. *)
Definition chain_fuel (s : LinearAllocator) : nat := S (size (pages s)).

(** ** LinearAllocator::UnlinkPage *)
Definition UnlinkPage (page : nat) (s : LinearAllocator) : option LinearAllocator :=
  pg ← pages s !! page;
  s ← match pPrevPage pg with
      | Some prev => update_page prev (set_pNextPage (pNextPage pg)) s
      | None =>
          if decide (Some page = m_unusedPages s)
          then Some (set_unusedPages (pNextPage pg) s)
          else if decide (Some page = m_usedPages s)
          then Some (set_usedPages (pNextPage pg) s)
          else if decide (Some page = m_pendingPages s)
          then Some (set_pendingPages (pNextPage pg) s)
          else Some s
      end;
  pg ← pages s !! page;
  s ← update_if_page (pNextPage pg) (set_pPrevPage (pPrevPage pg)) s;
  update_page page (fun q => set_pPrevPage None (set_pNextPage None q)) s.

(** ** LinearAllocator::LinkPage *)
Definition LinkPage (page : nat) (list : PageList) (s : LinearAllocator)
    : option LinearAllocator :=
  s ← update_page page (set_pNextPage (list_head list s)) s;
  s ← update_if_page (list_head list s) (set_pPrevPage (Some page)) s;
  Some (set_list_head list (Some page) s).

(** ** LinearAllocator::LinkPageChain *)

(** [for (lastPage = page; lastPage->pNextPage != nullptr; lastPage = lastPage->pNextPage) {}] *)
Fixpoint LinkPageChain_last (fuel : nat) (h : store) (lastPage : nat) : option nat :=
  match fuel with
  | O => None
  | S fuel =>
      pg ← h !! lastPage;
      match pNextPage pg with
      | None => Some lastPage
      | Some next => LinkPageChain_last fuel h next
      end
  end.

Definition LinkPageChain (page : nat) (list : PageList) (s : LinearAllocator)
    : option LinearAllocator :=
  lastPage ← LinkPageChain_last (chain_fuel s) (pages s) page;
  s ← update_page lastPage (set_pNextPage (list_head list s)) s;
  s ← update_if_page (list_head list s) (set_pPrevPage (Some lastPage)) s;
  Some (set_list_head list (Some page) s).

(** ** LinearAllocator::GetNewPage *)

(** What the device answers when a page is created. *)
Inductive DeviceResult :=
| CreateCommittedResourceFailed
| MapFailed
| CreateFenceFailed
| DeviceOk.

Global Instance DeviceResult_eq_dec : EqDecision DeviceResult.
Proof. solve_decision. Defined.

Definition GetNewPage (dev : DeviceResult) (s : LinearAllocator)
    : option (outcome (option nat) * LinearAllocator) :=
  match dev with
  | CreateCommittedResourceFailed => Some (Returned None, s)
  | MapFailed => Some (Thrown com_exception, s)
  | CreateFenceFailed => Some (Returned None, s)
  | DeviceOk =>
      let page := fresh (dom (pages s)) in
      let pg :=
        set_pNextPage (m_unusedPages s)
          (set_pPrevPage None
             (set_mSize (m_increment s) LinearAllocatorPage_new)) in
      let s := set_created (S (created s)) (set_pages (<[page := pg]> (pages s)) s) in
      s ← update_page page (set_pNextPage (m_unusedPages s)) s;
      s ← update_if_page (m_unusedPages s) (set_pPrevPage (Some page)) s;
      let s := set_unusedPages (Some page) s in
      let s := set_totalPages (size_t (m_totalPages s + 1)) s in
      Some (Returned (Some page), s)
  end.

(** ** LinearAllocator::GetCleanPageForAlloc *)
Definition GetCleanPageForAlloc (dev : DeviceResult) (s : LinearAllocator)
    : option (outcome (option nat) * LinearAllocator) :=
  r ← match m_unusedPages s with
      | Some page => Some (Returned (Some page), s)
      | None => GetNewPage dev s
      end;
  match r with
  | (Returned (Some page), s) =>
      s ← UnlinkPage page s;
      s ← LinkPage page usedPages s;
      Some (Returned (Some page), s)
  | (Returned None, s) => Some (Returned None, s)
  | (Thrown e, s) => Some (Thrown e, s)
  end.

(** ** LinearAllocator::FindPageForAlloc (list, sizeBytes, alignment) *)
Fixpoint FindPageForAlloc_in (fuel : nat) (s : LinearAllocator)
    (page : option nat) (sizeBytes alignment : Z) : option (option nat) :=
  match page with
  | None => Some None
  | Some p =>
      match fuel with
      | O => None
      | S fuel =>
          pg ← pages s !! p;
          let offset := AlignOffset (mOffset pg) alignment in
          if size_t (offset + sizeBytes) <=? m_increment s
          then Some (Some p)
          else FindPageForAlloc_in fuel s (pNextPage pg) sizeBytes alignment
      end
  end.

(** ** LinearAllocator::GetPageForAlloc *)
Definition GetPageForAlloc (dev : DeviceResult) (sizeBytes alignment : Z)
    (s : LinearAllocator) : option (outcome (option nat) * LinearAllocator) :=
  if (sizeBytes =? m_increment s)
     && ((alignment =? 0) || (alignment =? m_increment s))
  then GetCleanPageForAlloc dev s
  else
    page ← FindPageForAlloc_in (chain_fuel s) s (m_usedPages s) sizeBytes alignment;
    match page with
    | Some p => Some (Returned (Some p), s)
    | None => GetCleanPageForAlloc dev s
    end.

(** ** LinearAllocator::FindPageForAlloc (size, alignment) *)
Definition FindPageForAlloc (debug : bool) (dev : DeviceResult)
    (size alignment : Z) (s : LinearAllocator)
    : option (outcome nat * LinearAllocator) :=
  if debug && (m_increment s <? size)
  then Some (Thrown (out_of_range "DirectX::LinearAllocator::FindPageForAlloc size must be less or equal to the allocator's increment"), s)
  else if debug && (m_increment s <? alignment)
  then Some (Thrown (out_of_range "DirectX::LinearAllocator::FindPageForAlloc alignment must be less or equal to the allocator's increment"), s)
  else if debug && (size =? 0)
  then Some (Thrown (std_exception "Cannot honor zero size allocation request."), s)
  else
    r ← GetPageForAlloc dev size alignment s;
    match r with
    | (Returned (Some page), s) => Some (Returned page, s)
    | (Returned None, s) => Some (Thrown (std_exception "Out of memory."), s)
    | (Thrown e, s) => Some (Thrown e, s)
    end.

(** ** LinearAllocator::FenceCommittedPages *)

(** [commandQueue->Signal(page->mFence.Get(), value)]. *)
Definition Signal (page : nat) (value : Z) (s : LinearAllocator) :=
  set_signals (signals s ++ [(page, value)]) s.

(** The loop over the used pages; the locals [numReady], [readyPages] and
    [unreadyPages] are threaded through. *)
Fixpoint FenceCommittedPages_loop (fuel : nat) (page : option nat)
    (numReady : Z) (readyPages unreadyPages : option nat)
    (s : LinearAllocator)
    : option (Z * option nat * option nat * LinearAllocator) :=
  match page with
  | None => Some (numReady, readyPages, unreadyPages, s)
  | Some p =>
      match fuel with
      | O => None
      | S fuel =>
          pg ← pages s !! p;
          let nextPage := pNextPage pg in
          s ← update_page p (set_pPrevPage None) s;
          pg ← pages s !! p;
          if mRefCount pg =? 0
          then
            let numReady := UINT (numReady + 1) in
            s ← update_page p
                  (fun q => set_mPendingFence (UINT64 (mPendingFence q + 1)) q) s;
            pg ← pages s !! p;
            let s := Signal p (mPendingFence pg) s in
            s ← update_page p (set_pNextPage readyPages) s;
            s ← update_if_page readyPages (set_pPrevPage (Some p)) s;
            FenceCommittedPages_loop fuel nextPage numReady (Some p) unreadyPages s
          else
            s ← update_page p (set_pNextPage unreadyPages) s;
            s ← update_if_page unreadyPages (set_pPrevPage (Some p)) s;
            FenceCommittedPages_loop fuel nextPage numReady readyPages (Some p) s
      end
  end.

Definition FenceCommittedPages (s : LinearAllocator) : option LinearAllocator :=
  match m_usedPages s with
  | None => Some s
  | Some _ =>
      r ← FenceCommittedPages_loop (chain_fuel s) (m_usedPages s) 0 None None s;
      let '(numReady, readyPages, unreadyPages, s) := r in
      let s := set_usedPages unreadyPages s in
      if 0 <? numReady
      then
        let s := set_numPending (size_t (m_numPending s + numReady)) s in
        match readyPages with
        | Some ready => LinkPageChain ready pendingPages s
        | None => None
        end
      else Some s
  end.

(** ** LinearAllocator::ReleasePage *)
Definition ReleasePage (page : nat) (s : LinearAllocator) : option LinearAllocator :=
  let s := set_numPending (size_t (m_numPending s - 1)) s in
  s ← UnlinkPage page s;
  s ← LinkPage page unusedPages s;
  update_page page (set_mOffset 0) s.

(** ** LinearAllocator::RetirePendingPages

    [completed p] is what [page->mFence->GetCompletedValue()] returns for
    the page at [p] during this call. *)
Fixpoint RetirePendingPages_loop (fuel : nat) (completed : nat -> Z)
    (page : option nat) (s : LinearAllocator) : option LinearAllocator :=
  match page with
  | None => Some s
  | Some p =>
      match fuel with
      | O => None
      | S fuel =>
          pg ← pages s !! p;
          let nextPage := pNextPage pg in
          s ← (if mPendingFence pg <=? completed p
               then ReleasePage p s
               else Some s);
          RetirePendingPages_loop fuel completed nextPage s
      end
  end.

Definition RetirePendingPages (completed : nat -> Z) (s : LinearAllocator)
    : option LinearAllocator :=
  RetirePendingPages_loop (chain_fuel s) completed (m_pendingPages s) s.

(** ** LinearAllocator::FreePages *)
Fixpoint FreePages_loop (fuel : nat) (page : option nat) (s : LinearAllocator)
    : option LinearAllocator :=
  match page with
  | None => Some s
  | Some p =>
      match fuel with
      | O => None
      | S fuel =>
          pg ← pages s !! p;
          let nextPage := pNextPage pg in
          let s := set_destroyed (S (destroyed s)) (set_pages (delete p (pages s)) s) in
          let s := set_totalPages (size_t (m_totalPages s - 1)) s in
          FreePages_loop fuel nextPage s
      end
  end.

Definition FreePages (page : option nat) (s : LinearAllocator) : option LinearAllocator :=
  FreePages_loop (chain_fuel s) page s.

(** ** LinearAllocator::Shrink *)
Definition Shrink (s : LinearAllocator) : option LinearAllocator :=
  s ← FreePages (m_unusedPages s) s;
  Some (set_unusedPages None s).

(** ** LinearAllocator::LinearAllocator *)

(** The members as they are before the preallocation loop. *)
Definition LinearAllocator_init (pageSize : Z) : LinearAllocator :=
  Allocator None None None pageSize 0 0 ∅ 0 0 [].

(** The preallocation loop; [devs k] is the device's answer to the [k]-th
    page creation. *)
Fixpoint preallocate (count : nat) (devs : nat -> DeviceResult) (k : nat)
    (s : LinearAllocator) : option (outcome unit * LinearAllocator) :=
  match count with
  | O => Some (Returned tt, s)
  | S count =>
      r ← GetNewPage (devs k) s;
      match r with
      | (Returned (Some _), s) => preallocate count devs (S k) s
      | (Returned None, s) => Some (Thrown (std_exception "Out of memory."), s)
      | (Thrown e, s) => Some (Thrown e, s)
      end
  end.

(** The division by a zero [pageSize] is undefined. *)
Definition LinearAllocator_ctor (pageSize preallocateBytes : Z)
    (devs : nat -> DeviceResult) : option (outcome unit * LinearAllocator) :=
  if pageSize =? 0 then None
  else
    let preallocatePageCount := size_t (preallocateBytes + pageSize - 1) / pageSize in
    if preallocateBytes =? 0
    then Some (Returned tt, LinearAllocator_init pageSize)
    else preallocate (Z.to_nat preallocatePageCount) devs 0 (LinearAllocator_init pageSize).

(** ** LinearAllocator::~LinearAllocator *)

(** [while (m_pendingPages != nullptr) RetirePendingPages();] where
    [polls k] is what the fences report during the [k]-th round.  The loop
    has no bound of its own: [Spinning] is returned when the given number of
    rounds did not drain the pending list. *)
Inductive wait_result :=
| Drained (rounds : nat) (s : LinearAllocator)
| Spinning (s : LinearAllocator)
| Fault.

Fixpoint wait_pending (rounds : nat) (polls : nat -> nat -> Z) (k : nat)
    (s : LinearAllocator) : wait_result :=
  match m_pendingPages s with
  | None => Drained k s
  | Some _ =>
      match rounds with
      | O => Spinning s
      | S rounds =>
          match RetirePendingPages (polls k) s with
          | Some s => wait_pending rounds polls (S k) s
          | None => Fault
          end
      end
  end.

(** The part of the destructor after the wait. *)
Definition LinearAllocator_free_all (s : LinearAllocator) : option LinearAllocator :=
  s ← FreePages (m_unusedPages s) s;
  s ← FreePages (m_usedPages s) s;
  Some (set_increment 0
          (set_unusedPages None (set_usedPages None (set_pendingPages None s)))).

Definition LinearAllocator_dtor (rounds : nat) (polls : nat -> nat -> Z)
    (s : LinearAllocator) : option LinearAllocator :=
  match wait_pending rounds polls 0 s with
  | Drained _ s => LinearAllocator_free_all s
  | Spinning _ => None
  | Fault => None
  end.

(** ** LinearAllocator::ValidateList, LinearAllocator::ValidatePageLists

    Compiled, and called at the end of the list operations, when
    [VALIDATE_LISTS] is set; the file sets it to 0. *)
Fixpoint ValidateList_loop (fuel : nat) (h : store) (page lastPage : option nat)
    : option (outcome unit) :=
  match page with
  | None => Some (Returned tt)
  | Some p =>
      match fuel with
      | O => None
      | S fuel =>
          pg ← h !! p;
          if decide (pPrevPage pg = lastPage)
          then ValidateList_loop fuel h (pNextPage pg) (Some p)
          else Some (Thrown (std_exception "Broken link to previous"))
      end
  end.

Definition ValidateList (list : option nat) (s : LinearAllocator)
    : option (outcome unit) :=
  ValidateList_loop (chain_fuel s) (pages s) list None.

Definition ValidatePageLists (s : LinearAllocator) : option (outcome unit) :=
  r ← ValidateList (m_pendingPages s) s;
  match r with
  | Thrown e => Some (Thrown e)
  | Returned _ =>
      r ← ValidateList (m_usedPages s) s;
      match r with
      | Thrown e => Some (Thrown e)
      | Returned _ => ValidateList (m_unusedPages s) s
      end
  end.

(** * Specification vocabulary *)

(** ** Page chains

    [dseg h prev cur l nxt]: following [pNextPage] from [cur] visits exactly
    the pages of [l] and then arrives at [nxt]; each page's [pPrevPage] is
    its predecessor, [prev] for the first. *)
Fixpoint dseg (h : store) (prev cur : option nat) (l : list nat)
    (nxt : option nat) : Prop :=
  match l with
  | [] => cur = nxt
  | p :: l' =>
      cur = Some p /\
      match h !! p with
      | Some pg => pPrevPage pg = prev /\ dseg h (Some p) (pNextPage pg) l' nxt
      | None => False
      end
  end.

(** A whole list: the head has no predecessor, the last page no successor. *)
Definition dll (h : store) (cur : option nat) (l : list nat) : Prop :=
  dseg h None cur l None.

(** The pages met when following [pNextPage] from [cur]. *)
Fixpoint walk (fuel : nat) (h : store) (cur : option nat) : list nat :=
  match fuel, cur with
  | S fuel, Some p =>
      p :: match h !! p with
           | Some pg => walk fuel h (pNextPage pg)
           | None => []
           end
  | _, _ => []
  end.

Definition page_list (r : PageList) (s : LinearAllocator) : list nat :=
  walk (chain_fuel s) (pages s) (list_head r s).

Definition unused_list (s : LinearAllocator) := page_list unusedPages s.
Definition used_list (s : LinearAllocator) := page_list usedPages s.
Definition pending_list (s : LinearAllocator) := page_list pendingPages s.

Definition all_pages (L : PageList -> list nat) : list nat :=
  L unusedPages ++ L usedPages ++ L pendingPages.

(** The last page of a segment, or what precedes it when it is empty. *)
Definition last_or (prev : option nat) (l : list nat) : option nat :=
  match last l with
  | Some x => Some x
  | None => prev
  end.

(** The first page of a segment, or what follows it when it is empty. *)
Definition head_or (nxt : option nat) (l : list nat) : option nat :=
  match l with
  | x :: _ => Some x
  | [] => nxt
  end.

(** The three heads lead to the lists [L], which share no page. *)
Record linked (s : LinearAllocator) (L : PageList -> list nat) : Prop := {
  linked_dll : forall r, dll (pages s) (list_head r s) (L r);
  linked_NoDup : NoDup (all_pages L)
}.

(** The fields of a page other than its links. *)
Definition page_data (pg : LinearAllocatorPage) : Z * Z * Z * Z :=
  (mPendingFence pg, mOffset pg, mSize pg, mRefCount pg).

Definition data_at (h : store) (p : nat) : option (Z * Z * Z * Z) :=
  page_data <$> h !! p.

Definition page_ok (increment : Z) (pg : LinearAllocatorPage) : Prop :=
  mSize pg = increment /\
  (0 <= mPendingFence pg < 2 ^ 64) /\
  (0 <= mOffset pg < 2 ^ 64).

(** ** Well-formed allocator states *)
Record wf (s : LinearAllocator) : Prop := {
  wf_unused : dll (pages s) (m_unusedPages s) (unused_list s);
  wf_used : dll (pages s) (m_usedPages s) (used_list s);
  wf_pending : dll (pages s) (m_pendingPages s) (pending_list s);
  wf_NoDup : NoDup (all_pages (fun r => page_list r s));
  wf_dom : dom (pages s) = list_to_set (all_pages (fun r => page_list r s));
  wf_pages : map_Forall (fun _ pg => page_ok (m_increment s) pg) (pages s);
  wf_clean : Forall (fun p => mOffset <$> pages s !! p = Some 0) (unused_list s);
  wf_increment : 0 < m_increment s < 2 ^ 64;
  wf_room : Z.of_nat (size (pages s)) < 2 ^ 32;
  wf_total : m_totalPages s = Z.of_nat (size (pages s));
  wf_created : created s = (destroyed s + size (pages s))%nat
}.

(** ** Operations on an allocator *)

(** [op_SetRefCount] stands for [AddRef] and [Release] of a page, which the
    header declares.  [op_GetNewPage] is a step of the constructor's
    preallocation. *)
Inductive operation :=
| op_GetNewPage (dev : DeviceResult)
| op_FindPageForAlloc (dev : DeviceResult) (size alignment : Z)
| op_Suballocate (page : nat) (size alignment : Z)
| op_SetRefCount (page : nat) (count : Z)
| op_FenceCommittedPages
| op_RetirePendingPages (completed : nat -> Z)
| op_Shrink.

(** The state an operation leaves, also when it throws.  The [assert]s
    of the code are not run: [exec] describes a build in which [assert] is
    compiled out, whether it defines [_DEBUG] or not. *)
Definition exec (debug : bool) (o : operation) (s : LinearAllocator)
    : option LinearAllocator :=
  match o with
  | op_GetNewPage dev => snd <$> GetNewPage dev s
  | op_FindPageForAlloc dev size alignment =>
      snd <$> FindPageForAlloc debug dev size alignment s
  | op_Suballocate page size alignment =>
      pg ← pages s !! page;
      match Suballocate debug size alignment pg with
      | Returned (_, pg') => Some (set_pages (<[page := pg']> (pages s)) s)
      | Thrown _ => Some s
      end
  | op_SetRefCount page count => update_page page (set_mRefCount count) s
  | op_FenceCommittedPages => FenceCommittedPages s
  | op_RetirePendingPages completed => RetirePendingPages completed s
  | op_Shrink => Shrink s
  end.

(** What the caller and the device are assumed to respect: arguments are
    [size_t] values; [Suballocate] is called on a page in use; the
    reference count changed is that of a live page; and the device never
    holds as many as 2^32 pages at once (it fails to create one before). *)
Definition creates (o : operation) : bool :=
  match o with
  | op_GetNewPage DeviceOk => true
  | op_FindPageForAlloc DeviceOk _ _ => true
  | _ => false
  end.

Definition permitted (o : operation) (s : LinearAllocator) : Prop :=
  (creates o = true -> Z.of_nat (size (pages s)) + 1 < 2 ^ 32) /\
  match o with
  | op_FindPageForAlloc _ size alignment =>
      (0 <= size < 2 ^ 64) /\ (0 <= alignment < 2 ^ 64)
  | op_Suballocate page size alignment =>
      page ∈ used_list s /\ (0 <= size < 2 ^ 64) /\ (0 <= alignment < 2 ^ 64)
  | op_SetRefCount page _ => is_Some (pages s !! page)
  | _ => True
  end.

(** [steps debug n s]: [s] is reached from a fresh allocator by [n]
    operations, in a build where [_DEBUG] is defined iff [debug]. *)
Inductive steps (debug : bool) : nat -> LinearAllocator -> Prop :=
| steps_init pageSize :
    0 < pageSize < 2 ^ 64 ->
    steps debug 0 (LinearAllocator_init pageSize)
| steps_next n s o s' :
    steps debug n s ->
    permitted o s ->
    exec debug o s = Some s' ->
    steps debug (S n) s'.

Definition reachable (debug : bool) (s : LinearAllocator) : Prop :=
  exists n, steps debug n s.

(** ** The fields of a page, and the members of the allocator, that the
    lemmas below compare *)

(** The two links of the page at [p]. *)
Definition links_at (h : store) (p : nat) : option (option nat * option nat) :=
  (fun pg => (pPrevPage pg, pNextPage pg)) <$> h !! p.

(** Two stores that agree on everything but the links. *)
Definition same_data (h h' : store) : Prop :=
  forall p, data_at h' p = data_at h p.

(** The members that no list operation touches. *)
Definition scalars (s : LinearAllocator) :=
  (m_increment s, m_totalPages s, created s, destroyed s, signals s).

(** The members that the walk of [FenceCommittedPages] leaves alone. *)
Definition counters (s : LinearAllocator) :=
  (m_increment s, m_totalPages s, created s, destroyed s, m_numPending s).

(** The components of [page_data]. *)
Definition d_fence (d : Z * Z * Z * Z) : Z := fst (fst (fst d)).

Definition d_offset (d : Z * Z * Z * Z) : Z := snd (fst (fst d)).

Definition d_size (d : Z * Z * Z * Z) : Z := snd (fst d).

Definition d_ref (d : Z * Z * Z * Z) : Z := snd d.

(** [page_ok] on the data of a page. *)
Definition data_ok (increment : Z) (d : Z * Z * Z * Z) : Prop :=
  d_size d = increment /\
  (0 <= d_fence d < 2 ^ 64) /\
  (0 <= d_offset d < 2 ^ 64).

(** What [ReleasePage] and the commit do to the data of a page. *)
Definition reset_offset (d : Z * Z * Z * Z) : Z * Z * Z * Z :=
  let '(f, _, sz, rc) := d in (f, 0, sz, rc).

Definition bump_fence (d : Z * Z * Z * Z) : Z * Z * Z * Z :=
  let '(f, o, sz, rc) := d in (UINT64 (f + 1), o, sz, rc).

(** The test of [RetirePendingPages] on the page at [p]. *)
Definition fence_passed (completed : nat -> Z) (h : store) (p : nat) : bool :=
  match h !! p with
  | Some pg => mPendingFence pg <=? completed p
  | None => false
  end.

(** The test of [FenceCommittedPages] on the page at [p]. *)
Definition page_ready (h : store) (p : nat) : bool :=
  match h !! p with
  | Some pg => mRefCount pg =? 0
  | None => false
  end.

(** The fence counter of the page at [p]. *)
Definition fence_at (h : store) (p : nat) : Z :=
  match h !! p with
  | Some pg => mPendingFence pg
  | None => 0
  end.

(** ** The invariant, with the three lists named *)

(** The three lists, named. *)
Definition mkL (lu lus lp : list nat) : PageList -> list nat :=
  fun r =>
    match r with
    | unusedPages => lu
    | usedPages => lus
    | pendingPages => lp
    end.

(** [wf] with the lists named. *)
Record inv (s : LinearAllocator) (L : PageList -> list nat) : Prop := {
  inv_linked : linked s L;
  inv_dom : forall p, is_Some (pages s !! p) <-> p ∈ all_pages L;
  inv_ok : forall p d, data_at (pages s) p = Some d -> data_ok (m_increment s) d;
  inv_clean : forall p d,
    p ∈ L unusedPages -> data_at (pages s) p = Some d -> d_offset d = 0;
  inv_increment : 0 < m_increment s < 2 ^ 64;
  inv_room : Z.of_nat (size (pages s)) < 2 ^ 32;
  inv_total : m_totalPages s = Z.of_nat (size (pages s));
  inv_created : created s = (destroyed s + size (pages s))%nat
}.

(** ** The search for a page *)

(** The test of [FindPageForAlloc] on the page at [p]. *)
Definition page_fits (s : LinearAllocator) (sizeBytes alignment : Z) (p : nat)
    : bool :=
  match pages s !! p with
  | Some pg =>
      size_t (AlignOffset (mOffset pg) alignment + sizeBytes) <=? m_increment s
  | None => false
  end.

(** The first page of a list that passes the test. *)
Definition first_fit (s : LinearAllocator) (sizeBytes alignment : Z)
    (l : list nat) : option nat :=
  head (filter (fun p => page_fits s sizeBytes alignment p) l).

(** ** Alignments and room *)

(** An alignment as [AlignOffset] asserts it: zero or a power of two. *)
Definition is_alignment (a : Z) : Prop :=
  a = 0 \/ exists k, 0 <= k < 64 /\ a = 2 ^ k.

(** What "a page with room" means: [Suballocate] on it succeeds, and the
    bytes it hands out lie inside the page, after the cursor. *)
Definition has_room (sizeBytes alignment : Z) (pg : LinearAllocatorPage) : Prop :=
  mOffset pg <= AlignOffset (mOffset pg) alignment /\
  AlignOffset (mOffset pg) alignment + sizeBytes <= mSize pg /\
  Suballocate true sizeBytes alignment pg
  = Returned (AlignOffset (mOffset pg) alignment,
              set_mOffset (AlignOffset (mOffset pg) alignment + sizeBytes) pg).

(** The arithmetic of this operation does not wrap around: it is not a
    [Suballocate], or its alignment is zero or a power of two and neither
    rounding the cursor up nor adding the size overflows [size_t]. *)
Definition no_overflow (o : operation) (s : LinearAllocator) : Prop :=
  match o with
  | op_Suballocate page sizeBytes alignment =>
      is_alignment alignment /\
      forall pg, pages s !! page = Some pg ->
        mOffset pg + alignment <= 2 ^ 64 /\
        AlignOffset (mOffset pg) alignment + sizeBytes < 2 ^ 64
  | _ => True
  end.

(** ** What one operation does *)

(** [transition debug o s s' L L']: how the pages' data and the lists of
    [s'] relate to those of [s] after operation [o]. *)
Record transition (debug : bool) (o : operation) (s s' : LinearAllocator)
    (L L' : PageList -> list nat) : Prop := {
  tr_increment : m_increment s' = m_increment s;
  tr_new : forall q d',
    data_at (pages s) q = None -> data_at (pages s') q = Some d' ->
    d' = (0, 0, m_increment s, 0) /\ q ∉ L' pendingPages;
  tr_fence : forall q d d',
    data_at (pages s) q = Some d -> data_at (pages s') q = Some d' ->
    d_fence d' = d_fence d \/
    (d_fence d' = UINT64 (d_fence d + 1) /\
     q ∈ L usedPages /\ q ∈ L' pendingPages);
  tr_offset : forall q d d',
    data_at (pages s) q = Some d -> data_at (pages s') q = Some d' ->
    d_offset d' = d_offset d \/
    (d_offset d' = 0 /\ q ∈ L pendingPages /\ q ∈ L' unusedPages) \/
    (exists sz al,
       o = op_Suballocate q sz al /\
       d_offset d' = size_t (AlignOffset (d_offset d) al + sz) /\
       (debug = true -> d_offset d' <= d_size d));
  tr_used : forall q,
    q ∈ L' usedPages ->
    q ∈ L usedPages \/ q ∈ L unusedPages \/ data_at (pages s) q = None;
  tr_pending : forall q,
    q ∈ L' pendingPages ->
    q ∈ L pendingPages \/
    (q ∈ L usedPages /\
     exists d d', data_at (pages s) q = Some d /\
                  data_at (pages s') q = Some d' /\
                  d_fence d' = UINT64 (d_fence d + 1))
}.

(** ** Running operations *)

Global Instance permitted_dec o s : Decision (permitted o s).
Proof. unfold permitted. destruct o; apply _. Defined.

(** A sequence of operations, each checked to be permitted. *)
Fixpoint run (debug : bool) (ops : list operation) (s : LinearAllocator)
    : option LinearAllocator :=
  match ops with
  | [] => Some s
  | o :: ops =>
      if decide (permitted o s)
      then s' ← exec debug o s; run debug ops s'
      else None
  end.

(** The state after a sequence of operations on a fresh allocator with
    pages of 64 KiB. *)
Definition after (debug : bool) (ops : list operation) : LinearAllocator :=
  default (LinearAllocator_init 65536)
    (run debug ops (LinearAllocator_init 65536)).

(** Two allocations of 4096 bytes aligned on 256. *)
Definition two_allocations : list operation :=
  [op_FindPageForAlloc DeviceOk 4096 256; op_Suballocate 0 4096 256;
   op_FindPageForAlloc DeviceOk 4096 256; op_Suballocate 0 4096 256].

(** Two whole pages taken one after the other. *)
Definition two_whole_pages : list operation :=
  [op_FindPageForAlloc DeviceOk 65536 0; op_FindPageForAlloc DeviceOk 65536 0].

(** The fences have completed nothing, or everything. *)
Definition nothing_completed : nat -> Z := fun _ => 0.

Definition all_completed : nat -> Z := fun _ => 2 ^ 64 - 1.

(** The fences complete in the third round of polling. *)
Definition completes_in_round_2 : nat -> nat -> Z :=
  fun j _ => if (j <? 2)%nat then 0 else 2 ^ 64 - 1.



(** ** Requests and cursors *)

(** No cursor is beyond the end of its page. *)
Definition cursors_in_range (s : LinearAllocator) : Prop :=
  map_Forall (fun _ pg => mOffset pg <= mSize pg) (pages s).

(** A request that the [_DEBUG] checks of [FindPageForAlloc] let through,
    with an alignment as [AlignOffset] asserts it. *)
Definition valid_request (s : LinearAllocator) (sizeBytes alignment : Z) : Prop :=
  (0 < sizeBytes <= m_increment s) /\
  is_alignment alignment /\ (alignment <= m_increment s).

(** The number of pages the constructor preallocates. *)
Definition preallocatePageCount (pageSize preallocateBytes : Z) : Z :=
  if preallocateBytes =? 0 then 0
  else size_t (preallocateBytes + pageSize - 1) / pageSize.

(** Two pages chained to each other and held by no list, as the ready
    pages are at the end of the loop of [FenceCommittedPages]. *)
Definition two_chained_pages : LinearAllocator :=
  Allocator None None None 65536 0 2
    {[ 0%nat := Page None (Some 1%nat) 1 4096 65536 0;
       1%nat := Page (Some 0%nat) None 1 8192 65536 0 ]} 2 0 [].

(** From [s] to [s'] no page was freed and the page size was kept. *)
Definition keeps_pages (s s' : LinearAllocator) : Prop :=
  destroyed s' = destroyed s /\
  dom (pages s) ⊆ dom (pages s') /\
  m_increment s' = m_increment s.

(** ** The request as the specification words it *)

(** The cursor rounded up to a multiple of the alignment, in unbounded
    arithmetic; an alignment of 0 asks for none. *)
Definition aligned_cursor (offset alignment : Z) : Z :=
  if alignment =? 0 then offset
  else alignment * ((offset + alignment - 1) / alignment).

(** The page at [p] has room for the request: its aligned cursor plus the
    size is within its capacity. *)
Definition has_space (s : LinearAllocator) (sizeBytes alignment : Z) (p : nat)
    : bool :=
  match pages s !! p with
  | Some pg => aligned_cursor (mOffset pg) alignment + sizeBytes <=? mSize pg
  | None => false
  end.

(** The [size_t] sums of the test of [FindPageForAlloc] on the page at [p]
    do not overflow. *)
Definition scan_in_range (s : LinearAllocator) (sizeBytes alignment : Z)
    (p : nat) : Prop :=
  match pages s !! p with
  | Some pg =>
      mOffset pg + alignment <= 2 ^ 64 /\
      aligned_cursor (mOffset pg) alignment + sizeBytes < 2 ^ 64
  | None => True
  end.

(** ** Allocators that hold any number of pages *)

(** A chain of pages of [increment] bytes, clean and released, each linked
    to the next of [l]; the first has [prev] before it. *)
Fixpoint chain_store (increment : Z) (prev : option nat) (l : list nat) : store :=
  match l with
  | [] => ∅
  | p :: l' =>
      <[p := Page prev (head l') 0 0 increment 0]>
        (chain_store increment (Some p) l')
  end.


(** [permitted] without the bound on the number of pages. *)
Definition within_arguments (o : operation) (s : LinearAllocator) : Prop :=
  match o with
  | op_FindPageForAlloc _ size alignment =>
      (0 <= size < 2 ^ 64) /\ (0 <= alignment < 2 ^ 64)
  | op_Suballocate page size alignment =>
      page ∈ used_list s /\ (0 <= size < 2 ^ 64) /\ (0 <= alignment < 2 ^ 64)
  | op_SetRefCount page _ => is_Some (pages s !! page)
  | _ => True
  end.

(** The states reached from a fresh allocator, however many pages the
    device lets it hold. *)
Inductive reaches (debug : bool) : LinearAllocator -> Prop :=
| reaches_init pageSize :
    0 < pageSize < 2 ^ 64 ->
    reaches debug (LinearAllocator_init pageSize)
| reaches_next s o s' :
    reaches debug s ->
    within_arguments o s ->
    exec debug o s = Some s' ->
    reaches debug s'.

(** ** Proof steps *)

(** Decidable facts about a concrete state. *)
Ltac by_computation :=
  apply (bool_decide_unpack _); vm_compute; exact I.

(** A concrete run that returns. *)
Ltac runs := vm_compute; eexists; reflexivity.


(** * Page chains in the store *)

Section chains.
Implicit Types (h : store) (l : list nat) (p : nat).

Lemma links_at_Some h p pg :
  h !! p = Some pg -> links_at h p = Some (pPrevPage pg, pNextPage pg).
Proof. unfold links_at. intros ->. reflexivity. Qed.

Lemma dseg_frame h h' l pv c n :
  (forall p, p ∈ l -> links_at h' p = links_at h p) ->
  dseg h pv c l n -> dseg h' pv c l n.
Proof.
  revert pv c. induction l as [|x l IH]; intros pv c Hl; simpl; [done|].
  intros [-> Hx]. split; [done|].
  assert (Hxl : links_at h' x = links_at h x) by (apply Hl; left).
  unfold links_at in Hxl.
  destruct (h !! x) as [pg|] eqn:E; [|done].
  destruct (h' !! x) as [pg'|]; [|done].
  simpl in Hxl. injection Hxl as Hp Hn.
  destruct Hx as [Hpv Hrest]. rewrite Hp, Hn. split; [done|].
  apply IH; [|done]. intros q Hq. apply Hl. by right.
Qed.

Lemma dseg_insert_notin h l pv c n p pg :
  p ∉ l -> dseg h pv c l n -> dseg (<[p := pg]> h) pv c l n.
Proof.
  intros Hp. apply dseg_frame. intros q Hq. unfold links_at.
  rewrite lookup_insert_ne; [done|]. intros ->. done.
Qed.

Lemma dseg_delete_notin h l pv c n p :
  p ∉ l -> dseg h pv c l n -> dseg (delete p h) pv c l n.
Proof.
  intros Hp. apply dseg_frame. intros q Hq. unfold links_at.
  rewrite lookup_delete_ne; [done|]. intros ->. done.
Qed.

Lemma dseg_head h l pv c n : dseg h pv c l n -> c = head_or n l.
Proof. destruct l; simpl; [done|]. by intros [-> _]. Qed.

Lemma dseg_live h l pv c n p : dseg h pv c l n -> p ∈ l -> is_Some (h !! p).
Proof.
  revert pv c. induction l as [|x l IH]; intros pv c; simpl.
  - intros _ Hp. by apply elem_of_nil in Hp.
  - intros [-> Hx] Hp. destruct (h !! x) as [pg|] eqn:E; [|done].
    apply elem_of_cons in Hp as [->|Hp]; [by rewrite E|].
    destruct Hx as [_ Hx]. eauto.
Qed.

Lemma last_or_cons pv x l : last_or pv (x :: l) = last_or (Some x) l.
Proof.
  unfold last_or. destruct l as [|y l]; [done|].
  rewrite last_cons. by destruct (last (y :: l)).
Qed.

Lemma last_or_app pv l1 l2 : last_or pv (l1 ++ l2) = last_or (last_or pv l1) l2.
Proof.
  revert pv. induction l1 as [|x l1 IH]; intros pv; [done|].
  simpl. by rewrite !last_or_cons, IH.
Qed.

Lemma dseg_app h l1 l2 pv c n :
  dseg h pv c (l1 ++ l2) n <->
  exists m, dseg h pv c l1 m /\ dseg h (last_or pv l1) m l2 n.
Proof.
  revert pv c. induction l1 as [|x l1 IH]; intros pv c; simpl.
  - split; [intros H; by exists c|]. by intros (m & -> & H).
  - split.
    + intros [-> Hx]. destruct (h !! x) as [pg|]; [|done].
      destruct Hx as [Hpv Hrest]. apply IH in Hrest as (m & H1 & H2).
      exists m. rewrite last_or_cons. done.
    + intros (m & [-> Hx] & H2). split; [done|].
      destruct (h !! x) as [pg|]; [|done].
      destruct Hx as [Hpv Hrest]. split; [done|].
      apply IH. exists m. by rewrite last_or_cons in H2.
Qed.

(** The links of a page in the middle of a chain. *)
Lemma dseg_mid h l1 p l2 pv c n :
  dseg h pv c (l1 ++ p :: l2) n ->
  exists pg, h !! p = Some pg /\
    pPrevPage pg = last_or pv l1 /\ pNextPage pg = head_or n l2 /\
    dseg h pv c l1 (Some p) /\ dseg h (Some p) (head_or n l2) l2 n.
Proof.
  intros (m & H1 & H2)%dseg_app. simpl in H2. destruct H2 as [-> H2].
  destruct (h !! p) as [pg|]; [|done]. destruct H2 as [Hpv Hrest].
  exists pg. pose proof (dseg_head _ _ _ _ _ Hrest) as Hn.
  rewrite <- Hn. done.
Qed.

(** Rewriting the back link of the first page. *)
Lemma dseg_set_prev h l pv pv' c n :
  NoDup l -> dseg h pv c l n ->
  match l with
  | [] => True
  | x :: _ => exists pg, h !! x = Some pg /\
                dseg (<[x := set_pPrevPage pv' pg]> h) pv' c l n
  end.
Proof.
  destruct l as [|x l]; [done|]. intros Hnd. simpl. intros [-> Hx].
  destruct (h !! x) as [pg|] eqn:E; [|done]. destruct Hx as [Hpv Hrest].
  exists pg. split; [done|]. split; [done|].
  rewrite lookup_insert_eq. simpl. split; [done|].
  apply dseg_insert_notin; [|done]. by apply NoDup_cons in Hnd as [? _].
Qed.

(** Rewriting the forward link of the last page. *)
Lemma dseg_set_next h l x pv c n n' :
  NoDup (l ++ [x]) -> dseg h pv c (l ++ [x]) n ->
  exists pg, h !! x = Some pg /\
    dseg (<[x := set_pNextPage n' pg]> h) pv c (l ++ [x]) n'.
Proof.
  intros Hnd (m & H1 & H2)%dseg_app. simpl in H2. destruct H2 as [-> H2].
  destruct (h !! x) as [pg|] eqn:E; [|done]. destruct H2 as [Hpv Hn].
  exists pg. split; [done|]. apply dseg_app. exists (Some x). split.
  - apply dseg_insert_notin; [|done].
    apply NoDup_app in Hnd as (_ & Hd & _). intros Hx. apply (Hd x Hx). left.
  - simpl. split; [done|]. rewrite lookup_insert_eq. done.
Qed.

Lemma dseg_walk h l pv c fuel :
  dseg h pv c l None -> (length l <= fuel)%nat -> walk fuel h c = l.
Proof.
  revert pv c fuel. induction l as [|x l IH]; intros pv c fuel; simpl.
  - intros -> _. by destruct fuel.
  - intros [-> Hx] Hlen. destruct fuel as [|fuel]; [lia|]. simpl.
    destruct (h !! x) as [pg|]; [|done]. destruct Hx as [_ Hrest].
    f_equal. eapply IH; [done|lia].
Qed.

Lemma dll_walk h l c fuel :
  dll h c l -> (length l <= fuel)%nat -> walk fuel h c = l.
Proof. apply dseg_walk. Qed.

Lemma NoDup_length_le_size h l :
  NoDup l -> (forall p, p ∈ l -> is_Some (h !! p)) -> (length l <= size h)%nat.
Proof.
  intros Hnd Hl.
  rewrite <- (size_list_to_set (C := gset nat) l Hnd).
  rewrite <- size_dom. apply subseteq_size.
  intros p Hp. apply elem_of_dom, Hl. by apply elem_of_list_to_set in Hp.
Qed.

End chains.

(** * The three lists of an allocator *)

Section lists.
Implicit Types (h : store) (l : list nat) (p : nat) (s : LinearAllocator)
  (L : PageList -> list nat) (r : PageList).

Lemma same_data_refl h : same_data h h.
Proof. done. Qed.

Lemma same_data_trans h1 h2 h3 :
  same_data h1 h2 -> same_data h2 h3 -> same_data h1 h3.
Proof. intros H1 H2 p. by rewrite H2, H1. Qed.

Lemma same_data_insert h p pg pg' :
  h !! p = Some pg -> page_data pg' = page_data pg ->
  same_data h (<[p := pg']> h).
Proof.
  intros Hp Hd q. unfold data_at. destruct (decide (p = q)) as [->|Hne].
  - rewrite lookup_insert_eq, Hp. simpl. by rewrite Hd.
  - by rewrite lookup_insert_ne.
Qed.

Lemma same_data_dom h h' : same_data h h' -> dom h' = dom h.
Proof.
  intros H. apply set_eq. intros p. rewrite !elem_of_dom.
  specialize (H p). unfold data_at in H.
  destruct (h !! p), (h' !! p); simpl in H; try done;
    split; intros [? ?]; done.
Qed.

Lemma same_data_size h h' : same_data h h' -> size h' = size h.
Proof. intros H. by rewrite <- !size_dom, (same_data_dom _ _ H). Qed.

Lemma update_page_Some p f s pg :
  pages s !! p = Some pg ->
  update_page p f s = Some (set_pages (<[p := f pg]> (pages s)) s).
Proof. unfold update_page. by intros ->. Qed.

Lemma elem_of_all_pages L p : p ∈ all_pages L <-> exists r, p ∈ L r.
Proof.
  unfold all_pages. rewrite !elem_of_app. split.
  - intros [H|[H|H]]; eauto.
  - intros [[] H]; auto.
Qed.

Lemma all_pages_NoDup L r : NoDup (all_pages L) -> NoDup (L r).
Proof.
  unfold all_pages. intros (H1 & _ & (H2 & _ & H3)%NoDup_app)%NoDup_app.
  by destruct r.
Qed.

Lemma all_pages_disjoint L r r' p :
  NoDup (all_pages L) -> r <> r' -> p ∈ L r -> p ∉ L r'.
Proof.
  unfold all_pages. intros (_ & H1 & (_ & H2 & _)%NoDup_app)%NoDup_app Hne Hp Hp'.
  destruct r, r'; try done.
  - apply (H1 p Hp). apply elem_of_app. by left.
  - apply (H1 p Hp). apply elem_of_app. by right.
  - apply (H1 p Hp'). apply elem_of_app. by left.
  - by apply (H2 p Hp).
  - apply (H1 p Hp'). apply elem_of_app. by right.
  - by apply (H2 p Hp').
Qed.

Lemma all_pages_sublist L L' :
  (forall r, sublist (L' r) (L r)) -> NoDup (all_pages L) -> NoDup (all_pages L').
Proof.
  intros H Hnd. eapply sublist_NoDup; [exact Hnd|]. unfold all_pages.
  repeat apply sublist_app; apply H.
Qed.

Lemma all_pages_cons L r p :
  all_pages (<[r := p :: L r]> L) ≡ₚ p :: all_pages L.
Proof.
  unfold all_pages. destruct r;
    rewrite fn_lookup_insert, !fn_lookup_insert_ne by done.
  - done.
  - simpl. symmetry. apply Permutation_middle.
  - rewrite !app_assoc. symmetry.
    apply (Permutation_middle (L unusedPages ++ L usedPages)).
Qed.

Lemma all_pages_remove L r l1 p l2 :
  L r = l1 ++ p :: l2 ->
  all_pages L ≡ₚ p :: all_pages (<[r := l1 ++ l2]> L).
Proof.
  intros HL. unfold all_pages. destruct r;
    rewrite fn_lookup_insert, !fn_lookup_insert_ne by done; rewrite HL.
  - rewrite <- !app_assoc. simpl. symmetry. apply Permutation_middle.
  - rewrite <- !app_assoc. simpl. rewrite !(app_assoc (L unusedPages)).
    symmetry. apply Permutation_middle.
  - rewrite !app_assoc. symmetry.
    apply (Permutation_middle ((L unusedPages ++ L usedPages) ++ l1)).
Qed.

(** The head that [UnlinkPage] rewrites when the page has no predecessor. *)
Lemma UnlinkPage_head s L r p l nx :
  linked s L -> L r = p :: l ->
  (if decide (Some p = m_unusedPages s)
   then Some (set_unusedPages nx s)
   else if decide (Some p = m_usedPages s)
   then Some (set_usedPages nx s)
   else if decide (Some p = m_pendingPages s)
   then Some (set_pendingPages nx s)
   else Some s) = Some (set_list_head r nx s).
Proof.
  intros [Hdll Hnd] Hr.
  assert (Hhd : list_head r s = Some p).
  { specialize (Hdll r). rewrite Hr in Hdll. by destruct Hdll as [-> _]. }
  assert (Hother : forall r', r' <> r -> list_head r' s <> Some p).
  { intros r' Hne Hp'. specialize (Hdll r').
    destruct (L r') as [|q l'] eqn:E.
    - unfold dll in Hdll. simpl in Hdll. congruence.
    - destruct Hdll as [Hq _]. rewrite Hp' in Hq. injection Hq as <-.
      eapply (all_pages_disjoint L r r' p); [done|done| |].
      + rewrite Hr. left.
      + rewrite E. left. }
  destruct r; simpl in *.
  - rewrite decide_True; done.
  - rewrite decide_False, decide_True; [done|done|].
    intros H. by apply (Hother unusedPages).
  - rewrite decide_False, decide_False, decide_True; [done|done| |].
    + intros H. by apply (Hother usedPages).
    + intros H. by apply (Hother unusedPages).
Qed.

End lists.

Section surgery.
Implicit Types (h : store) (l : list nat) (p : nat) (s : LinearAllocator)
  (L : PageList -> list nat) (r : PageList).

Lemma list_head_set_pages r h s : list_head r (set_pages h s) = list_head r s.
Proof. by destruct r. Qed.

Lemma list_head_set_same r v s : list_head r (set_list_head r v s) = v.
Proof. by destruct r. Qed.

Lemma list_head_set_other r r' v s :
  r <> r' -> list_head r' (set_list_head r v s) = list_head r' s.
Proof. by destruct r, r'. Qed.

Lemma pages_set_list_head r v s : pages (set_list_head r v s) = pages s.
Proof. by destruct r. Qed.

Lemma scalars_set_list_head r v s : scalars (set_list_head r v s) = scalars s.
Proof. by destruct r. Qed.

Lemma numPending_set_list_head r v s :
  m_numPending (set_list_head r v s) = m_numPending s.
Proof. by destruct r. Qed.

(** The first statement of [UnlinkPage]: the predecessor, or the head,
    is made to skip the page. *)
Lemma UnlinkPage_skip s L r l1 p l2 pg :
  linked s L -> L r = l1 ++ p :: l2 -> pages s !! p = Some pg ->
  exists s1,
    match pPrevPage pg with
    | Some prev => update_page prev (set_pNextPage (pNextPage pg)) s
    | None =>
        if decide (Some p = m_unusedPages s)
        then Some (set_unusedPages (pNextPage pg) s)
        else if decide (Some p = m_usedPages s)
        then Some (set_usedPages (pNextPage pg) s)
        else if decide (Some p = m_pendingPages s)
        then Some (set_pendingPages (pNextPage pg) s)
        else Some s
    end = Some s1 /\
    dseg (pages s1) None (list_head r s1) l1 (pNextPage pg) /\
    (forall q, q ∉ l1 -> pages s1 !! q = pages s !! q) /\
    (forall r', r' <> r -> list_head r' s1 = list_head r' s) /\
    same_data (pages s) (pages s1) /\
    scalars s1 = scalars s /\ m_numPending s1 = m_numPending s.
Proof.
  intros Hlk Hr Hp. pose proof Hlk as [Hdll Hnd].
  pose proof (Hdll r) as Hd. rewrite Hr in Hd.
  apply dseg_mid in Hd as (pg0 & Hp0 & Hprev & Hnext & Hl1 & Hl2).
  rewrite Hp in Hp0. injection Hp0 as <-.
  pose proof (all_pages_NoDup L r Hnd) as Hndr. rewrite Hr in Hndr.
  destruct l1 as [|x0 l1' _] using rev_ind.
  - simpl in Hprev. rewrite Hprev.
    erewrite UnlinkPage_head by (done || exact Hr).
    eexists. split; [done|]. rewrite list_head_set_same, pages_set_list_head.
    split; [done|]. split; [done|].
    split; [intros r' Hne; by apply list_head_set_other|].
    split; [done|].
    by rewrite scalars_set_list_head, numPending_set_list_head.
  - assert (Hprev' : pPrevPage pg = Some x0).
    { rewrite Hprev. unfold last_or. by rewrite last_snoc. }
    rewrite Hprev'.
    apply NoDup_app in Hndr as (Hnd1 & Hdisj & Hnd2).
    destruct (dseg_set_next _ _ _ _ _ _ (pNextPage pg) Hnd1 Hl1)
      as (pgx & Hx & Hl1').
    rewrite (update_page_Some _ _ _ _ Hx).
    eexists. split; [done|]. simpl. rewrite list_head_set_pages.
    split; [done|]. split.
    { intros q Hq. rewrite lookup_insert_ne; [done|]. intros ->.
      apply Hq, elem_of_app. right. left. }
    split; [intros r' _; apply list_head_set_pages|].
    split; [by apply (same_data_insert _ _ pgx)|done].
Qed.

Lemma UnlinkPage_spec s L r l1 p l2 :
  linked s L -> L r = l1 ++ p :: l2 ->
  exists s' pg',
    UnlinkPage p s = Some s' /\
    linked s' (<[r := l1 ++ l2]> L) /\
    pages s' !! p = Some pg' /\
    pPrevPage pg' = None /\ pNextPage pg' = None /\
    same_data (pages s) (pages s') /\
    scalars s' = scalars s /\ m_numPending s' = m_numPending s.
Proof.
  intros Hlk Hr. pose proof Hlk as [Hdll Hnd].
  pose proof (Hdll r) as Hd. rewrite Hr in Hd.
  apply dseg_mid in Hd as (pg & Hp & Hprev & Hnext & Hl1 & Hl2).
  pose proof (all_pages_NoDup L r Hnd) as Hndr. rewrite Hr in Hndr.
  pose proof Hndr as (Hnd1 & Hdisj & (Hpl2 & Hnd2)%NoDup_cons)%NoDup_app.
  assert (Hpl1 : p ∉ l1) by (intros H; apply (Hdisj p H); left).
  destruct (UnlinkPage_skip s L r l1 p l2 pg Hlk Hr Hp)
    as (s1 & Hs1 & Hseg1 & Hfr1 & Hhd1 & Hdat1 & Hsc1 & Hnp1).
  assert (Hp1 : pages s1 !! p = Some pg) by (rewrite Hfr1; done).
  (* the successor's back link *)
  assert (exists s2,
    update_if_page (pNextPage pg) (set_pPrevPage (pPrevPage pg)) s1 = Some s2 /\
    dseg (pages s2) (pPrevPage pg) (pNextPage pg) l2 None /\
    (forall q, q ∉ l2 -> pages s2 !! q = pages s1 !! q) /\
    (forall r', list_head r' s2 = list_head r' s1) /\
    same_data (pages s1) (pages s2) /\
    scalars s2 = scalars s1 /\ m_numPending s2 = m_numPending s1)
    as (s2 & Hs2 & Hseg2 & Hfr2 & Hhd2 & Hdat2 & Hsc2 & Hnp2).
  { assert (Hl2' : dseg (pages s1) (Some p) (pNextPage pg) l2 None).
    { rewrite Hnext. eapply dseg_frame; [|exact Hl2].
      intros q Hq. unfold links_at. rewrite Hfr1; [done|].
      intros Hq1. apply (Hdisj q Hq1). by right. }
    pose proof (dseg_set_prev _ _ _ (pPrevPage pg) _ _ Hnd2 Hl2') as Hset.
    destruct l2 as [|y l2'].
    - simpl in Hl2'. rewrite Hl2'. simpl. exists s1. done.
    - destruct Hset as (pgy & Hy & Hset).
      assert (Hnx : pNextPage pg = Some y) by (by destruct Hl2' as [? _]).
      exists (set_pages (<[y := set_pPrevPage (pPrevPage pg) pgy]> (pages s1)) s1).
      split; [rewrite Hnx; by apply update_page_Some|].
      split; [exact Hset|]. split.
      { intros q Hq. simpl. rewrite lookup_insert_ne; [done|]. intros ->.
        apply Hq. left. }
      split; [intros r'; apply list_head_set_pages|].
      split; [by apply (same_data_insert _ _ pgy)|done]. }
  assert (Hp2 : pages s2 !! p = Some pg) by (rewrite Hfr2; done).
  unfold UnlinkPage. rewrite Hp. simpl. rewrite Hs1. simpl.
  rewrite Hp1. simpl. rewrite Hs2. simpl.
  rewrite (update_page_Some _ _ _ _ Hp2).
  eexists _, _. split; [done|]. simpl. rewrite lookup_insert_eq.
  split; [|split; [done|]; split; [done|]; split; [done|]; split].
  - split.
    + intros r'. simpl. rewrite list_head_set_pages, Hhd2.
      destruct (decide (r' = r)) as [->|Hne].
      * rewrite fn_lookup_insert. apply dseg_app. exists (pNextPage pg). split.
        -- apply dseg_insert_notin; [done|].
           eapply dseg_frame; [|exact Hseg1].
           intros q Hq. unfold links_at. rewrite Hfr2; [done|].
           intros Hq2. apply (Hdisj q Hq). by right.
        -- apply dseg_insert_notin; [done|]. by rewrite <- Hprev.
      * rewrite fn_lookup_insert_ne by done. rewrite Hhd1 by done.
        assert (Hout : forall q, q ∈ L r' -> q ∉ l1 ++ p :: l2).
        { intros q Hq. rewrite <- Hr.
          by apply (all_pages_disjoint L r' r). }
        apply dseg_insert_notin.
        { intros Hq. apply (Hout p Hq), elem_of_app. right. left. }
        eapply dseg_frame; [|apply Hdll].
        intros q Hq. unfold links_at. rewrite Hfr2, Hfr1; [done| |].
        -- intros H1. apply (Hout q Hq), elem_of_app. by left.
        -- intros H2. apply (Hout q Hq), elem_of_app. right. by right.
    + eapply (NoDup_cons_1_2 p). rewrite <- all_pages_remove; done.
  - eapply same_data_trans; [|by apply (same_data_insert _ _ pg)].
    by eapply same_data_trans.
  - split; [change (scalars s2 = scalars s)|simpl]; congruence.
Qed.

End surgery.

Section linking.
Implicit Types (h : store) (l : list nat) (p : nat) (s : LinearAllocator)
  (L : PageList -> list nat) (r : PageList).

Lemma all_pages_app L r l :
  all_pages (<[r := l ++ L r]> L) ≡ₚ l ++ all_pages L.
Proof.
  unfold all_pages. destruct r;
    rewrite fn_lookup_insert, !fn_lookup_insert_ne by done.
  - by rewrite <- app_assoc.
  - rewrite !app_assoc.
    by rewrite (Permutation_app_comm (L unusedPages) l).
  - rewrite !app_assoc.
    rewrite (Permutation_app_comm (L unusedPages ++ L usedPages) l).
    by rewrite !app_assoc.
Qed.

(** The second statement of [LinkPage] and [LinkPageChain]: the old head
    gets its back link. *)
Lemma link_old_head s l hd x :
  NoDup l -> dll (pages s) hd l ->
  exists s',
    update_if_page hd (set_pPrevPage (Some x)) s = Some s' /\
    dseg (pages s') (Some x) hd l None /\
    (forall q, q ∉ l -> pages s' !! q = pages s !! q) /\
    (forall r', list_head r' s' = list_head r' s) /\
    same_data (pages s) (pages s') /\
    scalars s' = scalars s /\ m_numPending s' = m_numPending s.
Proof.
  intros Hnd Hd.
  pose proof (dseg_set_prev _ _ _ (Some x) _ _ Hnd Hd) as Hset.
  destruct l as [|y l].
  - unfold dll in Hd. simpl in Hd. subst hd. exists s. done.
  - destruct Hset as (pgy & Hy & Hset).
    assert (Hhd : hd = Some y) by (by destruct Hd as [? _]).
    exists (set_pages (<[y := set_pPrevPage (Some x) pgy]> (pages s)) s).
    split; [rewrite Hhd; by apply update_page_Some|].
    split; [exact Hset|]. split.
    { intros q Hq. simpl. rewrite lookup_insert_ne; [done|]. intros ->.
      apply Hq. left. }
    split; [intros r'; apply list_head_set_pages|].
    split; [by apply (same_data_insert _ _ pgy)|done].
Qed.

Lemma LinkPage_spec s L r p pg :
  linked s L -> p ∉ all_pages L ->
  pages s !! p = Some pg -> pPrevPage pg = None ->
  exists s',
    LinkPage p r s = Some s' /\
    linked s' (<[r := p :: L r]> L) /\
    same_data (pages s) (pages s') /\
    scalars s' = scalars s /\ m_numPending s' = m_numPending s.
Proof.
  intros [Hdll Hnd] Hp Hpg Hprev.
  assert (Hpr : forall r', p ∉ L r').
  { intros r' H. apply Hp, elem_of_all_pages. eauto. }
  set (s1 := set_pages (<[p := set_pNextPage (list_head r s) pg]> (pages s)) s).
  assert (Hd1 : dll (pages s1) (list_head r s1) (L r)).
  { unfold s1. rewrite list_head_set_pages. simpl.
    apply dseg_insert_notin; [apply Hpr|apply Hdll]. }
  destruct (link_old_head s1 (L r) (list_head r s1) p
              (all_pages_NoDup L r Hnd) Hd1)
    as (s2 & Hs2 & Hseg2 & Hfr2 & Hhd2 & Hdat2 & Hsc2 & Hnp2).
  unfold LinkPage. rewrite (update_page_Some _ _ _ _ Hpg). simpl.
  fold s1. rewrite Hs2. simpl.
  eexists. split; [done|]. split; [split|].
  - intros r'. rewrite pages_set_list_head.
    destruct (decide (r' = r)) as [->|Hne].
    + rewrite list_head_set_same, fn_lookup_insert. split; [done|].
      rewrite Hfr2 by apply Hpr. unfold s1 at 1. simpl.
      rewrite lookup_insert_eq. simpl. split; [done|].
      unfold s1 in Hseg2. by rewrite list_head_set_pages in Hseg2.
    + rewrite list_head_set_other, fn_lookup_insert_ne by done.
      rewrite Hhd2.
      replace (list_head r' s1) with (list_head r' s)
        by (symmetry; apply list_head_set_pages).
      eapply dseg_frame; [|apply Hdll].
      intros q Hq. unfold links_at. rewrite Hfr2.
      * unfold s1. simpl. rewrite lookup_insert_ne; [done|].
        intros ->. by apply (Hpr r').
      * by apply (all_pages_disjoint L r' r).
  - rewrite all_pages_cons. by apply NoDup_cons.
  - rewrite pages_set_list_head, scalars_set_list_head, numPending_set_list_head.
    split; [|split; [by rewrite Hsc2|by rewrite Hnp2]].
    eapply same_data_trans; [|exact Hdat2].
    by apply (same_data_insert _ _ pg).
Qed.

Lemma snoc_inv l : l = [] \/ exists l' x, l = l' ++ [x].
Proof. induction l as [|x l _] using rev_ind; eauto. Qed.

Lemma LinkPageChain_last_spec h l x pv c fuel :
  dseg h pv (Some c) (l ++ [x]) None -> (length (l ++ [x]) <= fuel)%nat ->
  LinkPageChain_last fuel h c = Some x.
Proof.
  revert pv c fuel. induction l as [|y l IH]; intros pv c fuel; simpl.
  - intros [Hc Hx] Hlen. injection Hc as ->.
    destruct fuel as [|fuel]; [lia|]. simpl.
    destruct (h !! x) as [pg|]; [|done]. simpl. destruct Hx as [_ ->]. done.
  - intros [Hc Hy] Hlen. injection Hc as ->.
    destruct fuel as [|fuel]; [lia|]. simpl.
    destruct (h !! y) as [pg|]; [|done]. destruct Hy as [_ Hrest]. simpl.
    pose proof (dseg_head _ _ _ _ _ Hrest) as Hn.
    assert (exists z, pNextPage pg = Some z) as [z Hz].
    { rewrite Hn. destruct l; simpl; eauto. }
    rewrite Hz. rewrite Hz in Hrest.
    eapply IH; [exact Hrest|]. simpl in Hlen. lia.
Qed.

Lemma LinkPageChain_spec s L r c lc :
  linked s L -> lc <> [] -> dll (pages s) (Some c) lc -> NoDup lc ->
  (forall q, q ∈ lc -> q ∉ all_pages L) ->
  exists s',
    LinkPageChain c r s = Some s' /\
    linked s' (<[r := lc ++ L r]> L) /\
    same_data (pages s) (pages s') /\
    scalars s' = scalars s /\ m_numPending s' = m_numPending s.
Proof.
  intros [Hdll Hnd] Hne Hc Hndc Hdisj.
  destruct (snoc_inv lc) as [->|(lc0 & x0 & ->)]; [done|]. clear Hne.
  assert (Hout : forall r' q, q ∈ L r' -> q ∉ lc0 ++ [x0]).
  { intros r' q Hq Hq'. apply (Hdisj q Hq'), elem_of_all_pages. eauto. }
  assert (Hlen : (length (lc0 ++ [x0]) <= chain_fuel s)%nat).
  { unfold chain_fuel. etrans; [apply (NoDup_length_le_size (pages s))|lia].
    - done.
    - intros q Hq. eapply dseg_live; [exact Hc|done]. }
  destruct (dseg_set_next _ _ _ _ _ _ (list_head r s) Hndc Hc)
    as (pgx & Hx & Hc1).
  set (s1 := set_pages (<[x0 := set_pNextPage (list_head r s) pgx]> (pages s)) s).
  assert (Hd1 : dll (pages s1) (list_head r s1) (L r)).
  { unfold s1. rewrite list_head_set_pages. simpl.
    apply dseg_insert_notin; [|apply Hdll].
    intros Hq. apply (Hout r x0 Hq), elem_of_app. right. left. }
  destruct (link_old_head s1 (L r) (list_head r s1) x0
              (all_pages_NoDup L r Hnd) Hd1)
    as (s2 & Hs2 & Hseg2 & Hfr2 & Hhd2 & Hdat2 & Hsc2 & Hnp2).
  unfold LinkPageChain.
  rewrite (LinkPageChain_last_spec _ _ _ _ _ _ Hc Hlen). simpl.
  rewrite (update_page_Some _ _ _ _ Hx). simpl. fold s1. rewrite Hs2. simpl.
  eexists. split; [done|]. split; [split|].
  - intros r'. rewrite pages_set_list_head.
    destruct (decide (r' = r)) as [->|Hner].
    + rewrite list_head_set_same, fn_lookup_insert. apply dseg_app.
      exists (list_head r s). split.
      * eapply dseg_frame; [|exact Hc1].
        intros q Hq. unfold links_at. rewrite Hfr2; [done|].
        intros Hq'. by apply (Hout r q).
      * unfold last_or. rewrite last_snoc.
        unfold s1 in Hseg2. by rewrite list_head_set_pages in Hseg2.
    + rewrite list_head_set_other, fn_lookup_insert_ne by done.
      rewrite Hhd2.
      replace (list_head r' s1) with (list_head r' s)
        by (symmetry; apply list_head_set_pages).
      eapply dseg_frame; [|apply Hdll].
      intros q Hq. unfold links_at. rewrite Hfr2.
      * unfold s1. simpl. rewrite lookup_insert_ne; [done|].
        intros <-. apply (Hout r' x0 Hq), elem_of_app. right. left.
      * by apply (all_pages_disjoint L r' r).
  - rewrite all_pages_app. apply NoDup_app. done.
  - rewrite pages_set_list_head, scalars_set_list_head, numPending_set_list_head.
    split; [|split; [by rewrite Hsc2|by rewrite Hnp2]].
    eapply same_data_trans; [|exact Hdat2].
    by apply (same_data_insert _ _ pgx).
Qed.

End linking.

(** * Retiring pages *)

Section retire.
Implicit Types (h : store) (l : list nat) (p : nat) (s : LinearAllocator)
  (L : PageList -> list nat) (r : PageList).

Lemma linked_insert_links s L p pg pg' :
  linked s L -> pages s !! p = Some pg ->
  pPrevPage pg' = pPrevPage pg -> pNextPage pg' = pNextPage pg ->
  linked (set_pages (<[p := pg']> (pages s)) s) L.
Proof.
  intros [Hdll Hnd] Hp Hpv Hnx. split; [|done].
  intros r. rewrite list_head_set_pages. simpl.
  eapply dseg_frame; [|apply Hdll]. intros q _. unfold links_at.
  destruct (decide (p = q)) as [->|Hne].
  - rewrite lookup_insert_eq, Hp. simpl. by rewrite Hpv, Hnx.
  - by rewrite lookup_insert_ne.
Qed.

Lemma linked_live s L r p : linked s L -> p ∈ L r -> is_Some (pages s !! p).
Proof. intros [Hdll _] Hp. eapply dseg_live; [apply Hdll|done]. Qed.

Lemma ReleasePage_spec s L r l1 p l2 :
  linked s L -> L r = l1 ++ p :: l2 ->
  let L' := <[r := l1 ++ l2]> L in
  exists s',
    ReleasePage p s = Some s' /\
    linked s' (<[unusedPages := p :: L' unusedPages]> L') /\
    (forall q, data_at (pages s') q =
               if decide (q = p) then reset_offset <$> data_at (pages s) q
               else data_at (pages s) q) /\
    scalars s' = scalars s.
Proof.
  intros Hlk Hr L'. unfold ReleasePage.
  set (s0 := set_numPending (size_t (m_numPending s - 1)) s).
  assert (Hlk0 : linked s0 L) by (destruct Hlk; by split).
  destruct (UnlinkPage_spec s0 L r l1 p l2 Hlk0 Hr)
    as (s1 & pg1 & Hs1 & Hlk1 & Hp1 & Hpv1 & Hnx1 & Hdat1 & Hsc1 & _).
  fold L' in Hlk1.
  assert (HpL' : p ∉ all_pages L').
  { pose proof (all_pages_remove L r l1 p l2 Hr) as Hperm. fold L' in Hperm.
    destruct Hlk as [_ Hnd]. rewrite Hperm in Hnd.
    by apply NoDup_cons in Hnd as [? _]. }
  destruct (LinkPage_spec s1 L' unusedPages p pg1 Hlk1 HpL' Hp1 Hpv1)
    as (s2 & Hs2 & Hlk2 & Hdat2 & Hsc2 & _).
  rewrite Hs1. simpl. rewrite Hs2. simpl.
  assert (is_Some (pages s2 !! p)) as [pg2 Hp2].
  { eapply (linked_live s2 _ unusedPages); [exact Hlk2|].
    rewrite fn_lookup_insert. left. }
  rewrite (update_page_Some _ _ _ _ Hp2).
  eexists. split; [done|]. split; [|split].
  - by apply (linked_insert_links _ _ _ pg2).
  - intros q. simpl. unfold data_at at 1.
    pose proof (Hdat2 q) as H2. pose proof (Hdat1 q) as H1.
    change (pages s0) with (pages s) in H1.
    destruct (decide (q = p)) as [->|Hne].
    + rewrite lookup_insert_eq. simpl.
      rewrite <- H1, <- H2. unfold data_at. rewrite Hp2. done.
    + rewrite lookup_insert_ne by done. fold (data_at (pages s2) q). congruence.
  - change (scalars s2 = scalars s). rewrite Hsc2, Hsc1. done.
Qed.

Lemma fence_passed_reset completed h h' q :
  data_at h' q = data_at h q \/ data_at h' q = reset_offset <$> data_at h q ->
  fence_passed completed h' q = fence_passed completed h q.
Proof.
  unfold fence_passed, data_at, page_data.
  destruct (h !! q) as [[]|], (h' !! q) as [[]|]; simpl;
    intros [H|H]; try done; injection H; intros; by subst.
Qed.

Lemma RetirePendingPages_loop_spec completed rest :
  forall kept fuel s L,
    linked s L -> L pendingPages = kept ++ rest -> (length rest <= fuel)%nat ->
    exists s' L',
      RetirePendingPages_loop fuel completed (head_or None rest) s = Some s' /\
      linked s' L' /\
      L' pendingPages =
        kept ++ filter (fun q => ~ fence_passed completed (pages s) q) rest /\
      L' unusedPages =
        reverse (filter (fun q => fence_passed completed (pages s) q) rest)
          ++ L unusedPages /\
      L' usedPages = L usedPages /\
      (forall q, data_at (pages s') q =
         if decide (q ∈ rest /\ fence_passed completed (pages s) q)
         then reset_offset <$> data_at (pages s) q
         else data_at (pages s) q) /\
      scalars s' = scalars s.
Proof.
  induction rest as [|p rest IH]; intros kept fuel s L Hlk Hpend Hlen.
  - exists s, L. split; [by destruct fuel|]. split; [done|].
    split; [by rewrite Hpend|]. split; [done|]. split; [done|].
    split; [|done]. intros q. rewrite decide_False; [done|].
    intros [H _]. by apply elem_of_nil in H.
  - destruct fuel as [|fuel]; [simpl in Hlen; lia|].
    pose proof Hlk as [Hdll Hnd].
    pose proof (Hdll pendingPages) as Hd. rewrite Hpend in Hd.
    apply dseg_mid in Hd as (pg & Hp & _ & Hnext & _ & _).
    pose proof (all_pages_NoDup L pendingPages Hnd) as Hndp.
    rewrite Hpend in Hndp.
    apply NoDup_app in Hndp as (_ & _ & (Hprest & _)%NoDup_cons).
    assert (Htest : (mPendingFence pg <=? completed p)
                    = fence_passed completed (pages s) p).
    { unfold fence_passed. by rewrite Hp. }
    simpl. rewrite Hp. simpl. rewrite Htest, Hnext.
    destruct (fence_passed completed (pages s) p) eqn:Hpass.
    + destruct (ReleasePage_spec s L pendingPages kept p rest Hlk Hpend)
        as (s1 & Hs1 & Hlk1 & Hdat1 & Hsc1).
      rewrite Hs1. simpl.
      set (L0 := <[pendingPages := kept ++ rest]> L) in *.
      set (L1 := <[unusedPages := p :: L0 unusedPages]> L0) in *.
      assert (Hpend1 : L1 pendingPages = kept ++ rest).
      { unfold L1, L0. by rewrite fn_lookup_insert_ne, fn_lookup_insert. }
      destruct (IH kept fuel s1 L1 Hlk1 Hpend1 ltac:(simpl in Hlen; lia))
        as (s' & L' & Hs' & Hlk' & Hp' & Hu' & Hus' & Hdat' & Hsc').
      assert (Hsame : forall q, fence_passed completed (pages s1) q
                                = fence_passed completed (pages s) q).
      { intros q. apply fence_passed_reset. rewrite Hdat1.
        destruct (decide (q = p)); auto. }
      exists s', L'. split; [done|]. split; [done|].
      split; [|split; [|split; [|split]]].
      * rewrite Hp', filter_cons_False by (rewrite Hpass; auto).
        f_equal. apply list_filter_iff. intros q. by rewrite Hsame.
      * rewrite Hu', filter_cons_True by (by rewrite Hpass).
        rewrite reverse_cons, <- app_assoc. simpl.
        unfold L1 at 1. rewrite fn_lookup_insert. unfold L0.
        rewrite fn_lookup_insert_ne by done.
        do 2 f_equal. apply list_filter_iff. intros q. by rewrite Hsame.
      * rewrite Hus'. unfold L1, L0. by rewrite !fn_lookup_insert_ne.
      * intros q. rewrite Hdat', Hdat1, Hsame.
        destruct (decide (q = p)) as [->|Hne].
        -- rewrite decide_False by (intros [H _]; done).
           rewrite decide_True; [done|]. split; [left|by rewrite Hpass].
        -- destruct (decide (q ∈ rest /\ fence_passed completed (pages s) q))
             as [[H1 H2]|Hn].
           ++ rewrite decide_True; [done|]. split; [by right|done].
           ++ rewrite decide_False; [done|]. intros [H1 H2]. apply Hn.
              split; [|done]. by apply elem_of_cons in H1 as [?|?].
      * by rewrite Hsc', Hsc1.
    + assert (Hpend1 : L pendingPages = (kept ++ [p]) ++ rest).
      { by rewrite Hpend, <- app_assoc. }
      destruct (IH (kept ++ [p]) fuel s L Hlk Hpend1 ltac:(simpl in Hlen; lia))
        as (s' & L' & Hs' & Hlk' & Hp' & Hu' & Hus' & Hdat' & Hsc').
      exists s', L'. split; [done|]. split; [done|].
      split; [|split; [|split; [|split]]]; try done.
      * rewrite Hp', filter_cons_True by (rewrite Hpass; auto).
        by rewrite <- app_assoc.
      * rewrite Hu', filter_cons_False by (rewrite Hpass; auto). done.
      * intros q. rewrite Hdat'.
        destruct (decide (q ∈ rest /\ fence_passed completed (pages s) q))
          as [[H1 H2]|Hn].
        -- rewrite decide_True; [done|]. split; [by right|done].
        -- rewrite decide_False; [done|]. intros [H1 H2]. apply Hn.
           split; [|done]. apply elem_of_cons in H1 as [->|?]; [|done].
           by rewrite Hpass in H2.
Qed.

End retire.

(** * Fencing the committed pages *)

Section fence.
Implicit Types (h : store) (l : list nat) (p : nat) (s : LinearAllocator)
  (L : PageList -> list nat) (r : PageList).

Lemma page_ready_bump h h' q :
  data_at h' q = data_at h q \/ data_at h' q = bump_fence <$> data_at h q ->
  page_ready h' q = page_ready h q.
Proof.
  unfold page_ready, data_at, page_data.
  destruct (h !! q) as [[]|], (h' !! q) as [[]|]; simpl;
    intros [H|H]; try done; injection H; intros; by subst.
Qed.

Lemma fence_at_same h h' q :
  data_at h' q = data_at h q -> fence_at h' q = fence_at h q.
Proof.
  unfold fence_at, data_at, page_data.
  destruct (h !! q) as [[]|], (h' !! q) as [[]|]; simpl;
    intros H; try done; injection H; intros; by subst.
Qed.

(** A page whose links are already set is put in front of a chain. *)
Lemma push_front_chain s p pg chain cl :
  pages s !! p = Some pg -> pPrevPage pg = None -> pNextPage pg = chain ->
  dll (pages s) chain cl -> NoDup cl -> p ∉ cl ->
  exists s',
    update_if_page chain (set_pPrevPage (Some p)) s = Some s' /\
    dll (pages s') (Some p) (p :: cl) /\
    (forall q, q ∉ cl -> pages s' !! q = pages s !! q) /\
    (forall r', list_head r' s' = list_head r' s) /\
    same_data (pages s) (pages s') /\
    scalars s' = scalars s /\ m_numPending s' = m_numPending s.
Proof.
  intros Hp Hpv Hnx Hd Hnd Hpcl.
  destruct (link_old_head s cl chain p Hnd Hd)
    as (s' & Hs' & Hseg & Hfr & Hhd & Hdat & Hsc & Hnp).
  exists s'. split; [done|]. split; [|done].
  split; [done|]. rewrite Hfr, Hp by done. by rewrite Hnx.
Qed.

(** The loop of [FenceCommittedPages]; [numReady] is counted in [UINT]. *)
Lemma FenceCommittedPages_loop_wrap rest :
  forall fuel s pv cur numReady ready unready rl ul,
    (length rest <= fuel)%nat ->
    0 <= numReady < 2 ^ 32 ->
    dseg (pages s) pv cur rest None ->
    dll (pages s) ready rl -> dll (pages s) unready ul ->
    NoDup (rest ++ rl ++ ul) ->
    exists s' ready' unready',
      FenceCommittedPages_loop fuel cur numReady ready unready s =
        Some (UINT (numReady
                + Z.of_nat (length (filter (fun q => page_ready (pages s) q) rest))),
              ready', unready', s') /\
      dll (pages s') ready'
        (reverse (filter (fun q => page_ready (pages s) q) rest) ++ rl) /\
      dll (pages s') unready'
        (reverse (filter (fun q => ~ page_ready (pages s) q) rest) ++ ul) /\
      (forall q, q ∉ rest ++ rl ++ ul -> pages s' !! q = pages s !! q) /\
      (forall q, data_at (pages s') q =
         if decide (q ∈ rest /\ page_ready (pages s) q)
         then bump_fence <$> data_at (pages s) q
         else data_at (pages s) q) /\
      signals s' =
        signals s ++
        map (fun q => (q, UINT64 (fence_at (pages s) q + 1)))
            (filter (fun q => page_ready (pages s) q) rest) /\
      (forall r', list_head r' s' = list_head r' s) /\
      counters s' = counters s.
Proof.
  induction rest as [|p rest IH];
    intros fuel s pv cur numReady ready unready rl ul Hlen Hn0 Hrest Hrl Hul Hnd.
  - simpl in Hrest. subst cur. exists s, ready, unready.
    split; [destruct fuel; simpl; do 4 f_equal; unfold UINT;
            rewrite Z.add_0_r, Z.mod_small; lia|].
    split; [done|]. split; [done|]. split; [done|].
    split; [|split; [by rewrite app_nil_r|done]].
    intros q. rewrite decide_False; [done|].
    intros [H _]. by apply elem_of_nil in H.
  - destruct fuel as [|fuel]; [simpl in Hlen; lia|].
    destruct Hrest as [-> Hp].
    destruct (pages s !! p) as [pg|] eqn:Epg; [|done].
    destruct Hp as [Hpv Hrest].
    apply NoDup_cons in Hnd as [Hp_out Hnd].
    assert (Hp_rest : p ∉ rest) by (intros H; apply Hp_out, elem_of_app; auto).
    assert (Hp_rl : p ∉ rl).
    { intros H. apply Hp_out. rewrite !elem_of_app. auto. }
    assert (Hp_ul : p ∉ ul).
    { intros H. apply Hp_out. rewrite !elem_of_app. auto. }
    pose proof Hnd as (Hnd_rest & Hdisj1 & (Hnd_rl & Hdisj2 & Hnd_ul)%NoDup_app)%NoDup_app.
    assert (Htest : (mRefCount pg =? 0) = page_ready (pages s) p).
    { unfold page_ready. by rewrite Epg. }
    simpl FenceCommittedPages_loop. rewrite Epg. simpl.
    rewrite (update_page_Some _ _ _ _ Epg). simpl.
    rewrite lookup_insert_eq. simpl. rewrite Htest.
    destruct (page_ready (pages s) p) eqn:Hready.
    + (* ready *)
      erewrite update_page_Some by (simpl; apply lookup_insert_eq). simpl.
      rewrite lookup_insert_eq. simpl.
      erewrite update_page_Some by (simpl; apply lookup_insert_eq). simpl.
      rewrite !insert_insert_eq.
      match goal with |- context [update_if_page ready _ ?x] => set (s4 := x) end.
      set (pg4 := Page None ready (UINT64 (mPendingFence pg + 1)) (mOffset pg)
                    (mSize pg) (mRefCount pg)).
      assert (Hp4 : pages s4 !! p = Some pg4) by apply lookup_insert_eq.
      assert (Hfr4 : forall q, q <> p -> pages s4 !! q = pages s !! q).
      { intros q Hq. unfold s4. simpl. by rewrite lookup_insert_ne. }
      assert (Hrl4 : dll (pages s4) ready rl).
      { by apply dseg_insert_notin. }
      destruct (push_front_chain s4 p pg4 ready rl Hp4 eq_refl eq_refl
                  Hrl4 Hnd_rl Hp_rl)
        as (s5 & Hs5 & Hrl5 & Hfr5 & Hhd5 & Hdat5 & Hsc5 & Hnp5).
      rewrite Hs5. simpl.
      assert (Hfr : forall q, q <> p -> q ∉ rl -> pages s5 !! q = pages s !! q).
      { intros q Hq1 Hq2. by rewrite Hfr5, Hfr4. }
      assert (Hdat : forall q, data_at (pages s5) q =
                 if decide (q = p) then bump_fence <$> data_at (pages s) q
                 else data_at (pages s) q).
      { intros q. rewrite Hdat5. unfold data_at.
        destruct (decide (q = p)) as [->|Hne].
        - rewrite Hp4, Epg. done.
        - by rewrite Hfr4. }
      assert (Hrest5 : dseg (pages s5) (Some p) (pNextPage pg) rest None).
      { eapply dseg_frame; [|exact Hrest]. intros q Hq. unfold links_at.
        rewrite Hfr; [done| |].
        - intros ->. done.
        - intros Hq'. apply (Hdisj1 q Hq), elem_of_app. by left. }
      assert (Hul5 : dll (pages s5) unready ul).
      { eapply dseg_frame; [|exact Hul]. intros q Hq. unfold links_at.
        rewrite Hfr; [done| |].
        - intros ->. done.
        - intros Hq'. by apply (Hdisj2 q Hq'). }
      assert (Hnd5 : NoDup (rest ++ (p :: rl) ++ ul)).
      { simpl. rewrite <- Permutation_middle. by apply NoDup_cons. }
      assert (Hsame : forall q, page_ready (pages s5) q = page_ready (pages s) q).
      { intros q. apply page_ready_bump. rewrite Hdat.
        destruct (decide (q = p)); auto. }
      assert (Hn1 : 0 <= UINT (numReady + 1) < 2 ^ 32)
        by (unfold UINT; apply Z.mod_pos_bound; lia).
      destruct (IH fuel s5 (Some p) (pNextPage pg) (UINT (numReady + 1)) (Some p)
                  unready (p :: rl) ul ltac:(simpl in Hlen; lia) Hn1
                  Hrest5 Hrl5 Hul5 Hnd5)
        as (s' & ready' & unready' & Hs' & Hrl' & Hul' & Hfr' & Hdat' & Hsig' & Hhd' & Hcnt').
      assert (Hf1 : filter (fun q => page_ready (pages s5) q) rest
                    = filter (fun q => page_ready (pages s) q) rest).
      { apply list_filter_iff. intros q. by rewrite Hsame. }
      assert (Hf2 : filter (fun q => ~ page_ready (pages s5) q) rest
                    = filter (fun q => ~ page_ready (pages s) q) rest).
      { apply list_filter_iff. intros q. by rewrite Hsame. }
      rewrite Hf1 in *. rewrite Hf2 in *.
      exists s', ready', unready'.
      rewrite filter_cons_True by (by rewrite Hready).
      rewrite filter_cons_False by (rewrite Hready; auto).
      split.
      { rewrite Hs'. do 4 f_equal. unfold UINT. rewrite Zplus_mod_idemp_l.
        f_equal. simpl length. lia. }
      split; [by rewrite reverse_cons, <- app_assoc|].
      split; [done|]. split; [|split; [|split; [|split]]].
      * intros q Hq. rewrite Hfr'.
        -- apply Hfr.
           ++ intros ->. apply Hq. left.
           ++ intros H. apply Hq. right. rewrite !elem_of_app. auto.
        -- intros H. apply Hq. rewrite !elem_of_app, elem_of_cons in H.
           rewrite elem_of_cons, !elem_of_app. tauto.
      * intros q. rewrite Hdat', Hdat, Hsame.
        destruct (decide (q = p)) as [->|Hne].
        -- rewrite decide_False by (intros [H _]; done).
           rewrite decide_True; [done|]. split; [left|by rewrite Hready].
        -- destruct (decide (q ∈ rest /\ page_ready (pages s) q))
             as [[H1 H2]|Hneg].
           ++ rewrite decide_True; [done|]. split; [by right|done].
           ++ rewrite decide_False; [done|]. intros [H1 H2]. apply Hneg.
              split; [|done]. by apply elem_of_cons in H1 as [?|?].
      * rewrite Hsig'. simpl map.
        replace (signals s5)
          with (signals s ++ [(p, UINT64 (mPendingFence pg + 1))]).
        2:{ unfold scalars in Hsc5. simpl in Hsc5. congruence. }
        rewrite <- app_assoc. simpl. do 2 f_equal.
        -- unfold fence_at. by rewrite Epg.
        -- apply map_ext_in. intros q Hq. do 3 f_equal.
           apply fence_at_same. rewrite Hdat. rewrite decide_False; [done|].
           intros ->. apply Hp_rest.
           apply list_elem_of_In, list_elem_of_filter in Hq. tauto.
      * intros r'. rewrite Hhd', Hhd5. by destruct r'.
      * rewrite Hcnt'. unfold counters. unfold scalars in Hsc5. simpl in Hsc5.
        rewrite Hnp5. simpl. congruence.
    + (* not ready *)
      erewrite update_page_Some by (simpl; apply lookup_insert_eq). simpl.
      rewrite !insert_insert_eq.
      match goal with |- context [update_if_page unready _ ?x] => set (s4 := x) end.
      set (pg4 := Page None unready (mPendingFence pg) (mOffset pg)
                    (mSize pg) (mRefCount pg)).
      assert (Hp4 : pages s4 !! p = Some pg4) by apply lookup_insert_eq.
      assert (Hfr4 : forall q, q <> p -> pages s4 !! q = pages s !! q).
      { intros q Hq. unfold s4. simpl. by rewrite lookup_insert_ne. }
      assert (Hul4 : dll (pages s4) unready ul).
      { by apply dseg_insert_notin. }
      destruct (push_front_chain s4 p pg4 unready ul Hp4 eq_refl eq_refl
                  Hul4 Hnd_ul Hp_ul)
        as (s5 & Hs5 & Hul5 & Hfr5 & Hhd5 & Hdat5 & Hsc5 & Hnp5).
      rewrite Hs5. simpl.
      assert (Hfr : forall q, q <> p -> q ∉ ul -> pages s5 !! q = pages s !! q).
      { intros q Hq1 Hq2. by rewrite Hfr5, Hfr4. }
      assert (Hdat : forall q, data_at (pages s5) q = data_at (pages s) q).
      { intros q. rewrite Hdat5. unfold data_at.
        destruct (decide (q = p)) as [->|Hne].
        - rewrite Hp4, Epg. done.
        - by rewrite Hfr4. }
      assert (Hrest5 : dseg (pages s5) (Some p) (pNextPage pg) rest None).
      { eapply dseg_frame; [|exact Hrest]. intros q Hq. unfold links_at.
        rewrite Hfr; [done| |].
        - intros ->. done.
        - intros Hq'. apply (Hdisj1 q Hq), elem_of_app. by right. }
      assert (Hrl5 : dll (pages s5) ready rl).
      { eapply dseg_frame; [|exact Hrl]. intros q Hq. unfold links_at.
        rewrite Hfr; [done| |].
        - intros ->. done.
        - intros Hq'. by apply (Hdisj2 q Hq). }
      assert (Hnd5 : NoDup (rest ++ rl ++ p :: ul)).
      { rewrite app_assoc, <- Permutation_middle, <- app_assoc.
        by apply NoDup_cons. }
      assert (Hsame : forall q, page_ready (pages s5) q = page_ready (pages s) q).
      { intros q. apply page_ready_bump. rewrite Hdat. auto. }
      destruct (IH fuel s5 (Some p) (pNextPage pg) numReady ready
                  (Some p) rl (p :: ul) ltac:(simpl in Hlen; lia) Hn0
                  Hrest5 Hrl5 Hul5 Hnd5)
        as (s' & ready' & unready' & Hs' & Hrl' & Hul' & Hfr' & Hdat' & Hsig' & Hhd' & Hcnt').
      assert (Hf1 : filter (fun q => page_ready (pages s5) q) rest
                    = filter (fun q => page_ready (pages s) q) rest).
      { apply list_filter_iff. intros q. by rewrite Hsame. }
      assert (Hf2 : filter (fun q => ~ page_ready (pages s5) q) rest
                    = filter (fun q => ~ page_ready (pages s) q) rest).
      { apply list_filter_iff. intros q. by rewrite Hsame. }
      rewrite Hf1 in *. rewrite Hf2 in *.
      exists s', ready', unready'.
      rewrite filter_cons_False by (rewrite Hready; auto).
      rewrite filter_cons_True by (rewrite Hready; auto).
      split; [done|]. split; [done|].
      split; [by rewrite reverse_cons, <- app_assoc|].
      split; [|split; [|split; [|split]]].
      * intros q Hq. rewrite Hfr'.
        -- apply Hfr.
           ++ intros ->. apply Hq. left.
           ++ intros H. apply Hq. right. rewrite !elem_of_app. auto.
        -- intros H. apply Hq. rewrite !elem_of_app, elem_of_cons in H.
           rewrite elem_of_cons, !elem_of_app. tauto.
      * intros q. rewrite Hdat', Hdat, Hsame.
        destruct (decide (q ∈ rest /\ page_ready (pages s) q))
          as [[H1 H2]|Hneg].
        -- rewrite decide_True; [done|]. split; [by right|done].
        -- rewrite decide_False; [done|]. intros [H1 H2]. apply Hneg.
           split; [|done]. apply elem_of_cons in H1 as [->|?]; [|done].
           by rewrite Hready in H2.
      * rewrite Hsig'.
        replace (signals s5) with (signals s).
        2:{ unfold scalars in Hsc5. simpl in Hsc5. congruence. }
        f_equal. apply map_ext_in. intros q Hq. do 3 f_equal.
        apply fence_at_same, Hdat.
      * intros r'. rewrite Hhd', Hhd5. by destruct r'.
      * rewrite Hcnt'. unfold counters. unfold scalars in Hsc5. simpl in Hsc5.
        rewrite Hnp5. simpl. congruence.
Qed.

Lemma FenceCommittedPages_loop_spec rest :
  forall fuel s pv cur numReady ready unready rl ul,
    (length rest <= fuel)%nat ->
    0 <= numReady -> numReady + Z.of_nat (length rest) < 2 ^ 32 ->
    dseg (pages s) pv cur rest None ->
    dll (pages s) ready rl -> dll (pages s) unready ul ->
    NoDup (rest ++ rl ++ ul) ->
    exists s' ready' unready',
      FenceCommittedPages_loop fuel cur numReady ready unready s =
        Some (numReady
                + Z.of_nat (length (filter (fun q => page_ready (pages s) q) rest)),
              ready', unready', s') /\
      dll (pages s') ready'
        (reverse (filter (fun q => page_ready (pages s) q) rest) ++ rl) /\
      dll (pages s') unready'
        (reverse (filter (fun q => ~ page_ready (pages s) q) rest) ++ ul) /\
      (forall q, q ∉ rest ++ rl ++ ul -> pages s' !! q = pages s !! q) /\
      (forall q, data_at (pages s') q =
         if decide (q ∈ rest /\ page_ready (pages s) q)
         then bump_fence <$> data_at (pages s) q
         else data_at (pages s) q) /\
      signals s' =
        signals s ++
        map (fun q => (q, UINT64 (fence_at (pages s) q + 1)))
            (filter (fun q => page_ready (pages s) q) rest) /\
      (forall r', list_head r' s' = list_head r' s) /\
      counters s' = counters s.
Proof.
  intros fuel s pv cur numReady ready unready rl ul Hlen Hn0 Hn Hrest Hrl Hul Hnd.
  destruct (FenceCommittedPages_loop_wrap rest fuel s pv cur numReady ready
              unready rl ul Hlen) as (s' & ready' & unready' & Hs' & H);
    try done.
  { lia. }
  exists s', ready', unready'. split; [|exact H].
  rewrite Hs'. do 4 f_equal. unfold UINT. apply Z.mod_small.
  pose proof (length_filter (fun q => page_ready (pages s) q) rest). lia.
Qed.

End fence.

(** * The invariant of the allocator *)

Section invariant.
Implicit Types (h : store) (l : list nat) (p : nat) (s : LinearAllocator)
  (L : PageList -> list nat) (r : PageList).

Lemma linked_length s L r : linked s L -> (length (L r) <= size (pages s))%nat.
Proof.
  intros Hlk. apply NoDup_length_le_size.
  - apply all_pages_NoDup. apply Hlk.
  - intros p Hp. by apply (linked_live s L r).
Qed.

Lemma linked_page_list s L r : linked s L -> page_list r s = L r.
Proof.
  intros Hlk. unfold page_list. apply dll_walk; [apply Hlk|].
  pose proof (linked_length s L r Hlk). unfold chain_fuel. lia.
Qed.

Lemma page_ok_data increment pg :
  page_ok increment pg <-> data_ok increment (page_data pg).
Proof. done. Qed.

Lemma inv_wf s L : inv s L -> wf s /\ forall r, page_list r s = L r.
Proof.
  intros [Hlk Hdom Hok Hclean Hinc Hroom Htot Hcr].
  assert (HL : forall r, page_list r s = L r)
    by (intros r; by apply linked_page_list).
  assert (Hall : all_pages (fun r => page_list r s) = all_pages L).
  { unfold all_pages. by rewrite !HL. }
  split; [|done]. split; try done.
  - unfold unused_list. rewrite HL. exact (linked_dll _ _ Hlk unusedPages).
  - unfold used_list. rewrite HL. exact (linked_dll _ _ Hlk usedPages).
  - unfold pending_list. rewrite HL. exact (linked_dll _ _ Hlk pendingPages).
  - rewrite Hall. apply Hlk.
  - rewrite Hall. apply set_eq. intros p.
    rewrite elem_of_dom, elem_of_list_to_set. apply Hdom.
  - intros p pg Hp. apply page_ok_data. apply (Hok p).
    unfold data_at. by rewrite Hp.
  - unfold unused_list. rewrite HL. apply Forall_forall. intros p Hp.
    destruct (proj2 (Hdom p)) as [pg Hpg].
    { apply elem_of_all_pages. eauto. }
    rewrite Hpg. simpl. f_equal.
    apply (Hclean p (page_data pg) Hp). unfold data_at. by rewrite Hpg.
Qed.

Lemma wf_inv s : wf s -> inv s (fun r => page_list r s).
Proof.
  intros [Hu Hus Hp Hnd Hdom Hok Hclean Hinc Hroom Htot Hcr].
  split; try done.
  - split; [|done]. intros []; done.
  - intros p. rewrite <- elem_of_dom, Hdom. apply elem_of_list_to_set.
  - intros p d Hd. unfold data_at in Hd.
    destruct (pages s !! p) as [pg|] eqn:E; [|done].
    injection Hd as <-. apply page_ok_data. by apply (Hok p).
  - intros p d Hpu Hd. unfold data_at in Hd.
    rewrite Forall_forall in Hclean. specialize (Hclean p Hpu).
    destruct (pages s !! p) as [pg|] eqn:E; [|done].
    injection Hd as <-. simpl in Hclean. by injection Hclean.
Qed.

End invariant.

(** * The operations on well-formed allocators *)

Section operations.
Implicit Types (h : store) (l : list nat) (p : nat) (s : LinearAllocator)
  (L : PageList -> list nat) (r : PageList).

Lemma linked_ext s L L' : (forall r, L r = L' r) -> linked s L -> linked s L'.
Proof.
  intros HL [Hdll Hnd]. split.
  - intros r. rewrite <- HL. apply Hdll.
  - unfold all_pages in *. by rewrite <- !HL.
Qed.

Lemma inv_ext s L L' : (forall r, L r = L' r) -> inv s L -> inv s L'.
Proof.
  intros HL [Hlk Hdom Hok Hclean Hinc Hroom Htot Hcr].
  assert (Hall : all_pages L' = all_pages L).
  { unfold all_pages. by rewrite <- !HL. }
  split; try done.
  - by apply (linked_ext s L).
  - intros p. by rewrite Hall.
  - intros p d. rewrite <- HL. apply Hclean.
Qed.

Lemma mkL_eta L : forall r, L r = mkL (L unusedPages) (L usedPages) (L pendingPages) r.
Proof. by intros []. Qed.

Lemma dom_same_size h h' :
  (forall q, is_Some (h' !! q) <-> is_Some (h !! q)) -> size h' = size h.
Proof.
  intros H. rewrite <- !size_dom. f_equal. apply set_eq. intros q.
  by rewrite !elem_of_dom.
Qed.

Lemma data_at_is_Some h q : is_Some (data_at h q) <-> is_Some (h !! q).
Proof. unfold data_at. by rewrite fmap_is_Some. Qed.

Lemma dll_None_nil h l : dll h None l -> l = [].
Proof. destruct l; [done|]. by intros [? _]. Qed.

Lemma elem_of_split_filter (P : nat -> Prop) `{!forall x, Decision (P x)} l l0 q :
  q ∈ reverse (filter P l) ++ l0 \/ q ∈ filter (fun x => ~ P x) l
  <-> q ∈ l0 \/ q ∈ l.
Proof.
  rewrite elem_of_app, elem_of_reverse, !list_elem_of_filter.
  destruct (decide (P q)); tauto.
Qed.

Lemma data_ok_reset increment d :
  data_ok increment d -> data_ok increment (reset_offset d).
Proof.
  destruct d as [[[f o] sz] rc]. unfold data_ok, d_size, d_fence, d_offset.
  simpl. intros (? & ? & ?). repeat split; try done; lia.
Qed.

Lemma data_ok_bump increment d :
  data_ok increment d -> data_ok increment (bump_fence d).
Proof.
  destruct d as [[[f o] sz] rc]. unfold data_ok, d_size, d_fence, d_offset.
  simpl. intros (? & ? & ?).
  pose proof (Z.mod_pos_bound (f + 1) (2 ^ 64) ltac:(lia)).
  unfold UINT64. repeat split; try done; lia.
Qed.

Lemma RetirePendingPages_inv completed s lu lus lp :
  inv s (mkL lu lus lp) ->
  let passed q : Prop := fence_passed completed (pages s) q in
  exists s',
    RetirePendingPages completed s = Some s' /\
    inv s' (mkL (reverse (filter passed lp) ++ lu) lus
                (filter (fun q => ~ passed q) lp)) /\
    (forall q, data_at (pages s') q =
       if decide (q ∈ lp /\ passed q)
       then reset_offset <$> data_at (pages s) q
       else data_at (pages s) q) /\
    scalars s' = scalars s.
Proof.
  intros [Hlk Hdom Hok Hclean Hinc Hroom Htot Hcr] passed.
  destruct (RetirePendingPages_loop_spec completed lp [] (chain_fuel s) s
              (mkL lu lus lp) Hlk eq_refl)
    as (s' & L' & Hs' & Hlk' & Hp' & Hu' & Hus' & Hdat' & Hsc').
  { pose proof (linked_length s _ pendingPages Hlk). unfold chain_fuel.
    simpl in *. lia. }
  simpl in Hp', Hu', Hus'. fold passed in Hu', Hdat'.
  assert (Hhead : m_pendingPages s = head_or None lp).
  { apply (dseg_head (pages s) lp None). apply (linked_dll _ _ Hlk pendingPages). }
  assert (Hsome : forall q, is_Some (pages s' !! q) <-> is_Some (pages s !! q)).
  { intros q. rewrite <- !data_at_is_Some, Hdat'.
    destruct (decide _); [by rewrite fmap_is_Some|done]. }
  unfold scalars in Hsc'. injection Hsc' as Hi Ht Hc Hd Hsg.
  exists s'. unfold RetirePendingPages. rewrite Hhead.
  split; [done|]. split; [|split; [done|unfold scalars; congruence]].
  assert (HL' : forall r, L' r = mkL (reverse (filter passed lp) ++ lu) lus
                                 (filter (fun q => ~ passed q) lp) r).
  { intros []; done. }
  apply (inv_ext s' L'); [done|]. split.
  - done.
  - intros q. rewrite Hsome, Hdom, !elem_of_all_pages. split.
    + intros [[] Hq]; simpl in Hq.
      * exists unusedPages. rewrite Hu'. apply elem_of_app. by right.
      * exists usedPages. by rewrite Hus'.
      * destruct (decide (passed q)).
        -- exists unusedPages. rewrite Hu'. apply elem_of_app. left.
           apply elem_of_reverse, list_elem_of_filter. done.
        -- exists pendingPages. rewrite Hp'. simpl.
           apply list_elem_of_filter. done.
    + intros [[] Hq].
      * rewrite Hu' in Hq. apply elem_of_app in Hq as [Hq|Hq].
        -- apply elem_of_reverse, list_elem_of_filter in Hq as [_ Hq].
           by exists pendingPages.
        -- by exists unusedPages.
      * rewrite Hus' in Hq. by exists usedPages.
      * rewrite Hp' in Hq. simpl in Hq.
        apply list_elem_of_filter in Hq as [_ Hq]. by exists pendingPages.
  - intros q d. rewrite Hdat', Hi. destruct (decide _).
    + destruct (data_at (pages s) q) as [d0|] eqn:E; [|done].
      simpl. intros [= <-]. apply data_ok_reset. by apply (Hok q).
    + apply Hok.
  - intros q d Hq. rewrite Hdat'. rewrite Hu' in Hq.
    destruct (decide _) as [_|Hn].
    + destruct (data_at (pages s) q) as [[[[f o] sz] rc]|]; [|done].
      simpl. by intros [= <-].
    + apply Hclean. simpl. apply elem_of_app in Hq as [Hq|Hq]; [|done].
      apply elem_of_reverse, list_elem_of_filter in Hq. tauto.
  - congruence.
  - by rewrite (dom_same_size _ _ Hsome).
  - rewrite (dom_same_size _ _ Hsome). congruence.
  - rewrite (dom_same_size _ _ Hsome). congruence.
Qed.

Lemma FenceCommittedPages_inv s lu lus lp :
  inv s (mkL lu lus lp) ->
  let ready q : Prop := page_ready (pages s) q in
  exists s',
    FenceCommittedPages s = Some s' /\
    inv s' (mkL lu (reverse (filter (fun q => ~ ready q) lus))
                (reverse (filter ready lus) ++ lp)) /\
    (forall q, data_at (pages s') q =
       if decide (q ∈ lus /\ ready q)
       then bump_fence <$> data_at (pages s) q
       else data_at (pages s) q) /\
    signals s' =
      signals s ++
      map (fun q => (q, UINT64 (fence_at (pages s) q + 1))) (filter ready lus) /\
    m_increment s' = m_increment s /\ m_totalPages s' = m_totalPages s /\
    created s' = created s /\ destroyed s' = destroyed s.
Proof.
  intros [Hlk Hdom Hok Hclean Hinc Hroom Htot Hcr] ready.
  pose proof Hlk as [Hdll Hnd].
  pose proof (Hdll unusedPages) as Hdu. pose proof (Hdll usedPages) as Hdus.
  pose proof (Hdll pendingPages) as Hdp. simpl in Hdu, Hdus, Hdp.
  unfold all_pages in Hnd. simpl in Hnd.
  pose proof Hnd as (Hnd_u & Hdisj_u & (Hnd_us & Hdisj_us & Hnd_p)%NoDup_app)%NoDup_app.
  set (A := filter ready lus). set (B := filter (fun q => ~ ready q) lus).
  assert (HA : forall q, q ∈ A <-> ready q /\ q ∈ lus)
    by (intros q; apply list_elem_of_filter).
  assert (HB : forall q, q ∈ B <-> ~ ready q /\ q ∈ lus)
    by (intros q; unfold B; by rewrite list_elem_of_filter).
  (* the result of the loop *)
  assert (exists s1 ready' unready',
    FenceCommittedPages_loop (chain_fuel s) (m_usedPages s) 0 None None s =
      Some (0 + Z.of_nat (length A), ready', unready', s1) /\
    dll (pages s1) ready' (reverse A) /\
    linked (set_usedPages unready' s1) (mkL lu (reverse B) lp) /\
    (forall q, data_at (pages s1) q =
       if decide (q ∈ lus /\ ready q)
       then bump_fence <$> data_at (pages s) q
       else data_at (pages s) q) /\
    signals s1 =
      signals s ++ map (fun q => (q, UINT64 (fence_at (pages s) q + 1))) A /\
    counters s1 = counters s)
    as (s1 & ready' & unready' & Hs1 & Hrl1 & Hlk1 & Hdat1 & Hsig1 & Hcnt1).
  { destruct (FenceCommittedPages_loop_spec lus (chain_fuel s) s None
                (m_usedPages s) 0 None None [] [])
      as (s1 & ready' & unready' & Hs1 & Hrl1 & Hul1 & Hfr1 & Hdat1 & Hsig1 & Hhd1 & Hcnt1);
      try done.
    { pose proof (linked_length s _ usedPages Hlk).
      unfold chain_fuel. simpl in *. lia. }
    { pose proof (linked_length s _ usedPages Hlk). simpl in *. lia. }
    { by rewrite !app_nil_r. }
    rewrite !app_nil_r in Hrl1, Hul1, Hfr1.
    exists s1, ready', unready'. split; [done|]. split; [done|].
    split; [|done]. split.
    - intros []; simpl.
      + pose proof (Hhd1 unusedPages) as Hh. simpl in Hh. rewrite Hh.
        eapply dseg_frame; [|exact Hdu]. intros q Hq. unfold links_at.
        rewrite Hfr1; [done|]. intros Hq'. apply (Hdisj_u q Hq).
        apply elem_of_app. by left.
      + done.
      + pose proof (Hhd1 pendingPages) as Hh. simpl in Hh. rewrite Hh.
        eapply dseg_frame; [|exact Hdp]. intros q Hq. unfold links_at.
        rewrite Hfr1; [done|]. intros Hq'. by apply (Hdisj_us q Hq').
    - unfold all_pages. simpl. rewrite reverse_Permutation.
      eapply sublist_NoDup; [exact Hnd|].
      apply sublist_app; [done|]. apply sublist_app; [|done].
      apply sublist_filter. }
  assert (HndA : NoDup (reverse A)).
  { rewrite reverse_Permutation. by apply NoDup_filter. }
  assert (HdisjA : forall q, q ∈ reverse A ->
            q ∉ all_pages (mkL lu (reverse B) lp)).
  { intros q Hq. apply elem_of_reverse, HA in Hq as [Hq1 Hq2].
    unfold all_pages. simpl. rewrite !elem_of_app, elem_of_reverse, HB.
    intros [H|[[H _]|H]].
    - apply (Hdisj_u q H), elem_of_app. by left.
    - done.
    - by apply (Hdisj_us q Hq2). }
  assert (Hsome : forall q, is_Some (pages s1 !! q) <-> is_Some (pages s !! q)).
  { intros q. rewrite <- !data_at_is_Some, Hdat1.
    destruct (decide _); [by rewrite fmap_is_Some|done]. }
  unfold counters in Hcnt1. injection Hcnt1 as Hi Ht Hc Hd Hnp.
  (* the state after the call *)
  assert (exists s',
    FenceCommittedPages s = Some s' /\
    linked s' (mkL lu (reverse B) (reverse A ++ lp)) /\
    same_data (pages s1) (pages s') /\
    scalars s' = scalars s1)
    as (s' & Hs' & Hlk' & Hdat' & Hsc').
  { unfold FenceCommittedPages.
    destruct (m_usedPages s) as [c|] eqn:Ehd.
    2:{ apply dll_None_nil in Hdus. subst lus.
        exists s. split; [done|]. simpl in Hs1.
        assert (s1 = s) as -> by congruence.
        split; [|done]. eapply linked_ext; [|exact Hlk]. by intros []. }
    rewrite Hs1. simpl.
    destruct A as [|a A'] eqn:EA.
    - simpl. eexists. split; [done|]. split; [|done].
      eapply linked_ext; [|exact Hlk1]. by intros [].
    - replace (0 <? Z.of_nat (length (a :: A'))) with true
        by (symmetry; apply Z.ltb_lt; simpl length; lia).
      assert (exists x, ready' = Some x) as [x ->].
      { apply dseg_head in Hrl1. rewrite reverse_cons in Hrl1.
        destruct (reverse A'); simpl in Hrl1; eauto. }
      match goal with |- context [LinkPageChain x pendingPages ?t] =>
        set (s2 := t) end.
      assert (Hlk2 : linked s2 (mkL lu (reverse B) lp)).
      { destruct Hlk1 as [H1 H2]. split; [|done]. intros r. apply (H1 r). }
      destruct (LinkPageChain_spec s2 _ pendingPages x (reverse (a :: A')) Hlk2)
        as (s' & Hs' & Hlk' & Hdat' & Hsc' & _); try done.
      { rewrite reverse_cons. by destruct (reverse A'). }
      exists s'. split; [done|]. split; [|done].
      eapply linked_ext; [|exact Hlk']. by intros []. }
  unfold scalars in Hsc'. injection Hsc' as Hi' Ht' Hc' Hd' Hsg'.
  assert (Hsome' : forall q, is_Some (pages s' !! q) <-> is_Some (pages s !! q)).
  { intros q. rewrite <- Hsome, <- !data_at_is_Some. by rewrite Hdat'. }
  exists s'. split; [done|]. split; [|split; [|repeat split; congruence]].
  2:{ intros q. by rewrite Hdat', Hdat1. }
  split.
  - done.
  - intros q. rewrite Hsome', Hdom. unfold all_pages. simpl.
    rewrite !elem_of_app, !elem_of_reverse.
    fold A B. rewrite HA, HB. destruct (decide (ready q)); tauto.
  - intros q d. rewrite Hdat', Hdat1, Hi', Hi. destruct (decide _).
    + destruct (data_at (pages s) q) as [d0|] eqn:E; [|done].
      simpl. intros [= <-]. apply data_ok_bump. by apply (Hok q).
    + apply Hok.
  - intros q d Hq. simpl in Hq. rewrite Hdat', Hdat1.
    rewrite decide_False; [by apply Hclean|].
    intros [Hq' _]. apply (Hdisj_u q Hq), elem_of_app. by left.
  - congruence.
  - by rewrite (dom_same_size _ _ Hsome').
  - rewrite (dom_same_size _ _ Hsome'). congruence.
  - rewrite (dom_same_size _ _ Hsome'). congruence.
Qed.

(** Pages are only relinked: the data and the members stay. *)
Lemma inv_relink s s' L L' :
  inv s L -> linked s' L' ->
  same_data (pages s) (pages s') -> scalars s' = scalars s ->
  (forall q, q ∈ all_pages L' <-> q ∈ all_pages L) ->
  (forall q, q ∈ L' unusedPages -> q ∈ L unusedPages) ->
  inv s' L'.
Proof.
  intros [Hlk Hdom Hok Hclean Hinc Hroom Htot Hcr] Hlk' Hdat Hsc Hall Hun.
  unfold scalars in Hsc. injection Hsc as Hi Ht Hc Hd Hsg.
  assert (Hsome : forall q, is_Some (pages s' !! q) <-> is_Some (pages s !! q)).
  { intros q. rewrite <- !data_at_is_Some. by rewrite Hdat. }
  split.
  - done.
  - intros q. by rewrite Hsome, Hall.
  - intros q d. rewrite Hdat, Hi. apply Hok.
  - intros q d Hq. rewrite Hdat. apply Hclean. by apply Hun.
  - congruence.
  - by rewrite (dom_same_size _ _ Hsome).
  - rewrite (dom_same_size _ _ Hsome). congruence.
  - rewrite (dom_same_size _ _ Hsome). congruence.
Qed.

(** [UnlinkPage(page); LinkPage(page, m_usedPages);] on the first unused
    page. *)
Lemma move_to_used s p lu lus lp :
  inv s (mkL (p :: lu) lus lp) ->
  exists s1 s',
    UnlinkPage p s = Some s1 /\ LinkPage p usedPages s1 = Some s' /\
    inv s' (mkL lu (p :: lus) lp) /\
    same_data (pages s) (pages s') /\ scalars s' = scalars s /\
    m_numPending s' = m_numPending s.
Proof.
  intros Hinv. pose proof (inv_linked _ _ Hinv) as Hlk.
  destruct (UnlinkPage_spec s _ unusedPages [] p lu Hlk eq_refl)
    as (s1 & pg1 & Hs1 & Hlk1 & Hp1 & Hpv1 & Hnx1 & Hdat1 & Hsc1 & Hnp1).
  simpl in Hlk1.
  assert (Hnd : NoDup (p :: lu ++ lus ++ lp)) by apply Hlk.
  apply NoDup_cons in Hnd as [Hp Hnd].
  destruct (LinkPage_spec s1 _ usedPages p pg1 Hlk1) as
    (s' & Hs' & Hlk' & Hdat' & Hsc' & Hnp'); try done.
  exists s1, s'. split; [done|]. split; [done|].
  split; [|split; [by eapply same_data_trans|split; congruence]].
  eapply (inv_relink s s'); [exact Hinv| | | | |].
  - eapply linked_ext; [|exact Hlk']. by intros [].
  - by eapply same_data_trans.
  - congruence.
  - intros q. unfold all_pages. simpl.
    rewrite !elem_of_app, !elem_of_cons, !elem_of_app. tauto.
  - intros q Hq. simpl in *. by right.
Qed.

Lemma GetNewPage_failed dev s :
  dev <> DeviceOk ->
  GetNewPage dev s =
    Some (match dev with
          | MapFailed => Thrown com_exception
          | _ => Returned None
          end, s).
Proof. by destruct dev. Qed.

Lemma GetNewPage_ok s lu lus lp :
  inv s (mkL lu lus lp) -> Z.of_nat (size (pages s)) + 1 < 2 ^ 32 ->
  let p := fresh (dom (pages s)) in
  exists s',
    GetNewPage DeviceOk s = Some (Returned (Some p), s') /\
    pages s !! p = None /\
    inv s' (mkL (p :: lu) lus lp) /\
    data_at (pages s') p = Some (0, 0, m_increment s, 0) /\
    (forall q, q <> p -> data_at (pages s') q = data_at (pages s) q) /\
    m_increment s' = m_increment s /\ signals s' = signals s /\
    created s' = S (created s) /\ destroyed s' = destroyed s.
Proof.
  intros [Hlk Hdom Hok Hclean Hinc Hroom Htot Hcr] Hfree p.
  assert (Hp : pages s !! p = None).
  { apply not_elem_of_dom. apply is_fresh. }
  assert (Hpall : p ∉ all_pages (mkL lu lus lp)).
  { rewrite <- Hdom, Hp. by intros [? ?]. }
  pose proof Hlk as [Hdll Hnd].
  unfold all_pages in Hpall, Hnd. simpl in Hpall, Hnd.
  rewrite !elem_of_app in Hpall.
  pose proof Hnd as (Hnd_u & Hdisj_u & _)%NoDup_app.
  unfold GetNewPage. fold p.
  erewrite update_page_Some by (simpl; apply lookup_insert_eq). simpl.
  rewrite insert_insert_eq.
  set (pg1 := Page None (m_unusedPages s) 0 0 (m_increment s) 0).
  match goal with |- context [update_if_page _ _ ?x] => set (s1 := x) end.
  assert (Hp1 : pages s1 !! p = Some pg1) by apply lookup_insert_eq.
  assert (Hfr1 : forall q, q <> p -> pages s1 !! q = pages s !! q).
  { intros q Hq. unfold s1. simpl. by rewrite lookup_insert_ne. }
  assert (Hu1 : dll (pages s1) (m_unusedPages s) lu).
  { apply dseg_insert_notin; [tauto|]. apply (Hdll unusedPages). }
  destruct (push_front_chain s1 p pg1 (m_unusedPages s) lu Hp1 eq_refl eq_refl
              Hu1 Hnd_u ltac:(tauto))
    as (s2 & Hs2 & Hu2 & Hfr2 & Hhd2 & Hdat2 & Hsc2 & Hnp2).
  change (m_unusedPages s1) with (m_unusedPages s). rewrite Hs2. simpl.
  unfold scalars in Hsc2. simpl in Hsc2. injection Hsc2 as Hi Ht Hc Hd Hsg.
  assert (Hfr : forall q, q <> p -> q ∉ lu -> pages s2 !! q = pages s !! q).
  { intros q Hq1 Hq2. by rewrite Hfr2, Hfr1. }
  assert (Hdat : forall q, q <> p -> data_at (pages s2) q = data_at (pages s) q).
  { intros q Hq. rewrite Hdat2. unfold data_at. by rewrite Hfr1. }
  assert (Hdatp : data_at (pages s2) p = Some (0, 0, m_increment s, 0)).
  { rewrite Hdat2. unfold data_at. by rewrite Hp1. }
  assert (Hsome : forall q, is_Some (pages s2 !! q) <->
                            q = p \/ is_Some (pages s !! q)).
  { intros q. rewrite <- !data_at_is_Some.
    destruct (decide (q = p)) as [->|Hne].
    - rewrite Hdatp. split; eauto.
    - rewrite Hdat by done. split; [auto|]. by intros [?|?]. }
  assert (Hsize : size (pages s2) = S (size (pages s))).
  { rewrite <- (map_size_insert_None p pg1 (pages s) Hp).
    apply dom_same_size. intros q. rewrite Hsome.
    destruct (decide (q = p)) as [->|Hne].
    - rewrite lookup_insert_eq. split; eauto.
    - rewrite lookup_insert_ne by done. split; [by intros [?|?]|auto]. }
  eexists. split; [done|]. split; [done|].
  split; [|simpl; repeat split; try done; congruence].
  split; simpl.
  - split.
    + intros []; simpl.
      * done.
      * pose proof (Hhd2 usedPages) as Hh. simpl in Hh. rewrite Hh.
        eapply dseg_frame; [|apply (Hdll usedPages)].
        intros q Hq. simpl in Hq. unfold links_at. rewrite Hfr; [done| |].
        -- intros ->. tauto.
        -- intros Hq'. apply (Hdisj_u q Hq'), elem_of_app. by left.
      * pose proof (Hhd2 pendingPages) as Hh. simpl in Hh. rewrite Hh.
        eapply dseg_frame; [|apply (Hdll pendingPages)].
        intros q Hq. simpl in Hq. unfold links_at. rewrite Hfr; [done| |].
        -- intros ->. tauto.
        -- intros Hq'. apply (Hdisj_u q Hq'), elem_of_app. by right.
    + unfold all_pages. simpl. apply NoDup_cons. split; [|done].
      rewrite !elem_of_app. tauto.
  - intros q. rewrite Hsome, Hdom. unfold all_pages. simpl.
    rewrite elem_of_cons. done.
  - intros q d. rewrite Hi. destruct (decide (q = p)) as [->|Hne].
    + rewrite Hdatp. intros [= <-].
      unfold data_ok, d_size, d_fence, d_offset. simpl. lia.
    + rewrite Hdat by done. apply Hok.
  - intros q d [->|Hq]%elem_of_cons.
    + rewrite Hdatp. by intros [= <-].
    + rewrite Hdat; [by apply Hclean|]. intros ->. tauto.
  - congruence.
  - rewrite Hsize. lia.
  - rewrite Hsize, Ht, Htot. unfold size_t. rewrite Z.mod_small; lia.
  - rewrite Hsize. lia.
Qed.

Lemma GetClean_unused dev s p lu lus lp :
  inv s (mkL (p :: lu) lus lp) ->
  exists s',
    GetCleanPageForAlloc dev s = Some (Returned (Some p), s') /\
    inv s' (mkL lu (p :: lus) lp) /\
    same_data (pages s) (pages s') /\ scalars s' = scalars s.
Proof.
  intros Hinv.
  destruct (move_to_used s p lu lus lp Hinv)
    as (s1 & s' & Hs1 & Hs' & Hinv' & Hdat & Hsc & _).
  assert (Hhd : m_unusedPages s = Some p).
  { pose proof (linked_dll _ _ (inv_linked _ _ Hinv) unusedPages) as [H _].
    exact H. }
  exists s'. unfold GetCleanPageForAlloc. rewrite Hhd. simpl.
  rewrite Hs1. simpl. rewrite Hs'. done.
Qed.

Lemma GetClean_new s lus lp :
  inv s (mkL [] lus lp) -> Z.of_nat (size (pages s)) + 1 < 2 ^ 32 ->
  let p := fresh (dom (pages s)) in
  exists s',
    GetCleanPageForAlloc DeviceOk s = Some (Returned (Some p), s') /\
    pages s !! p = None /\
    inv s' (mkL [] (p :: lus) lp) /\
    data_at (pages s') p = Some (0, 0, m_increment s, 0) /\
    (forall q, q <> p -> data_at (pages s') q = data_at (pages s) q) /\
    m_increment s' = m_increment s /\ signals s' = signals s /\
    created s' = S (created s) /\ destroyed s' = destroyed s.
Proof.
  intros Hinv Hfree p.
  destruct (GetNewPage_ok s [] lus lp Hinv Hfree)
    as (s0 & Hs0 & Hp & Hinv0 & Hdatp & Hdat & Hi & Hsg & Hc & Hd).
  fold p in Hs0, Hp, Hinv0, Hdatp, Hdat.
  destruct (move_to_used s0 p [] lus lp Hinv0)
    as (s1 & s' & Hs1 & Hs' & Hinv' & Hdat' & Hsc' & _).
  unfold scalars in Hsc'. injection Hsc' as Hi' Ht' Hc' Hd' Hsg'.
  assert (Hhd : m_unusedPages s = None).
  { pose proof (linked_dll _ _ (inv_linked _ _ Hinv) unusedPages) as H.
    exact H. }
  exists s'. unfold GetCleanPageForAlloc. rewrite Hhd, Hs0. simpl.
  rewrite Hs1. simpl. rewrite Hs'. simpl.
  split; [done|]. split; [done|]. split; [done|].
  split; [by rewrite Hdat'|]. split; [|repeat split; congruence].
  intros q Hq. rewrite Hdat'. by apply Hdat.
Qed.

Lemma GetClean_failed dev s lus lp :
  inv s (mkL [] lus lp) -> dev <> DeviceOk ->
  GetCleanPageForAlloc dev s =
    Some (match dev with
          | MapFailed => Thrown com_exception
          | _ => Returned None
          end, s).
Proof.
  intros Hinv Hdev.
  assert (Hhd : m_unusedPages s = None).
  { pose proof (linked_dll _ _ (inv_linked _ _ Hinv) unusedPages) as H.
    exact H. }
  unfold GetCleanPageForAlloc. rewrite Hhd. by destruct dev.
Qed.

Lemma FindPageForAlloc_in_spec s sizeBytes alignment l :
  forall fuel pv cur,
    dseg (pages s) pv cur l None -> (length l <= fuel)%nat ->
    FindPageForAlloc_in fuel s cur sizeBytes alignment =
      Some (first_fit s sizeBytes alignment l).
Proof.
  unfold first_fit.
  induction l as [|p l IH]; intros fuel pv cur Hd Hlen; simpl in Hd.
  - subst cur. by destruct fuel.
  - destruct Hd as [-> Hp]. destruct fuel as [|fuel]; [simpl in Hlen; lia|].
    simpl. destruct (pages s !! p) as [pg|] eqn:E; [|done]. simpl.
    destruct Hp as [_ Hrest].
    assert (Htest : (size_t (AlignOffset (mOffset pg) alignment + sizeBytes)
                       <=? m_increment s) = page_fits s sizeBytes alignment p).
    { unfold page_fits. by rewrite E. }
    rewrite Htest. destruct (page_fits s sizeBytes alignment p) eqn:Hfit.
    + rewrite filter_cons_True by (by rewrite Hfit). done.
    + rewrite filter_cons_False by (rewrite Hfit; auto).
      eapply IH; [exact Hrest|]. simpl in Hlen. lia.
Qed.

Lemma GetPageForAlloc_eq dev sizeBytes alignment s L :
  linked s L ->
  GetPageForAlloc dev sizeBytes alignment s =
    if (sizeBytes =? m_increment s)
       && ((alignment =? 0) || (alignment =? m_increment s))
    then GetCleanPageForAlloc dev s
    else match first_fit s sizeBytes alignment (L usedPages) with
         | Some p => Some (Returned (Some p), s)
         | None => GetCleanPageForAlloc dev s
         end.
Proof.
  intros Hlk. unfold GetPageForAlloc. destruct (_ && _); [done|].
  erewrite FindPageForAlloc_in_spec.
  - done.
  - apply (linked_dll _ _ Hlk usedPages).
  - pose proof (linked_length s L usedPages Hlk). unfold chain_fuel. lia.
Qed.

Lemma FreePages_loop_spec l :
  forall fuel s pv cur,
    dseg (pages s) pv cur l None -> NoDup l -> (length l <= fuel)%nat ->
    Z.of_nat (length l) <= m_totalPages s < 2 ^ 64 ->
    exists s',
      FreePages_loop fuel cur s = Some s' /\
      (forall q, pages s' !! q = if decide (q ∈ l) then None else pages s !! q) /\
      (size (pages s') + length l = size (pages s))%nat /\
      m_totalPages s' = m_totalPages s - Z.of_nat (length l) /\
      destroyed s' = (destroyed s + length l)%nat /\
      created s' = created s /\ m_increment s' = m_increment s /\
      signals s' = signals s /\ m_numPending s' = m_numPending s /\
      (forall r, list_head r s' = list_head r s).
Proof.
  induction l as [|p l IH]; intros fuel s pv cur Hd Hnd Hlen Htot.
  - simpl in Hd. subst cur. exists s.
    split; [by destruct fuel|]. split; [|simpl; repeat split; try done; lia].
    intros q. rewrite decide_False; [done|]. by intros H%elem_of_nil.
  - destruct Hd as [-> Hp]. destruct fuel as [|fuel]; [simpl in Hlen; lia|].
    destruct (pages s !! p) as [pg|] eqn:E; [|done].
    destruct Hp as [_ Hrest]. apply NoDup_cons in Hnd as [Hpl Hnd].
    simpl FreePages_loop. rewrite E. simpl.
    match goal with |- context [FreePages_loop fuel _ ?x] => set (s1 := x) end.
    assert (Ht1 : m_totalPages s1 = m_totalPages s - 1).
    { unfold s1. simpl. unfold size_t. rewrite Z.mod_small; [done|].
      simpl length in Htot. lia. }
    destruct (IH fuel s1 (Some p) (pNextPage pg))
      as (s' & Hs' & Hpg' & Hsz' & Ht' & Hd' & Hc' & Hi' & Hsg' & Hnp' & Hhd');
      try done.
    { unfold s1. simpl. by apply dseg_delete_notin. }
    { simpl in Hlen. lia. }
    { rewrite Ht1. simpl length in Htot. lia. }
    exists s'. split; [done|]. split; [|split; [|split; [|split]]].
    + intros q. rewrite Hpg'. unfold s1. simpl.
      destruct (decide (q = p)) as [->|Hne].
      * rewrite lookup_delete_eq. rewrite (decide_True (P := p ∈ p :: l)) by left.
        by destruct (decide _).
      * rewrite lookup_delete_ne by done.
        destruct (decide (q ∈ l)) as [Hq|Hq].
        -- rewrite decide_True; [done|]. by right.
        -- rewrite decide_False; [done|]. by intros [?|?]%elem_of_cons.
    + unfold s1 in Hsz'. simpl in Hsz'.
      rewrite map_size_delete_Some in Hsz' by (by rewrite E).
      assert (size (pages s) <> 0%nat).
      { intros H0. apply map_size_empty_inv in H0. by rewrite H0 in E. }
      simpl length. lia.
    + rewrite Ht', Ht1. simpl length. lia.
    + rewrite Hd'. unfold s1. simpl. lia.
    + unfold s1 in *. simpl in *. repeat split; done.
Qed.

Lemma Shrink_inv s lu lus lp :
  inv s (mkL lu lus lp) ->
  exists s',
    Shrink s = Some s' /\
    inv s' (mkL [] lus lp) /\
    (forall q, pages s' !! q = if decide (q ∈ lu) then None else pages s !! q) /\
    m_increment s' = m_increment s /\ signals s' = signals s.
Proof.
  intros [Hlk Hdom Hok Hclean Hinc Hroom Htot Hcr].
  pose proof Hlk as [Hdll Hnd].
  unfold all_pages in Hnd. simpl in Hnd.
  pose proof Hnd as (Hnd_u & Hdisj_u & Hnd_rest)%NoDup_app.
  pose proof (linked_length s _ unusedPages Hlk) as Hlen. simpl in Hlen.
  destruct (FreePages_loop_spec lu (chain_fuel s) s None (m_unusedPages s))
    as (s1 & Hs1 & Hpg1 & Hsz1 & Ht1 & Hd1 & Hc1 & Hi1 & Hsg1 & Hnp1 & Hhd1);
    try done.
  { apply (Hdll unusedPages). }
  { unfold chain_fuel. lia. }
  { lia. }
  exists (set_unusedPages None s1). unfold Shrink, FreePages. rewrite Hs1.
  split; [done|]. split; [|done]. split; simpl.
  - split.
    + intros []; simpl.
      * done.
      * pose proof (Hhd1 usedPages) as Hh. simpl in Hh. rewrite Hh.
        eapply dseg_frame; [|apply (Hdll usedPages)].
        intros q Hq. simpl in Hq. unfold links_at. rewrite Hpg1.
        rewrite decide_False; [done|]. intros Hq'.
        apply (Hdisj_u q Hq'), elem_of_app. by left.
      * pose proof (Hhd1 pendingPages) as Hh. simpl in Hh. rewrite Hh.
        eapply dseg_frame; [|apply (Hdll pendingPages)].
        intros q Hq. simpl in Hq. unfold links_at. rewrite Hpg1.
        rewrite decide_False; [done|]. intros Hq'.
        apply (Hdisj_u q Hq'), elem_of_app. by right.
    + done.
  - intros q. rewrite Hpg1. unfold all_pages. simpl.
    destruct (decide (q ∈ lu)) as [Hq|Hq].
    + split; [by intros [? ?]|]. intros Hq'. by apply Hdisj_u in Hq.
    + rewrite Hdom. unfold all_pages. simpl. rewrite elem_of_app. tauto.
  - intros q d. unfold data_at. rewrite Hpg1, Hi1.
    destruct (decide _); [done|]. apply Hok.
  - intros q d Hq. by apply elem_of_nil in Hq.
  - congruence.
  - lia.
  - lia.
  - lia.
Qed.

(** A page's data is rewritten in place. *)
Lemma inv_update_data s L p pg pg' :
  inv s L -> pages s !! p = Some pg ->
  pPrevPage pg' = pPrevPage pg -> pNextPage pg' = pNextPage pg ->
  data_ok (m_increment s) (page_data pg') ->
  (p ∈ L unusedPages -> mOffset pg' = 0) ->
  inv (set_pages (<[p := pg']> (pages s)) s) L.
Proof.
  intros [Hlk Hdom Hok Hclean Hinc Hroom Htot Hcr] Hp Hpv Hnx Hokp Hcl.
  assert (Hsome : forall q, is_Some (<[p := pg']> (pages s) !! q)
                            <-> is_Some (pages s !! q)).
  { intros q. destruct (decide (p = q)) as [->|Hne].
    - rewrite lookup_insert_eq, Hp. split; eauto.
    - by rewrite lookup_insert_ne. }
  split; simpl.
  - by apply (linked_insert_links _ _ _ pg).
  - intros q. by rewrite Hsome.
  - intros q d. unfold data_at. destruct (decide (p = q)) as [->|Hne].
    + rewrite lookup_insert_eq. by intros [= <-].
    + rewrite lookup_insert_ne by done. apply Hok.
  - intros q d Hq. unfold data_at. destruct (decide (p = q)) as [->|Hne].
    + rewrite lookup_insert_eq. intros [= <-]. by apply Hcl.
    + rewrite lookup_insert_ne by done. by apply Hclean.
  - done.
  - by rewrite (dom_same_size _ _ Hsome).
  - by rewrite (dom_same_size _ _ Hsome).
  - by rewrite (dom_same_size _ _ Hsome).
Qed.

End operations.

(** * What one operation does *)

Section transitions.
Implicit Types (h : store) (l : list nat) (p : nat) (s : LinearAllocator)
  (L : PageList -> list nat) (r : PageList).

Lemma transition_id debug o s L : transition debug o s s L L.
Proof.
  split; try done; try (intros; left; congruence); auto.
  - intros q d' H1 H2. congruence.
Qed.

(** Only the links change, and a page may go from unused to used. *)
Lemma transition_relink debug o s s' L L' :
  same_data (pages s) (pages s') -> m_increment s' = m_increment s ->
  (forall q, q ∈ L' usedPages -> q ∈ L usedPages \/ q ∈ L unusedPages) ->
  (forall q, q ∈ L' pendingPages -> q ∈ L pendingPages) ->
  transition debug o s s' L L'.
Proof.
  intros Hdat Hi Hus Hp. split; try done.
  - intros q d'. rewrite Hdat. congruence.
  - intros q d d'. rewrite Hdat. left. congruence.
  - intros q d d'. rewrite Hdat. left. congruence.
  - intros q Hq. destruct (Hus q Hq); auto.
  - intros q Hq. left. auto.
Qed.

(** A page is created; it may go to unused or to used. *)
Lemma transition_new debug o s s' L L' p :
  pages s !! p = None ->
  data_at (pages s') p = Some (0, 0, m_increment s, 0) ->
  (forall q, q <> p -> data_at (pages s') q = data_at (pages s) q) ->
  m_increment s' = m_increment s ->
  (forall q, q ∈ L' usedPages -> q = p \/ q ∈ L usedPages) ->
  (forall q, q ∈ L' pendingPages -> q <> p /\ q ∈ L pendingPages) ->
  transition debug o s s' L L'.
Proof.
  intros Hp Hdatp Hdat Hi Hus Hpe.
  assert (Hnone : data_at (pages s) p = None) by (unfold data_at; by rewrite Hp).
  split; try done.
  - intros q d' H1 H2. destruct (decide (q = p)) as [->|Hne].
    + split; [congruence|]. intros Hq. by apply Hpe in Hq as [? _].
    + rewrite Hdat in H2 by done. congruence.
  - intros q d d' H1 H2. destruct (decide (q = p)) as [->|Hne]; [congruence|].
    rewrite Hdat in H2 by done. left. congruence.
  - intros q d d' H1 H2. destruct (decide (q = p)) as [->|Hne]; [congruence|].
    rewrite Hdat in H2 by done. left. congruence.
  - intros q Hq. destruct (Hus q Hq) as [->|?]; auto.
  - intros q Hq. left. by apply Hpe.
Qed.

Lemma GetCleanPageForAlloc_cases debug o dev s lu lus lp :
  inv s (mkL lu lus lp) ->
  (dev = DeviceOk -> Z.of_nat (size (pages s)) + 1 < 2 ^ 32) ->
  exists res s' L',
    GetCleanPageForAlloc dev s = Some (res, s') /\
    inv s' L' /\ transition debug o s s' (mkL lu lus lp) L'.
Proof.
  intros Hinv Hroom. destruct lu as [|p lu].
  - destruct (decide (dev = DeviceOk)) as [->|Hdev].
    + destruct (GetClean_new s lus lp Hinv (Hroom eq_refl))
        as (s' & Hs' & Hp & Hinv' & Hdatp & Hdat & Hi & _).
      eexists _, s', _. split; [done|]. split; [done|].
      eapply transition_new; try done; simpl.
      * intros q [->|?]%elem_of_cons; auto.
      * intros q Hq. split; [|done]. intros ->.
        assert (is_Some (pages s !! fresh (dom (pages s)))) as [? ?].
        { apply (inv_dom _ _ Hinv), elem_of_all_pages.
          by exists pendingPages. }
        congruence.
    + rewrite (GetClean_failed dev s lus lp Hinv Hdev).
      eexists _, s, _. split; [done|]. split; [done|]. apply transition_id.
  - destruct (GetClean_unused dev s p lu lus lp Hinv)
      as (s' & Hs' & Hinv' & Hdat & Hsc).
    eexists _, s', _. split; [done|]. split; [done|].
    unfold scalars in Hsc. injection Hsc as Hi _ _ _ _.
    apply transition_relink; try done; simpl.
    + intros q [->|?]%elem_of_cons; [right; left|by left].
Qed.

Lemma GetPageForAlloc_cases debug o dev sizeBytes alignment s lu lus lp :
  inv s (mkL lu lus lp) ->
  (dev = DeviceOk -> Z.of_nat (size (pages s)) + 1 < 2 ^ 32) ->
  exists res s' L',
    GetPageForAlloc dev sizeBytes alignment s = Some (res, s') /\
    inv s' L' /\ transition debug o s s' (mkL lu lus lp) L'.
Proof.
  intros Hinv Hroom.
  rewrite (GetPageForAlloc_eq _ _ _ _ _ (inv_linked _ _ Hinv)).
  destruct (_ && _); [by apply GetCleanPageForAlloc_cases|].
  destruct (first_fit _ _ _ _); [|by apply GetCleanPageForAlloc_cases].
  eexists _, s, _. split; [done|]. split; [done|]. apply transition_id.
Qed.

Lemma FindPageForAlloc_cases debug o dev (sizeBytes alignment : Z) s lu lus lp :
  inv s (mkL lu lus lp) ->
  (dev = DeviceOk -> Z.of_nat (size (pages s)) + 1 < 2 ^ 32) ->
  exists res s' L',
    FindPageForAlloc debug dev sizeBytes alignment s = Some (res, s') /\
    inv s' L' /\ transition debug o s s' (mkL lu lus lp) L'.
Proof.
  intros Hinv Hroom. unfold FindPageForAlloc.
  destruct (debug && (m_increment s <? sizeBytes)).
  { eexists _, s, _. split; [done|]. split; [done|]. apply transition_id. }
  destruct (debug && (m_increment s <? alignment)).
  { eexists _, s, _. split; [done|]. split; [done|]. apply transition_id. }
  destruct (debug && (sizeBytes =? 0)).
  { eexists _, s, _. split; [done|]. split; [done|]. apply transition_id. }
  destruct (GetPageForAlloc_cases debug o dev sizeBytes alignment s lu lus lp
              Hinv Hroom) as (res & s' & L' & Hs' & Hinv' & Htr).
  rewrite Hs'. simpl. destruct res as [[page|]|e]; eauto 10.
Qed.

Lemma transition_ext debug o s s' L0 L L' :
  (forall r, L r = L0 r) ->
  transition debug o s s' L0 L' -> transition debug o s s' L L'.
Proof.
  intros HL [H1 H2 H3 H4 H5 H6]. split; try done.
  - intros q d d'. rewrite !HL. apply H3.
  - intros q d d'. rewrite !HL. apply H4.
  - intros q. rewrite !HL. apply H5.
  - intros q. rewrite !HL. apply H6.
Qed.

Lemma exec_transition debug o s L :
  inv s L -> permitted o s ->
  exists s' L',
    exec debug o s = Some s' /\ inv s' L' /\ transition debug o s s' L L'.
Proof.
  intros Hinv0 [Hroom Hperm].
  pose proof (inv_ext _ _ _ (mkL_eta L) Hinv0) as Hinv.
  set (lu := L unusedPages) in *. set (lus := L usedPages) in *.
  set (lp := L pendingPages) in *.
  assert (Hused : used_list s = lus).
  { apply (linked_page_list s _ usedPages (inv_linked _ _ Hinv)). }
  cut (exists s' L', exec debug o s = Some s' /\ inv s' L' /\
                     transition debug o s s' (mkL lu lus lp) L').
  { intros (s' & L' & H1 & H2 & H3). exists s', L'. split; [done|].
    split; [done|]. eapply transition_ext; [|exact H3]. apply mkL_eta. }
  destruct o as [dev|dev sz al|p sz al|p c| |completed|]; simpl exec.
  - (* GetNewPage *)
    destruct (decide (dev = DeviceOk)) as [->|Hdev].
    + destruct (GetNewPage_ok s lu lus lp Hinv (Hroom eq_refl))
        as (s' & Hs' & Hp & Hinv' & Hdatp & Hdat & Hi & _).
      rewrite Hs'. simpl. exists s'; eexists; split; [done|]. split; [done|].
      eapply transition_new; try done; simpl; auto.
      intros q Hq. split; [|done]. intros ->.
      assert (is_Some (pages s !! fresh (dom (pages s)))) as [? ?].
      { apply (inv_dom _ _ Hinv), elem_of_all_pages. by exists pendingPages. }
      congruence.
    + rewrite (GetNewPage_failed dev s Hdev). simpl.
      exists s; eexists; split; [done|]. split; [done|]. apply transition_id.
  - (* FindPageForAlloc *)
    destruct (FindPageForAlloc_cases debug (op_FindPageForAlloc dev sz al)
                dev sz al s lu lus lp Hinv)
      as (res & s' & L' & Hs' & Hinv' & Htr).
    { intros ->. by apply Hroom. }
    rewrite Hs'. simpl. eauto.
  - (* Suballocate *)
    destruct Hperm as (Hp & Hsz & Hal). rewrite Hused in Hp.
    destruct (linked_live s _ usedPages p (inv_linked _ _ Hinv) Hp) as [pg Hpg].
    rewrite Hpg. simpl. unfold Suballocate.
    destruct (debug && _) eqn:Htest.
    { exists s; eexists; split; [done|]. split; [done|]. apply transition_id. }
    set (off' := size_t (AlignOffset (mOffset pg) al + sz)).
    assert (Hoff : 0 <= off' < 2 ^ 64).
    { apply Z.mod_pos_bound. lia. }
    pose proof (inv_ok _ _ Hinv p (page_data pg)) as Hokp.
    unfold data_at in Hokp. rewrite Hpg in Hokp. specialize (Hokp eq_refl).
    eexists _, _. split; [done|]. split.
    + apply (inv_update_data _ _ _ pg); try done.
      * revert Hokp. unfold data_ok, d_size, d_fence, d_offset, page_data.
        simpl. intros (? & ? & ?). repeat split; try done; lia.
      * intros Hpu. simpl in Hpu. exfalso.
        pose proof (inv_linked _ _ Hinv) as [_ Hnd].
        by apply (all_pages_disjoint _ usedPages unusedPages p Hnd).
    + split; simpl; try done.
      * intros q d'. unfold data_at. destruct (decide (p = q)) as [->|Hne].
        -- by rewrite Hpg.
        -- rewrite lookup_insert_ne by done. congruence.
      * intros q d d'. unfold data_at. destruct (decide (p = q)) as [->|Hne].
        -- rewrite Hpg, lookup_insert_eq. intros [= <-] [= <-]. by left.
        -- rewrite lookup_insert_ne by done. left. congruence.
      * intros q d d'. unfold data_at. destruct (decide (p = q)) as [->|Hne].
        -- rewrite Hpg, lookup_insert_eq. intros [= <-] [= <-].
           right. right. exists sz, al. split; [done|]. split; [done|].
           intros ->. simpl in Htest. fold off' in Htest.
           unfold d_offset, d_size. simpl. lia.
        -- rewrite lookup_insert_ne by done. left. congruence.
      * auto.
      * auto.
  - (* AddRef / Release *)
    destruct Hperm as [pg Hpg]. rewrite (update_page_Some _ _ _ _ Hpg).
    pose proof (inv_ok _ _ Hinv p (page_data pg)) as Hokp.
    unfold data_at in Hokp. rewrite Hpg in Hokp. specialize (Hokp eq_refl).
    eexists _, _. split; [done|]. split.
    + apply (inv_update_data _ _ _ pg); try done.
      intros Hpu. apply (inv_clean _ _ Hinv p (page_data pg) Hpu).
      unfold data_at. by rewrite Hpg.
    + split; simpl; try done.
      * intros q d'. unfold data_at. destruct (decide (p = q)) as [->|Hne].
        -- by rewrite Hpg.
        -- rewrite lookup_insert_ne by done. congruence.
      * intros q d d'. unfold data_at. destruct (decide (p = q)) as [->|Hne].
        -- rewrite Hpg, lookup_insert_eq. intros [= <-] [= <-]. by left.
        -- rewrite lookup_insert_ne by done. left. congruence.
      * intros q d d'. unfold data_at. destruct (decide (p = q)) as [->|Hne].
        -- rewrite Hpg, lookup_insert_eq. intros [= <-] [= <-]. by left.
        -- rewrite lookup_insert_ne by done. left. congruence.
      * auto.
      * auto.
  - (* FenceCommittedPages *)
    destruct (FenceCommittedPages_inv s lu lus lp Hinv)
      as (s' & Hs' & Hinv' & Hdat & Hsg & Hi & _).
    exists s'; eexists; split; [done|]. split; [done|].
    assert (Hcases : forall q d d',
      data_at (pages s) q = Some d -> data_at (pages s') q = Some d' ->
      d' = d \/ (d' = bump_fence d /\ q ∈ lus /\ page_ready (pages s) q)).
    { intros q d d' H1 H2. rewrite Hdat, H1 in H2.
      destruct (decide _) as [[? ?]|_]; simpl in H2; injection H2 as <-; auto. }
    split; simpl; try done.
    + intros q d' H1 H2. rewrite Hdat, H1 in H2. by destruct (decide _).
    + intros q d d' H1 H2.
      destruct (Hcases q d d' H1 H2) as [->|(-> & Hq & Hr)]; [by left|].
      right. split; [by destruct d as [[[? ?] ?] ?]|]. split; [done|].
      apply elem_of_app. left. apply elem_of_reverse, list_elem_of_filter. done.
    + intros q d d' H1 H2.
      destruct (Hcases q d d' H1 H2) as [->|(-> & Hq & Hr)]; [by left|].
      left. by destruct d as [[[? ?] ?] ?].
    + intros q Hq. left.
      apply elem_of_reverse, list_elem_of_filter in Hq. tauto.
    + intros q [Hq|Hq]%elem_of_app; [|by left]. right.
      apply elem_of_reverse, list_elem_of_filter in Hq as [Hr Hq].
      split; [done|].
      destruct (linked_live s _ usedPages q (inv_linked _ _ Hinv) Hq) as [pg Hpg].
      exists (page_data pg), (bump_fence (page_data pg)).
      split; [unfold data_at; by rewrite Hpg|].
      split; [|done]. rewrite Hdat. rewrite decide_True by done.
      unfold data_at. by rewrite Hpg.
  - (* RetirePendingPages *)
    destruct (RetirePendingPages_inv completed s lu lus lp Hinv)
      as (s' & Hs' & Hinv' & Hdat & Hsc).
    unfold scalars in Hsc. injection Hsc as Hi _ _ _ _.
    exists s'; eexists; split; [done|]. split; [done|].
    assert (Hcases : forall q d d',
      data_at (pages s) q = Some d -> data_at (pages s') q = Some d' ->
      d' = d \/ (d' = reset_offset d /\ q ∈ lp /\
                 fence_passed completed (pages s) q)).
    { intros q d d' H1 H2. rewrite Hdat, H1 in H2.
      destruct (decide _) as [[? ?]|_]; simpl in H2; injection H2 as <-; auto. }
    split; simpl; try done.
    + intros q d' H1 H2. rewrite Hdat, H1 in H2. by destruct (decide _).
    + intros q d d' H1 H2.
      destruct (Hcases q d d' H1 H2) as [->|(-> & Hq & Hr)]; [by left|].
      left. by destruct d as [[[? ?] ?] ?].
    + intros q d d' H1 H2.
      destruct (Hcases q d d' H1 H2) as [->|(-> & Hq & Hr)]; [by left|].
      right. left. split; [by destruct d as [[[? ?] ?] ?]|]. split; [done|].
      apply elem_of_app. left. apply elem_of_reverse, list_elem_of_filter. done.
    + auto.
    + intros q Hq. left. apply list_elem_of_filter in Hq. tauto.
  - (* Shrink *)
    destruct (Shrink_inv s lu lus lp Hinv) as (s' & Hs' & Hinv' & Hpg & Hi & _).
    exists s'; eexists; split; [done|]. split; [done|].
    assert (Hsame : forall q d', data_at (pages s') q = Some d' ->
                                 data_at (pages s) q = Some d').
    { intros q d'. unfold data_at. rewrite Hpg. by destruct (decide _). }
    split; simpl; try done.
    + intros q d' H1 H2. apply Hsame in H2. congruence.
    + intros q d d' H1 H2. apply Hsame in H2. left. congruence.
    + intros q d d' H1 H2. apply Hsame in H2. left. congruence.
    + auto.
    + auto.
Qed.

End transitions.

(** * Reachable states *)

Section reachability.
Implicit Types (s : LinearAllocator) (L : PageList -> list nat).

Lemma init_inv pageSize :
  0 < pageSize < 2 ^ 64 -> inv (LinearAllocator_init pageSize) (mkL [] [] []).
Proof.
  intros Hps. split; simpl; try done.
  - split; [by intros []|]. apply NoDup_nil_2.
  - intros p. rewrite lookup_empty. unfold all_pages. simpl.
    split; [by intros [? ?]|by intros ?%elem_of_nil].
Qed.

Lemma steps_inv debug n s : steps debug n s -> exists L, inv s L.
Proof.
  induction 1 as [pageSize Hps|n s o s' _ [L Hinv] Hperm Hexec].
  - eexists. by apply init_inv.
  - destruct (exec_transition debug o s L Hinv Hperm)
      as (s'' & L' & Hs'' & Hinv' & _).
    rewrite Hexec in Hs''. injection Hs'' as <-. eauto.
Qed.

Lemma reachable_wf debug s : reachable debug s -> wf s.
Proof.
  intros [n Hn]. destruct (steps_inv debug n s Hn) as [L Hinv].
  by apply inv_wf in Hinv as [? _].
Qed.

(** A permitted operation is defined on every well-formed state: no
    undefined behaviour, and no loop runs out of fuel. *)
Lemma exec_defined debug o s :
  wf s -> permitted o s -> is_Some (exec debug o s).
Proof.
  intros Hwf Hperm.
  destruct (exec_transition debug o s _ (wf_inv s Hwf) Hperm)
    as (s' & L' & Hs' & _). eauto.
Qed.

Lemma exec_wf debug o s s' :
  wf s -> permitted o s -> exec debug o s = Some s' -> wf s'.
Proof.
  intros Hwf Hperm Hexec.
  destruct (exec_transition debug o s _ (wf_inv s Hwf) Hperm)
    as (s'' & L' & Hs'' & Hinv' & _).
  rewrite Hexec in Hs''. injection Hs'' as <-.
  by apply inv_wf in Hinv' as [? _].
Qed.

Lemma inv_size s L : inv s L -> size (pages s) = length (all_pages L).
Proof.
  intros Hinv. pose proof (inv_linked _ _ Hinv) as [_ Hnd].
  rewrite <- (size_list_to_set (C := gset nat) _ Hnd), <- size_dom.
  f_equal. apply set_eq. intros p.
  rewrite elem_of_dom, elem_of_list_to_set. apply (inv_dom _ _ Hinv).
Qed.

End reachability.

Section named_lists.
Implicit Types (s : LinearAllocator).

Lemma wf_named s :
  wf s -> inv s (mkL (unused_list s) (used_list s) (pending_list s)).
Proof. intros Hwf. eapply inv_ext; [|by apply wf_inv]. by intros []. Qed.

Lemma inv_named s lu lus lp :
  inv s (mkL lu lus lp) ->
  wf s /\ unused_list s = lu /\ used_list s = lus /\ pending_list s = lp.
Proof.
  intros [Hwf HL]%inv_wf. split; [done|].
  split; [apply (HL unusedPages)|].
  split; [apply (HL usedPages)|apply (HL pendingPages)].
Qed.

End named_lists.

(** * The constructor *)

Section construction.
Implicit Types (s : LinearAllocator).

Lemma preallocate_S count devs k s :
  preallocate (S count) devs k s =
  r ← GetNewPage (devs k) s;
  match r with
  | (Returned (Some _), s) => preallocate count devs (S k) s
  | (Returned None, s) => Some (Thrown (std_exception "Out of memory."), s)
  | (Thrown e, s) => Some (Thrown e, s)
  end.
Proof. reflexivity. Qed.

(** Each round of the preallocation loop is a [GetNewPage] step, so the
    allocator the constructor leaves, or leaves behind when it throws, is a
    reachable state. *)
Lemma preallocate_steps debug devs count : forall k n s r s',
  steps debug n s ->
  Z.of_nat (size (pages s)) + Z.of_nat count < 2 ^ 32 ->
  preallocate count devs k s = Some (r, s') ->
  reachable debug s'.
Proof.
  induction count as [|count IH]; intros k n s r s' Hn Hroom Hrun.
  - simpl in Hrun. injection Hrun as _ <-. by exists n.
  - rewrite preallocate_S in Hrun.
    pose proof (reachable_wf debug s (ex_intro _ n Hn)) as Hwf.
    pose proof (wf_named s Hwf) as Hinv.
    destruct (decide (devs k = DeviceOk)) as [Hdev|Hdev].
    + destruct (GetNewPage_ok s _ _ _ Hinv) as (s1 & Hs1 & _ & Hinv1 & _);
        [lia|].
      rewrite Hdev, Hs1 in Hrun. simpl in Hrun.
      apply (IH (S k) (S n) s1 r s'); [|
        |exact Hrun].
      * apply (steps_next debug n s (op_GetNewPage DeviceOk)); [done| |].
        -- split; [intros _; lia|done].
        -- unfold exec. by rewrite Hs1.
      * rewrite (inv_size _ _ Hinv1). rewrite (inv_size _ _ Hinv) in Hroom.
        unfold all_pages in *. simpl in *. lia.
    + rewrite (GetNewPage_failed _ s Hdev) in Hrun. simpl in Hrun.
      assert (s' = s) as ->.
      { destruct (devs k); try done; by injection Hrun as _ <-. }
      by exists n.
Qed.

Lemma LinearAllocator_ctor_reachable debug pageSize preallocateBytes devs r s :
  0 < pageSize < 2 ^ 64 ->
  size_t (preallocateBytes + pageSize - 1) / pageSize < 2 ^ 32 ->
  LinearAllocator_ctor pageSize preallocateBytes devs = Some (r, s) ->
  reachable debug s.
Proof.
  intros Hps Hcount Hctor. unfold LinearAllocator_ctor in Hctor.
  destruct (pageSize =? 0) eqn:Hz; [done|].
  assert (Hinit : steps debug 0 (LinearAllocator_init pageSize))
    by by apply steps_init.
  destruct (preallocateBytes =? 0).
  - injection Hctor as _ <-. by exists 0%nat.
  - eapply (preallocate_steps debug devs _ 0%nat 0%nat _ r s Hinit);
      [|exact Hctor].
    simpl. rewrite map_size_empty.
    assert (0 <= size_t (preallocateBytes + pageSize - 1) / pageSize).
    { apply Z.div_pos; [|lia]. unfold size_t. apply Z.mod_pos_bound. lia. }
    lia.
Qed.

(** A constructor given a page size in range returns or throws; it has no
    undefined behaviour. *)
Lemma LinearAllocator_ctor_defined pageSize preallocateBytes devs :
  0 < pageSize < 2 ^ 64 ->
  size_t (preallocateBytes + pageSize - 1) / pageSize < 2 ^ 32 ->
  is_Some (LinearAllocator_ctor pageSize preallocateBytes devs).
Proof.
  intros Hps Hcount. unfold LinearAllocator_ctor.
  destruct (pageSize =? 0) eqn:Hz; [lia|].
  destruct (preallocateBytes =? 0); [eauto|].
  assert (Hgen : forall count k n s,
    steps true n s ->
    Z.of_nat (size (pages s)) + Z.of_nat count < 2 ^ 32 ->
    is_Some (preallocate count devs k s)).
  { induction count as [|count IH]; intros k n s Hn Hroom; [simpl; eauto|].
    rewrite preallocate_S.
    pose proof (reachable_wf true s (ex_intro _ n Hn)) as Hwf.
    pose proof (wf_named s Hwf) as Hinv.
    destruct (decide (devs k = DeviceOk)) as [Hdev|Hdev].
    - destruct (GetNewPage_ok s _ _ _ Hinv) as (s1 & Hs1 & _ & Hinv1 & _);
        [lia|].
      rewrite Hdev, Hs1. simpl.
      apply (IH (S k) (S n) s1).
      + apply (steps_next true n s (op_GetNewPage DeviceOk)); [done| |].
        * split; [intros _; lia|done].
        * unfold exec. by rewrite Hs1.
      + rewrite (inv_size _ _ Hinv1). rewrite (inv_size _ _ Hinv) in Hroom.
        unfold all_pages in *. simpl in *. lia.
    - rewrite (GetNewPage_failed _ s Hdev). simpl.
      destruct (devs k); eauto. }
  apply (Hgen _ 0%nat 0%nat); [by apply steps_init|].
  simpl. rewrite map_size_empty.
  assert (0 <= size_t (preallocateBytes + pageSize - 1) / pageSize).
  { apply Z.div_pos; [|lia]. unfold size_t. apply Z.mod_pos_bound. lia. }
  lia.
Qed.

End construction.

(** * The claims *)

(** C1. [RetirePendingPages] returns, and for every page [p] of the pending
    list: [p] is moved to unused iff the completed value polled from its
    fence has reached its [mPendingFence]; a page moved is removed from
    pending, has [mOffset] reset to 0 and nothing else of its data changed,
    and is pushed on the head of unused (the pages moved end up in front of
    the old unused pages, the last one moved first); a page whose value is
    not reached stays in pending, in its place, with its data unchanged. *)
Theorem RetirePendingPages_returns_passed_pages completed s :
  wf s ->
  let passed p : Prop := fence_passed completed (pages s) p in
  exists s',
    RetirePendingPages completed s = Some s' /\
    unused_list s' = reverse (filter passed (pending_list s)) ++ unused_list s /\
    pending_list s' = filter (fun p => ~ passed p) (pending_list s) /\
    used_list s' = used_list s /\
    (forall p, p ∈ pending_list s ->
       (p ∈ unused_list s' <-> passed p) /\
       (passed p ->
          (p ∉ pending_list s') /\
          data_at (pages s') p = reset_offset <$> data_at (pages s) p) /\
       (~ passed p ->
          p ∈ pending_list s' /\ (p ∉ unused_list s') /\
          data_at (pages s') p = data_at (pages s) p)) /\
    (forall p, p ∉ pending_list s ->
       data_at (pages s') p = data_at (pages s) p).
Proof.
  intros Hwf passed. pose proof (wf_named s Hwf) as Hinv.
  destruct (RetirePendingPages_inv completed s _ _ _ Hinv)
    as (s' & Hs' & Hinv' & Hdat & _).
  fold passed in Hinv', Hdat.
  apply inv_named in Hinv' as (_ & Hu & Hus & Hp).
  pose proof (inv_linked _ _ Hinv) as [_ Hnd].
  exists s'. split; [done|]. split; [done|]. split; [done|]. split; [done|].
  split.
  - intros p Hpl.
    assert (Hnu : p ∉ unused_list s).
    { by apply (all_pages_disjoint _ pendingPages unusedPages p Hnd). }
    rewrite Hu, Hp, elem_of_app, elem_of_reverse, !list_elem_of_filter, Hdat.
    split; [tauto|]. split.
    + intros Hpass. rewrite decide_True by done. tauto.
    + intros Hpass. rewrite decide_False by tauto. tauto.
  - intros p Hpl. rewrite Hdat, decide_False; [done|tauto].
Qed.


(** * Alignment *)

Section alignment.

Lemma size_t_small z : 0 <= z < 2 ^ 64 -> size_t z = z.
Proof. intros. unfold size_t. apply Z.mod_small. lia. Qed.

Lemma mask_low y k :
  0 <= k < 64 -> 0 <= y < 2 ^ 64 ->
  Z.land y (size_t (Z.lnot (2 ^ k - 1))) = 2 ^ k * (y / 2 ^ k).
Proof.
  intros Hk Hy. unfold size_t.
  rewrite <- (Z.land_ones _ 64) by lia.
  rewrite (Z.land_comm (Z.lnot _)), Z.land_assoc.
  rewrite (Z.land_ones y 64) by lia. rewrite (Z.mod_small y) by lia.
  replace (2 ^ k - 1) with (Z.ones k) by (rewrite Z.ones_equiv; lia).
  rewrite <- Z.ldiff_land, Z.ldiff_ones_r by lia.
  rewrite Z.shiftr_div_pow2, Z.shiftl_mul_pow2 by lia. lia.
Qed.

Lemma AlignOffset_pow2 off k :
  0 <= k < 64 -> 0 <= off -> off + 2 ^ k <= 2 ^ 64 ->
  AlignOffset off (2 ^ k) = 2 ^ k * ((off + 2 ^ k - 1) / 2 ^ k).
Proof.
  intros Hk Hoff Hsum. assert (0 < 2 ^ k) by (apply Z.pow_pos_nonneg; lia).
  unfold AlignOffset. replace (0 <? 2 ^ k) with true by (symmetry; apply Z.ltb_lt; lia).
  rewrite (size_t_small (off + 2 ^ k - 1)) by lia.
  apply mask_low; lia.
Qed.

Lemma AlignOffset_spec off al :
  is_alignment al -> 0 <= off -> off + al <= 2 ^ 64 ->
  off <= AlignOffset off al < off + Z.max al 1 /\
  (0 < al -> AlignOffset off al mod al = 0) /\
  (al = 0 -> AlignOffset off al = off).
Proof.
  intros [->|(k & Hk & ->)] Hoff Hsum.
  - unfold AlignOffset. simpl. lia.
  - assert (Hpos : 0 < 2 ^ k) by (apply Z.pow_pos_nonneg; lia).
    rewrite AlignOffset_pow2 by lia.
    pose proof (Z.div_mod (off + 2 ^ k - 1) (2 ^ k) ltac:(lia)) as Hdm.
    pose proof (Z.mod_pos_bound (off + 2 ^ k - 1) (2 ^ k) Hpos) as Hb.
    split; [lia|]. split; [|lia].
    intros _. rewrite Z.mul_comm. apply Z.mod_mul. lia.
Qed.

End alignment.

(** C3. In a build that defines [_DEBUG], for an alignment that is zero or
    a power of two and as long as rounding the cursor up and adding the size
    do not overflow [size_t]: [Suballocate] aligns the cursor up to the
    alignment (none for 0), throws "Out of free memory in page suballoc" when
    the aligned offset plus the size exceeds [mSize], and otherwise returns
    the aligned offset and sets [mOffset] to the aligned offset plus the
    size, changing nothing else of the page. *)
Theorem Suballocate_debug_spec (sizeBytes alignment : Z) pg :
  is_alignment alignment ->
  0 <= mOffset pg -> 0 <= sizeBytes ->
  mOffset pg + alignment <= 2 ^ 64 ->
  exists aligned,
    (mOffset pg <= aligned < mOffset pg + Z.max alignment 1) /\
    (0 < alignment -> aligned mod alignment = 0) /\
    (alignment = 0 -> aligned = mOffset pg) /\
    (aligned + sizeBytes < 2 ^ 64 ->
     (mSize pg < aligned + sizeBytes ->
      Suballocate true sizeBytes alignment pg
      = Thrown (std_exception "Out of free memory in page suballoc")) /\
     (aligned + sizeBytes <= mSize pg ->
      Suballocate true sizeBytes alignment pg
      = Returned (aligned, set_mOffset (aligned + sizeBytes) pg))).
Proof.
  intros Hal Hoff Hsz Hsum.
  destruct (AlignOffset_spec (mOffset pg) alignment Hal Hoff Hsum)
    as (Hb & Hmod & Hzero).
  exists (AlignOffset (mOffset pg) alignment).
  split; [done|]. split; [done|]. split; [done|].
  intros Hno. unfold Suballocate. rewrite size_t_small by lia. simpl. split.
  - intros Hbig. by rewrite (proj2 (Z.ltb_lt _ _) Hbig).
  - intros Hfit. by rewrite (proj2 (Z.ltb_ge _ _) Hfit).
Qed.

(** In a build without [_DEBUG], [Suballocate] never throws. *)
Lemma Suballocate_release (sizeBytes alignment : Z) pg :
  Suballocate false sizeBytes alignment pg =
    Returned (AlignOffset (mOffset pg) alignment,
              set_mOffset
                (size_t (AlignOffset (mOffset pg) alignment + sizeBytes)) pg).
Proof. reflexivity. Qed.

(** * Running operations *)

Lemma run_steps debug ops :
  forall n s s',
    steps debug n s -> run debug ops s = Some s' ->
    steps debug (n + length ops) s'.
Proof.
  induction ops as [|o ops IH]; intros n s s' Hs Hrun; simpl in Hrun.
  - injection Hrun as <-. by rewrite Nat.add_0_r.
  - destruct (decide (permitted o s)) as [Hperm|]; [|done].
    destruct (exec debug o s) as [s1|] eqn:E; [|done]. simpl in Hrun.
    replace (n + length (o :: ops))%nat with (S n + length ops)%nat
      by (simpl; lia).
    eapply IH; [|exact Hrun]. by eapply steps_next.
Qed.

Lemma after_steps debug ops :
  is_Some (run debug ops (LinearAllocator_init 65536)) ->
  steps debug (length ops) (after debug ops).
Proof.
  intros [s Hs]. unfold after. rewrite Hs. simpl.
  apply (run_steps debug ops 0 (LinearAllocator_init 65536)); [|done].
  by apply steps_init.
Qed.

Lemma after_reachable debug ops :
  is_Some (run debug ops (LinearAllocator_init 65536)) ->
  reachable debug (after debug ops).
Proof. intros H. eexists. by apply after_steps. Qed.

(** The scenario of the specification: two allocations at offsets 0 and
    4096 in one page, a commit that makes the page pending, a retire that
    leaves it there while the fence has not completed, and one that makes
    it unused with its cursor at 0. *)
Example scenario_offsets :
  (mOffset <$> pages (after true two_allocations) !! 0%nat) = Some 8192 /\
  used_list (after true two_allocations) = [0%nat].
Proof. by vm_compute. Qed.

Example scenario_commit :
  let s := after true (two_allocations ++ [op_FenceCommittedPages]) in
  used_list s = [] /\ pending_list s = [0%nat] /\ signals s = [(0%nat, 1)].
Proof. by vm_compute. Qed.

Example scenario_retire_early :
  let s := after true (two_allocations ++
             [op_FenceCommittedPages; op_RetirePendingPages nothing_completed]) in
  pending_list s = [0%nat] /\ unused_list s = [].
Proof. by vm_compute. Qed.

Example scenario_retire :
  let s := after true (two_allocations ++
             [op_FenceCommittedPages; op_RetirePendingPages all_completed]) in
  pending_list s = [] /\ unused_list s = [0%nat] /\
  (mOffset <$> pages s !! 0%nat) = Some 0.
Proof. by vm_compute. Qed.

(** * Commit *)


(** C9. Within one call of [FenceCommittedPages] on an allocator that
    holds fewer than 2^32 pages, the ready pages are signalled in the order
    of the used list and end up in front of the pending list in the
    reverse of that order (each is pushed on the head of the ready chain);
    the value signalled for a page is the next 64-bit value after its own
    [mPendingFence], whatever the other pages hold. *)
Theorem FenceCommittedPages_pending_order s :
  wf s -> Z.of_nat (size (pages s)) < 2 ^ 32 ->
  let ready_pages := filter (fun p => page_ready (pages s) p) (used_list s) in
  exists s',
    FenceCommittedPages s = Some s' /\
    pending_list s' = reverse ready_pages ++ pending_list s /\
    signals s' =
      signals s ++
      map (fun p => (p, UINT64 (fence_at (pages s) p + 1))) ready_pages /\
    (forall p, p ∈ ready_pages ->
       fence_at (pages s') p = UINT64 (fence_at (pages s) p + 1)).
Proof.
  intros Hwf _ ready_pages. pose proof (wf_named s Hwf) as Hinv.
  destruct (FenceCommittedPages_inv s _ _ _ Hinv)
    as (s' & Hs' & Hinv' & Hdat & Hsg & _).
  apply inv_named in Hinv' as (_ & Hu & Hus & Hp).
  exists s'. split; [done|]. split; [done|]. split; [done|].
  intros p Hpr. pose proof Hpr as [Hr Hpl]%list_elem_of_filter.
  pose proof (Hdat p) as Hd. rewrite decide_True in Hd by done.
  destruct (linked_live s _ usedPages p (inv_linked _ _ Hinv) Hpl) as [pg Hpg].
  unfold data_at in Hd. unfold fence_at. rewrite Hpg in *.
  destruct (pages s' !! p) as [pg'|]; [|done].
  simpl in Hd. by injection Hd as Hf _ _ _.
Qed.

(** * Page acquisition *)

Lemma first_fit_Some s (sizeBytes alignment : Z) l p :
  first_fit s sizeBytes alignment l = Some p ->
  page_fits s sizeBytes alignment p /\
  exists l1 l2,
    l = l1 ++ p :: l2 /\
    forall q, q ∈ l1 -> ~ page_fits s sizeBytes alignment q.
Proof.
  unfold first_fit. intros H. split.
  - assert (Hin : p ∈ filter (fun q => page_fits s sizeBytes alignment q) l).
    { destruct (filter _ l); simplify_eq/=. left. }
    by apply list_elem_of_filter in Hin as [? _].
  - apply head_filter_Some in H as (l1 & l2 & -> & Hall).
    exists l1, l2. split; [done|]. by apply Forall_forall.
Qed.

Lemma first_fit_None s (sizeBytes alignment : Z) l :
  first_fit s sizeBytes alignment l = None ->
  forall q, q ∈ l -> ~ page_fits s sizeBytes alignment q.
Proof.
  unfold first_fit. intros H q Hq Hfit.
  assert (Hin : q ∈ filter (fun q => page_fits s sizeBytes alignment q) l)
    by (by apply list_elem_of_filter).
  destruct (filter _ l); [by apply elem_of_nil in Hin|done].
Qed.

Lemma GetPageForAlloc_outcome dev (sizeBytes alignment : Z) s :
  wf s -> permitted (op_FindPageForAlloc dev sizeBytes alignment) s ->
  let fast :=
    (sizeBytes =? m_increment s)
    && ((alignment =? 0) || (alignment =? m_increment s)) in
  match (if fast then None
         else first_fit s sizeBytes alignment (used_list s)) with
  | Some p =>
      GetPageForAlloc dev sizeBytes alignment s = Some (Returned (Some p), s) /\
      page_fits s sizeBytes alignment p /\
      exists l1 l2,
        used_list s = l1 ++ p :: l2 /\
        forall q, q ∈ l1 -> ~ page_fits s sizeBytes alignment q
  | None =>
      (fast = false ->
       forall q, q ∈ used_list s -> ~ page_fits s sizeBytes alignment q) /\
      match unused_list s with
      | p :: lu =>
          exists s',
            GetPageForAlloc dev sizeBytes alignment s
            = Some (Returned (Some p), s') /\
            unused_list s' = lu /\ used_list s' = p :: used_list s /\
            pending_list s' = pending_list s /\
            same_data (pages s) (pages s')
      | [] =>
          match dev with
          | DeviceOk =>
              exists p s',
                GetPageForAlloc dev sizeBytes alignment s
                = Some (Returned (Some p), s') /\
                pages s !! p = None /\
                data_at (pages s') p = Some (0, 0, m_increment s, 0) /\
                unused_list s' = [] /\ used_list s' = p :: used_list s /\
                pending_list s' = pending_list s /\
                (forall q, q <> p -> data_at (pages s') q = data_at (pages s) q)
          | MapFailed =>
              GetPageForAlloc dev sizeBytes alignment s
              = Some (Thrown com_exception, s)
          | _ =>
              GetPageForAlloc dev sizeBytes alignment s
              = Some (Returned None, s)
          end
      end
  end.
Proof.
  intros Hwf [Hroom _] fast. pose proof (wf_named s Hwf) as Hinv.
  rewrite (GetPageForAlloc_eq _ _ _ _ _ (inv_linked _ _ Hinv)).
  fold fast. simpl.
  assert (Hclean :
    match unused_list s with
    | p :: lu =>
        exists s',
          GetCleanPageForAlloc dev s = Some (Returned (Some p), s') /\
          unused_list s' = lu /\ used_list s' = p :: used_list s /\
          pending_list s' = pending_list s /\
          same_data (pages s) (pages s')
    | [] =>
        match dev with
        | DeviceOk =>
            exists p s',
              GetCleanPageForAlloc dev s = Some (Returned (Some p), s') /\
              pages s !! p = None /\
              data_at (pages s') p = Some (0, 0, m_increment s, 0) /\
              unused_list s' = [] /\ used_list s' = p :: used_list s /\
              pending_list s' = pending_list s /\
              (forall q, q <> p -> data_at (pages s') q = data_at (pages s) q)
        | MapFailed => GetCleanPageForAlloc dev s = Some (Thrown com_exception, s)
        | _ => GetCleanPageForAlloc dev s = Some (Returned None, s)
        end
    end).
  { destruct (unused_list s) as [|p lu] eqn:Eu.
    - destruct (decide (dev = DeviceOk)) as [->|Hdev].
      + destruct (GetClean_new s _ _ Hinv) as
          (s' & Hs' & Hp & Hinv' & Hdatp & Hdat & _).
        { apply Hroom. done. }
        apply inv_named in Hinv' as (_ & Hu' & Hus' & Hp').
        eexists _, s'. done.
      + pose proof (GetClean_failed dev s _ _ Hinv Hdev) as H.
        by destruct dev.
    - destruct (GetClean_unused dev s p lu _ _ Hinv)
        as (s' & Hs' & Hinv' & Hdat & _).
      apply inv_named in Hinv' as (_ & Hu' & Hus' & Hp').
      exists s'. done. }
  destruct fast.
  - split; [done|]. exact Hclean.
  - destruct (first_fit s sizeBytes alignment (used_list s)) as [p|] eqn:Efit.
    + split; [done|]. by apply first_fit_Some.
    + split; [intros _; by apply first_fit_None|]. exact Hclean.
Qed.

Section scan.
Implicit Types (s : LinearAllocator) (l : list nat) (p : nat).

Lemma AlignOffset_aligned_cursor (off al : Z) :
  is_alignment al -> 0 <= off -> off + al <= 2 ^ 64 ->
  AlignOffset off al = aligned_cursor off al.
Proof.
  intros [->|(k & Hk & ->)] Hoff Hsum; [done|].
  assert (0 < 2 ^ k) by (apply Z.pow_pos_nonneg; lia).
  unfold aligned_cursor. rewrite (proj2 (Z.eqb_neq _ _)) by lia.
  by apply AlignOffset_pow2.
Qed.

Lemma page_fits_has_space s (sizeBytes alignment : Z) p :
  wf s -> is_alignment alignment -> 0 <= sizeBytes ->
  scan_in_range s sizeBytes alignment p ->
  page_fits s sizeBytes alignment p = has_space s sizeBytes alignment p.
Proof.
  intros Hwf Hal Hsz Hscan. unfold page_fits, has_space, scan_in_range in *.
  destruct (pages s !! p) as [pg|] eqn:Hp; [|done].
  destruct Hscan as [H1 H2].
  pose proof (wf_pages s Hwf p pg Hp) as (Hs & _ & Hoff). simpl in Hs, Hoff.
  rewrite AlignOffset_aligned_cursor by (done || lia).
  assert (0 <= aligned_cursor (mOffset pg) alignment).
  { rewrite <- AlignOffset_aligned_cursor by (done || lia).
    destruct (AlignOffset_spec (mOffset pg) alignment Hal) as (Ha & _);
      lia. }
  rewrite size_t_small by lia. by rewrite Hs.
Qed.

Lemma filter_ext_elem (P Q : nat -> Prop) `{!forall x, Decision (P x)}
    `{!forall x, Decision (Q x)} l :
  (forall x, x ∈ l -> P x <-> Q x) -> filter P l = filter Q l.
Proof.
  induction l as [|x l IH]; intros Hext; [done|].
  assert (Hl : forall y, y ∈ l -> P y <-> Q y)
    by (intros y Hy; apply Hext; by right).
  destruct (decide (P x)) as [Hx|Hx].
  - rewrite !filter_cons_True by (done || by apply Hext; [left|]).
    f_equal. by apply IH.
  - rewrite !filter_cons_False; [by apply IH|..]; try done.
    intros HQ. apply Hx. apply Hext; [left|done].
Qed.

End scan.

(** C4. [GetPageForAlloc], for an alignment that is zero or a power of two
    and as long as the [size_t] sums of the scan do not overflow: when the
    size is the page capacity and the alignment is 0 or the capacity, a
    clean page is taken at once; otherwise the first page of the used list
    whose cursor, rounded up to the alignment, plus the size is within the
    capacity is returned, the pages before it having no room; when no used
    page has room a clean page is taken.  A clean page is the head of the
    unused list, or a new page when that list is empty, and it is moved to
    the head of the used list. *)
Theorem GetPageForAlloc_first_fit dev (sizeBytes alignment : Z) s :
  wf s -> permitted (op_FindPageForAlloc dev sizeBytes alignment) s ->
  is_alignment alignment ->
  Forall (scan_in_range s sizeBytes alignment) (used_list s) ->
  let fast :=
    (sizeBytes =? m_increment s)
    && ((alignment =? 0) || (alignment =? m_increment s)) in
  match (if fast then None
         else head (filter (fun p => has_space s sizeBytes alignment p)
                      (used_list s))) with
  | Some p =>
      GetPageForAlloc dev sizeBytes alignment s = Some (Returned (Some p), s) /\
      has_space s sizeBytes alignment p /\
      exists l1 l2,
        used_list s = l1 ++ p :: l2 /\
        forall q, q ∈ l1 -> ~ has_space s sizeBytes alignment q
  | None =>
      (fast = false ->
       forall q, q ∈ used_list s -> ~ has_space s sizeBytes alignment q) /\
      match unused_list s with
      | p :: lu =>
          exists s',
            GetPageForAlloc dev sizeBytes alignment s
            = Some (Returned (Some p), s') /\
            unused_list s' = lu /\ used_list s' = p :: used_list s /\
            pending_list s' = pending_list s /\
            same_data (pages s) (pages s')
      | [] =>
          match dev with
          | DeviceOk =>
              exists p s',
                GetPageForAlloc dev sizeBytes alignment s
                = Some (Returned (Some p), s') /\
                pages s !! p = None /\
                data_at (pages s') p = Some (0, 0, m_increment s, 0) /\
                unused_list s' = [] /\ used_list s' = p :: used_list s /\
                pending_list s' = pending_list s /\
                (forall q, q <> p -> data_at (pages s') q = data_at (pages s) q)
          | MapFailed =>
              GetPageForAlloc dev sizeBytes alignment s
              = Some (Thrown com_exception, s)
          | _ =>
              GetPageForAlloc dev sizeBytes alignment s
              = Some (Returned None, s)
          end
      end
  end.
Proof.
  intros Hwf Hperm Hal Hscan fast.
  pose proof Hperm as (_ & Hsz & _).
  rewrite Forall_forall in Hscan.
  assert (Heq : forall q, q ∈ used_list s ->
            page_fits s sizeBytes alignment q = has_space s sizeBytes alignment q).
  { intros q Hq. apply page_fits_has_space; try done; [lia|by apply Hscan]. }
  assert (Hfilter :
    filter (fun p => has_space s sizeBytes alignment p) (used_list s)
    = filter (fun p => page_fits s sizeBytes alignment p) (used_list s)).
  { apply filter_ext_elem. intros q Hq. by rewrite (Heq q Hq). }
  rewrite Hfilter. fold (first_fit s sizeBytes alignment (used_list s)).
  pose proof (GetPageForAlloc_outcome dev sizeBytes alignment s Hwf Hperm)
    as Hout. cbv zeta in Hout. fold fast in Hout.
  destruct (if fast then None else first_fit s sizeBytes alignment (used_list s))
    as [p|].
  - destruct Hout as (Hget & Hfit & l1 & l2 & Hused & Hbefore).
    assert (Hp : p ∈ used_list s).
    { rewrite Hused. apply elem_of_app. right. left. }
    split; [done|]. split; [by rewrite <- (Heq p Hp)|].
    exists l1, l2. split; [done|]. intros q Hq.
    rewrite <- Heq; [by apply Hbefore|].
    rewrite Hused. apply elem_of_app. by left.
  - destruct Hout as [Hnone Hclean]. split; [|exact Hclean].
    intros Hfast q Hq. rewrite <- (Heq q Hq). by apply Hnone.
Qed.

(** * Requests *)

(** In a [_DEBUG] build the cursor of a page never passes its size. *)
Lemma steps_cursor_bound n s :
  steps true n s ->
  forall p d, data_at (pages s) p = Some d -> d_offset d <= d_size d.
Proof.
  induction 1 as [pageSize Hps|n s o s' Hsteps IH Hperm Hexec].
  - intros p d. unfold data_at. simpl. by rewrite lookup_empty.
  - destruct (steps_inv _ _ _ Hsteps) as [L Hinv].
    destruct (exec_transition true o s L Hinv Hperm)
      as (s'' & L' & Hs'' & Hinv' & Htr).
    rewrite Hexec in Hs''. injection Hs'' as <-.
    intros p d' Hd'.
    pose proof (inv_ok _ _ Hinv' p d' Hd') as (Hsz' & _ & Hoff').
    pose proof (inv_increment _ _ Hinv') as Hinc'.
    destruct (data_at (pages s) p) as [d|] eqn:Hd.
    + pose proof (inv_ok _ _ Hinv p d Hd) as (Hsz & _ & Hoff).
      pose proof (tr_increment _ _ _ _ _ _ Htr) as Hi.
      destruct (tr_offset _ _ _ _ _ _ Htr p d d' Hd Hd')
        as [Ho|[(Ho & _)|(sz & al & _ & Ho & Hb)]].
      * rewrite Ho, Hsz', Hi, <- Hsz. by apply (IH p).
      * lia.
      * specialize (Hb eq_refl). lia.
    + destruct (tr_new _ _ _ _ _ _ Htr p d' Hd Hd') as [-> _].
      unfold d_offset, d_size in *. simpl in *. lia.
Qed.

Lemma AlignOffset_clean (alignment : Z) :
  is_alignment alignment -> 0 <= alignment <= 2 ^ 64 ->
  AlignOffset 0 alignment = 0.
Proof.
  intros Hal Hrange.
  destruct (AlignOffset_spec 0 alignment Hal) as (Hb & Hmod & Hz); try lia.
  destruct (decide (alignment = 0)) as [->|Hne]; [by apply Hz|].
  specialize (Hmod ltac:(lia)). rewrite Z.mod_small in Hmod; lia.
Qed.

Lemma has_room_intro (sizeBytes alignment : Z) pg :
  0 <= mOffset pg -> 0 <= sizeBytes ->
  mOffset pg <= AlignOffset (mOffset pg) alignment ->
  AlignOffset (mOffset pg) alignment + sizeBytes <= mSize pg ->
  mSize pg < 2 ^ 64 ->
  has_room sizeBytes alignment pg.
Proof.
  intros H0 H1 H2 H3 H4. split; [done|]. split; [done|].
  unfold Suballocate. rewrite size_t_small by lia. simpl.
  by rewrite (proj2 (Z.ltb_ge _ _) H3).
Qed.

Lemma FindPageForAlloc_debug_valid dev (sizeBytes alignment : Z) s :
  0 < sizeBytes <= m_increment s -> alignment <= m_increment s ->
  FindPageForAlloc true dev sizeBytes alignment s =
    r ← GetPageForAlloc dev sizeBytes alignment s;
    match r with
    | (Returned (Some page), s) => Some (Returned page, s)
    | (Returned None, s) => Some (Thrown (std_exception "Out of memory."), s)
    | (Thrown e, s) => Some (Thrown e, s)
    end.
Proof.
  intros [H0 H1] H2. unfold FindPageForAlloc. simpl andb.
  rewrite (proj2 (Z.ltb_ge _ _) H1), (proj2 (Z.ltb_ge _ _) H2).
  by replace (sizeBytes =? 0) with false by (symmetry; apply Z.eqb_neq; lia).
Qed.


(** * Shutdown *)

Section shutdown.
Implicit Types (s : LinearAllocator) (polls : nat -> nat -> Z).

Lemma retire_keeps_fences completed s s' (l : list nat) :
  (forall q, data_at (pages s') q =
     if decide (q ∈ l /\ fence_passed completed (pages s) q)
     then reset_offset <$> data_at (pages s) q
     else data_at (pages s) q) ->
  (forall c q, fence_passed c (pages s') q = fence_passed c (pages s) q) /\
  dom (pages s') = dom (pages s).
Proof.
  intros Hdat. split.
  - intros c q. apply fence_passed_reset. rewrite Hdat.
    destruct (decide _); auto.
  - apply set_eq. intros q. rewrite !elem_of_dom, <- !data_at_is_Some, Hdat.
    destruct (decide _); [by rewrite fmap_is_Some|done].
Qed.

Lemma wait_pending_spec polls rounds :
  forall k s lu lus lp,
    inv s (mkL lu lus lp) ->
    match wait_pending rounds polls k s with
    | Drained k' s' =>
        (k <= k' <= k + rounds)%nat /\
        dom (pages s') = dom (pages s) /\
        (exists lu', inv s' (mkL lu' lus [])) /\
        (forall p, p ∈ lp ->
           exists j, (k <= j < k')%nat /\ fence_passed (polls j) (pages s) p)
    | Spinning s' =>
        dom (pages s') = dom (pages s) /\
        exists lu' lp',
          inv s' (mkL lu' lus lp') /\ lp' <> [] /\
          forall p, p ∈ lp' ->
            p ∈ lp /\
            forall j, (k <= j < k + rounds)%nat ->
                      ~ fence_passed (polls j) (pages s) p
    | Fault => False
    end.
Proof.
  induction rounds as [|rounds IH]; intros k s lu lus lp Hinv.
  - simpl. destruct (m_pendingPages s) as [c|] eqn:Ehd.
    + split; [done|]. exists lu, lp. split; [done|]. split.
      * intros ->.
        pose proof (linked_dll _ _ (inv_linked _ _ Hinv) pendingPages) as H.
        simpl in H. unfold dll in H. simpl in H. congruence.
      * intros p Hp. split; [done|]. intros j Hj. lia.
    + pose proof (linked_dll _ _ (inv_linked _ _ Hinv) pendingPages) as H.
      simpl in H. rewrite Ehd in H. apply dll_None_nil in H. subst lp.
      split; [lia|]. split; [done|]. split; [eauto|].
      intros p Hp. by apply elem_of_nil in Hp.
  - simpl. destruct (m_pendingPages s) as [c|] eqn:Ehd.
    + destruct (RetirePendingPages_inv (polls k) s lu lus lp Hinv)
        as (s1 & Hs1 & Hinv1 & Hdat1 & _).
      rewrite Hs1.
      destruct (retire_keeps_fences _ _ _ _ Hdat1) as [Hfence Hdom].
      specialize (IH (S k) s1 _ _ _ Hinv1).
      destruct (wait_pending rounds polls (S k) s1) as [k' s'|s'|].
      * destruct IH as (Hk & Hdom' & Hinv' & Hseen).
        split; [lia|]. split; [congruence|]. split; [done|].
        intros p Hp.
        destruct (fence_passed (polls k) (pages s) p) eqn:Hpass.
        -- exists k. split; [lia|]. by rewrite Hpass.
        -- destruct (Hseen p) as (j & Hj & Hpj).
           { apply list_elem_of_filter. split; [rewrite Hpass; auto|done]. }
           exists j. split; [lia|]. by rewrite <- Hfence.
      * destruct IH as (Hdom' & lu' & lp' & Hinv' & Hne & Hnever).
        split; [congruence|]. exists lu', lp'. split; [done|]. split; [done|].
        intros p Hp. destruct (Hnever p Hp) as [Hin Hj].
        apply list_elem_of_filter in Hin as [Hnot Hin]. split; [done|].
        intros j Hjr. destruct (decide (j = k)) as [->|Hne'].
        -- done.
        -- rewrite <- Hfence. apply Hj. lia.
      * done.
    + pose proof (linked_dll _ _ (inv_linked _ _ Hinv) pendingPages) as H.
      simpl in H. rewrite Ehd in H. apply dll_None_nil in H. subst lp.
      split; [lia|]. split; [done|]. split; [eauto|].
      intros p Hp. by apply elem_of_nil in Hp.
Qed.

Lemma free_all_spec s lu lus :
  inv s (mkL lu lus []) ->
  exists s',
    LinearAllocator_free_all s = Some s' /\
    pages s' = ∅ /\ m_totalPages s' = 0 /\
    destroyed s' = created s' /\ created s' = created s /\
    m_unusedPages s' = None /\ m_usedPages s' = None /\
    m_pendingPages s' = None.
Proof.
  intros Hinv. pose proof (inv_linked _ _ Hinv) as Hlk.
  pose proof Hlk as [Hdll Hnd].
  unfold all_pages in Hnd. simpl in Hnd. rewrite app_nil_r in Hnd.
  pose proof Hnd as (Hnd_u & Hdisj & Hnd_us)%NoDup_app.
  pose proof (inv_size _ _ Hinv) as Hsize.
  unfold all_pages in Hsize. simpl in Hsize.
  rewrite app_nil_r, length_app in Hsize.
  pose proof (inv_total _ _ Hinv) as Htot.
  pose proof (inv_room _ _ Hinv) as Hroom.
  pose proof (inv_created _ _ Hinv) as Hcr.
  destruct (FreePages_loop_spec lu (chain_fuel s) s None (m_unusedPages s))
    as (s1 & Hs1 & Hpg1 & Hsz1 & Ht1 & Hd1 & Hc1 & Hi1 & Hsg1 & Hnp1 & Hhd1);
    try done.
  { apply (Hdll unusedPages). }
  { unfold chain_fuel. lia. }
  { lia. }
  destruct (FreePages_loop_spec lus (chain_fuel s1) s1 None (m_usedPages s1))
    as (s2 & Hs2 & Hpg2 & Hsz2 & Ht2 & Hd2 & Hc2 & Hi2 & Hsg2 & Hnp2 & Hhd2);
    try done.
  { pose proof (Hhd1 usedPages) as Hh. simpl in Hh. rewrite Hh.
    eapply dseg_frame; [|apply (Hdll usedPages)].
    intros q Hq. simpl in Hq. unfold links_at. rewrite Hpg1.
    rewrite decide_False; [done|]. intros Hq'. by apply (Hdisj q Hq'). }
  { unfold chain_fuel. lia. }
  { lia. }
  unfold LinearAllocator_free_all, FreePages. rewrite Hs1.
  cbv beta iota delta [mbind option_bind]. rewrite Hs2.
  cbv beta iota delta [mbind option_bind].
  eexists. split; [done|]. simpl.
  split; [|repeat split; try done; lia].
  apply map_empty. intros q. rewrite Hpg2, Hpg1.
  destruct (decide (q ∈ lus)) as [|Hq2]; [done|].
  destruct (decide (q ∈ lu)) as [|Hq1]; [done|].
  apply eq_None_not_Some. intros Hq%(inv_dom _ _ Hinv).
  unfold all_pages in Hq. simpl in Hq. rewrite app_nil_r, elem_of_app in Hq.
  tauto.
Qed.

End shutdown.

(** C6. The destructor first calls [RetirePendingPages] again and again
    and goes on only once the pending list is empty: while some pending
    page's fence has not been seen completed it is still in that loop and
    has freed no page; when the loop ends every page that was pending has
    been seen completed and no page has been freed yet; then all pages are
    freed, those of used included whatever their reference counts.  The
    destructor returns as soon as every pending page has been seen
    completed. *)
Theorem destructor_waits_then_frees rounds polls s :
  wf s ->
  match wait_pending rounds polls 0 s with
  | Drained k s1 =>
      (k <= rounds)%nat /\
      pending_list s1 = [] /\ dom (pages s1) = dom (pages s) /\
      (forall p, p ∈ pending_list s ->
         exists j, (j < k)%nat /\ fence_passed (polls j) (pages s) p) /\
      exists s',
        LinearAllocator_free_all s1 = Some s' /\
        LinearAllocator_dtor rounds polls s = Some s' /\
        pages s' = ∅ /\ m_totalPages s' = 0 /\
        destroyed s' = created s' /\
        m_unusedPages s' = None /\ m_usedPages s' = None /\
        m_pendingPages s' = None
  | Spinning s1 =>
      LinearAllocator_dtor rounds polls s = None /\
      pending_list s1 <> [] /\ dom (pages s1) = dom (pages s) /\
      (forall p, p ∈ pending_list s1 ->
         p ∈ pending_list s /\
         forall j, (j < rounds)%nat -> ~ fence_passed (polls j) (pages s) p)
  | Fault => False
  end /\
  ((forall p, p ∈ pending_list s ->
      exists j, (j < rounds)%nat /\ fence_passed (polls j) (pages s) p) ->
   is_Some (LinearAllocator_dtor rounds polls s)).
Proof.
  intros Hwf. pose proof (wf_named s Hwf) as Hinv.
  pose proof (wait_pending_spec polls rounds 0 s _ _ _ Hinv) as Hwait.
  unfold LinearAllocator_dtor.
  destruct (wait_pending rounds polls 0 s) as [k s1|s1|].
  - destruct Hwait as (Hk & Hdom & [lu' Hinv1] & Hseen).
    destruct (free_all_spec s1 _ _ Hinv1)
      as (s' & Hs' & Hpg & Ht & Hd & _ & Hu & Hus & Hp).
    apply inv_named in Hinv1 as (_ & _ & _ & Hp1).
    split; [|intros _; by rewrite Hs'].
    split; [lia|]. split; [done|]. split; [done|]. split.
    + intros p Hp'. destruct (Hseen p Hp') as (j & Hj & Hpass).
      exists j. split; [lia|done].
    + exists s'. done.
  - destruct Hwait as (Hdom & lu' & lp' & Hinv1 & Hne & Hnever).
    apply inv_named in Hinv1 as (_ & _ & _ & Hp1).
    split.
    + split; [done|]. split; [by rewrite Hp1|]. split; [done|].
      intros p Hp'. rewrite Hp1 in Hp'. destruct (Hnever p Hp') as [Hin Hj].
      split; [done|]. intros j Hjr. apply Hj. lia.
    + intros Hall. exfalso. destruct lp' as [|p lp']; [done|].
      destruct (Hnever p) as [Hin Hj]; [left|].
      destruct (Hall p Hin) as (j & Hjr & Hpass).
      apply (Hj j); [lia|done].
  - done.
Qed.

(** * The cursor of a page *)

(** C7. Across any operation whose arithmetic does not wrap around: a page
    that enters the used list has its cursor at 0; the cursor of a page
    that stays in the used list does not decrease; and a cursor goes from
    nonzero to 0 only on a page that leaves pending for unused. *)
Theorem cursor_lifecycle debug o s s' :
  wf s -> permitted o s -> no_overflow o s -> exec debug o s = Some s' ->
  forall p,
    (p ∉ used_list s -> p ∈ used_list s' ->
     mOffset <$> pages s' !! p = Some 0) /\
    (p ∈ used_list s -> p ∈ used_list s' ->
     exists pg pg',
       pages s !! p = Some pg /\ pages s' !! p = Some pg' /\
       mOffset pg <= mOffset pg') /\
    (forall pg pg',
       pages s !! p = Some pg -> pages s' !! p = Some pg' ->
       mOffset pg <> 0 -> mOffset pg' = 0 ->
       p ∈ pending_list s /\ p ∈ unused_list s').
Proof.
  intros Hwf Hperm Hno Hexec p.
  pose proof (wf_inv s Hwf) as Hinv.
  destruct (exec_transition debug o s _ Hinv Hperm)
    as (s'' & L' & Hs'' & Hinv' & Htr).
  rewrite Hexec in Hs''. injection Hs'' as <-.
  pose proof (proj2 (inv_wf _ _ Hinv')) as HL'.
  pose proof (inv_linked _ _ Hinv) as Hlk. pose proof Hlk as [_ Hnd].
  assert (Hsub : forall d d' sz al,
    data_at (pages s) p = Some d -> o = op_Suballocate p sz al ->
    d_offset d' = size_t (AlignOffset (d_offset d) al + sz) ->
    d_offset d <= d_offset d' /\ (d_offset d <> 0 -> d_offset d' <> 0)).
  { intros d d' sz al Hd -> Hoff. destruct Hperm as (_ & _ & Hsz & _).
    destruct Hno as [Hal Hno].
    unfold data_at in Hd. destruct (pages s !! p) as [pg|] eqn:Hpg; [|done].
    injection Hd as <-. destruct (Hno pg eq_refl) as [H1 H2].
    pose proof (wf_pages s Hwf p pg Hpg) as (_ & _ & Hrange).
    change (d_offset (page_data pg)) with (mOffset pg) in *.
    destruct (AlignOffset_spec (mOffset pg) al Hal) as (Ha & _ & _);
      [lia|lia|].
    rewrite size_t_small in Hoff by lia. lia. }
  split; [|split].
  - intros Hnot Hin. unfold used_list in Hin. rewrite (HL' usedPages) in Hin.
    destruct (linked_live s' L' usedPages p (inv_linked _ _ Hinv') Hin)
      as [pg' Hpg'].
    rewrite Hpg'. simpl. f_equal.
    assert (Hd' : data_at (pages s') p = Some (page_data pg')).
    { unfold data_at. by rewrite Hpg'. }
    change (d_offset (page_data pg') = 0).
    destruct (tr_used _ _ _ _ _ _ Htr p Hin) as [Hu|[Hu|Hnone]]; [done| |].
    + destruct (linked_live s _ unusedPages p Hlk Hu) as [pg Hpg].
      assert (Hd : data_at (pages s) p = Some (page_data pg)).
      { unfold data_at. by rewrite Hpg. }
      pose proof (inv_clean _ _ Hinv p _ Hu Hd) as H0.
      destruct (tr_offset _ _ _ _ _ _ Htr p _ _ Hd Hd')
        as [Ho|[(Ho & _)|(sz & al & -> & _)]]; [congruence|done|].
      by destruct Hperm as (_ & Hpu & _).
    + by destruct (tr_new _ _ _ _ _ _ Htr p _ Hnone Hd') as [-> _].
  - intros Hin Hin'.
    destruct (linked_live s _ usedPages p Hlk Hin) as [pg Hpg].
    unfold used_list in Hin'. rewrite (HL' usedPages) in Hin'.
    destruct (linked_live s' L' usedPages p (inv_linked _ _ Hinv') Hin')
      as [pg' Hpg'].
    exists pg, pg'. split; [done|]. split; [done|].
    assert (Hd : data_at (pages s) p = Some (page_data pg)).
    { unfold data_at. by rewrite Hpg. }
    assert (Hd' : data_at (pages s') p = Some (page_data pg')).
    { unfold data_at. by rewrite Hpg'. }
    change (d_offset (page_data pg) <= d_offset (page_data pg')).
    destruct (tr_offset _ _ _ _ _ _ Htr p _ _ Hd Hd')
      as [Ho|[(_ & Hpe & _)|(sz & al & Ho & Hoff & _)]].
    + lia.
    + exfalso. by apply (all_pages_disjoint _ usedPages pendingPages p Hnd).
    + by destruct (Hsub _ _ sz al Hd Ho Hoff) as [? _].
  - intros pg pg' Hpg Hpg' Hnz Hz.
    assert (Hd : data_at (pages s) p = Some (page_data pg)).
    { unfold data_at. by rewrite Hpg. }
    assert (Hd' : data_at (pages s') p = Some (page_data pg')).
    { unfold data_at. by rewrite Hpg'. }
    destruct (tr_offset _ _ _ _ _ _ Htr p _ _ Hd Hd')
      as [Ho|[(_ & Hpe & Hu)|(sz & al & Ho & Hoff & _)]].
    + unfold d_offset in Ho. simpl in Ho. congruence.
    + split; [done|]. unfold unused_list. by rewrite (HL' unusedPages).
    + exfalso. destruct (Hsub _ _ sz al Hd Ho Hoff) as [_ Hnz'].
      by apply Hnz'.
Qed.

(** * The fence counter of a page *)

Lemma steps_fence_bound debug n s :
  steps debug n s -> Z.of_nat n < 2 ^ 64 ->
  exists L, inv s L /\
    forall p d, data_at (pages s) p = Some d ->
      0 <= d_fence d <= Z.of_nat n /\ (p ∈ L pendingPages -> 1 <= d_fence d).
Proof.
  induction 1 as [pageSize Hps|n s o s' Hsteps IH Hperm Hexec]; intros Hn.
  - eexists. split; [by apply init_inv|].
    intros p d. unfold data_at. simpl. by rewrite lookup_empty.
  - destruct IH as (L & Hinv & Hf); [lia|].
    destruct (exec_transition debug o s L Hinv Hperm)
      as (s'' & L' & Hs'' & Hinv' & Htr).
    rewrite Hexec in Hs''. injection Hs'' as <-.
    exists L'. split; [done|]. intros p d' Hd'.
    destruct (data_at (pages s) p) as [d|] eqn:Hd.
    + destruct (Hf p d Hd) as [Hb Hpend].
      assert (Hbump : d_fence d' = UINT64 (d_fence d + 1) ->
                      1 <= d_fence d' <= Z.of_nat (S n)).
      { intros ->. unfold UINT64. rewrite Z.mod_small; lia. }
      destruct (tr_fence _ _ _ _ _ _ Htr p d d' Hd Hd')
        as [Hsame|(Hb' & _ & _)].
      * split; [lia|]. intros Hin.
        destruct (tr_pending _ _ _ _ _ _ Htr p Hin)
          as [Hold|(_ & d0 & d0' & H0 & H0' & Hb')].
        -- specialize (Hpend Hold). lia.
        -- rewrite Hd in H0. rewrite Hd' in H0'.
           injection H0 as <-. injection H0' as <-.
           specialize (Hbump Hb'). lia.
      * specialize (Hbump Hb'). split; [lia|]. intros _. lia.
    + destruct (tr_new _ _ _ _ _ _ Htr p d' Hd Hd') as [-> Hnp].
      unfold d_fence. simpl. split; [lia|]. done.
Qed.

(** As long as fewer than 2^64 operations have been performed on the
    allocator (so that no 64-bit fence counter has wrapped around), every
    page in the pending list has a nonzero [mPendingFence], which is what
    [RetirePendingPages] asserts; and a page created by an operation has
    [mPendingFence] 0 and is not pending. *)
Theorem pending_fence_nonzero debug n s :
  steps debug n s -> Z.of_nat n < 2 ^ 64 ->
  (forall p, p ∈ pending_list s ->
     exists pg, pages s !! p = Some pg /\ 0 < mPendingFence pg) /\
  (forall o s', permitted o s -> exec debug o s = Some s' ->
     forall p pg', pages s !! p = None -> pages s' !! p = Some pg' ->
       mPendingFence pg' = 0 /\ (p ∉ pending_list s')).
Proof.
  intros Hsteps Hn.
  destruct (steps_fence_bound debug n s Hsteps Hn) as (L & Hinv & Hf).
  pose proof (proj2 (inv_wf _ _ Hinv)) as HL. split.
  - intros p Hp. unfold pending_list in Hp. rewrite (HL pendingPages) in Hp.
    destruct (linked_live s L pendingPages p (inv_linked _ _ Hinv) Hp)
      as [pg Hpg].
    exists pg. split; [done|].
    destruct (Hf p (page_data pg)) as [_ H1].
    { unfold data_at. by rewrite Hpg. }
    specialize (H1 Hp). unfold d_fence in H1. simpl in H1. lia.
  - intros o s' Hperm Hexec p pg' Hnone Hpg'.
    destruct (exec_transition debug o s L Hinv Hperm)
      as (s'' & L' & Hs'' & Hinv' & Htr).
    rewrite Hexec in Hs''. injection Hs'' as <-.
    destruct (tr_new _ _ _ _ _ _ Htr p (page_data pg')) as [Hd Hnp].
    { unfold data_at. by rewrite Hnone. }
    { unfold data_at. by rewrite Hpg'. }
    split; [by injection Hd|].
    unfold pending_list. by rewrite (proj2 (inv_wf _ _ Hinv') pendingPages).
Qed.

(** * Wrapping the fence counter

    One page is allocated whole, committed and retired, again and again:
    after [n] rounds its [mPendingFence] is [n] modulo 2^64. *)

Section fence_cycle.
Variable debug : bool.
Implicit Types (s : LinearAllocator) (p : nat) (f : Z).








End fence_cycle.

(** * Instances and counterexamples *)


Lemma RetirePendingPages_returns_passed_pages_witness :
  let s := after true (two_allocations ++ [op_FenceCommittedPages]) in
  wf s /\
  exists s',
    RetirePendingPages all_completed s = Some s' /\
    unused_list s' =
      reverse (filter (fun p => fence_passed all_completed (pages s) p)
                 (pending_list s)) ++ unused_list s.
Proof.
  intros s.
  assert (Hwf : wf s) by (apply (reachable_wf true), after_reachable; runs).
  split; [exact Hwf|].
  destruct (RetirePendingPages_returns_passed_pages all_completed s Hwf)
    as (s' & H1 & H2 & _).
  exists s'. split; [exact H1|exact H2].
Defined.


Lemma Suballocate_debug_spec_witness :
  let pg := Page None None 0 4096 65536 0 in
  is_alignment 256 /\ 0 <= mOffset pg /\ 0 <= 4096 /\
  mOffset pg + 256 <= 2 ^ 64 /\
  exists aligned,
    mOffset pg <= aligned < mOffset pg + Z.max 256 1 /\
    (0 < 256 -> aligned mod 256 = 0).
Proof.
  intros pg.
  assert (Hal : is_alignment 256).
  { right. exists 8. split; [lia|reflexivity]. }
  assert (H1 : 0 <= mOffset pg) by (simpl; lia).
  assert (H2 : 0 <= 4096) by lia.
  assert (H3 : mOffset pg + 256 <= 2 ^ 64) by (simpl; lia).
  split; [exact Hal|]. split; [exact H1|]. split; [exact H2|].
  split; [exact H3|].
  destruct (Suballocate_debug_spec 4096 256 pg Hal H1 H2 H3)
    as (aligned & Ha & Hm & _).
  exists aligned. split; [exact Ha|exact Hm].
Defined.

(** Without [_DEBUG] a full page hands out bytes past its end; and with
    [_DEBUG] a size close to 2^64 wraps the sum around, passes the check
    and moves the cursor backwards. *)
Lemma Suballocate_unchecked :
  (let full := Page None None 0 65536 65536 0 in
   Suballocate false 16 0 full = Returned (65536, set_mOffset 65552 full) /\
   mSize full < 65536 + 16) /\
  (let pg := Page None None 0 16 65536 0 in
   Suballocate true (2 ^ 64 - 8) 0 pg = Returned (16, set_mOffset 8 pg) /\
   mSize pg < 16 + (2 ^ 64 - 8)).
Proof. split; (split; [vm_compute; reflexivity|simpl; lia]). Qed.

Lemma GetPageForAlloc_first_fit_witness :
  let s := after true two_allocations in
  wf s /\ permitted (op_FindPageForAlloc DeviceOk 4096 256) s /\
  is_alignment 256 /\ Forall (scan_in_range s 4096 256) (used_list s) /\
  has_space s 4096 256 0 = true /\
  GetPageForAlloc DeviceOk 4096 256 s = Some (Returned (Some 0%nat), s).
Proof.
  intros s.
  assert (Hwf : wf s) by (apply (reachable_wf true), after_reachable; runs).
  assert (Hperm : permitted (op_FindPageForAlloc DeviceOk 4096 256) s)
    by by_computation.
  assert (Hal : is_alignment 256)
    by (right; exists 8; split; [lia|reflexivity]).
  assert (Hscan : Forall (scan_in_range s 4096 256) (used_list s)).
  { replace (used_list s) with [0%nat] by (vm_compute; reflexivity).
    apply Forall_cons. split; [|apply Forall_nil_2].
    vm_compute. split; [discriminate|reflexivity]. }
  split; [exact Hwf|]. split; [exact Hperm|]. split; [exact Hal|].
  split; [exact Hscan|]. split; [vm_compute; reflexivity|].
  pose proof (GetPageForAlloc_first_fit DeviceOk 4096 256 s Hwf Hperm Hal Hscan)
    as H.
  cbv zeta in H.
  replace (4096 =? m_increment s) with false in H by (vm_compute; reflexivity).
  replace (filter (fun p => has_space s 4096 256 p) (used_list s))
    with [0%nat] in H by (vm_compute; reflexivity).
  destruct H as [H _]. exact H.
Defined.

(** The test of the scan is made on [size_t] sums: a request of
    2^64 - 4096 bytes is answered with a page in use whose cursor is at
    8192, in which 61440 bytes are free. *)
Lemma GetPageForAlloc_wrapped_fit :
  let s := after false two_allocations in
  reachable false s /\
  permitted (op_FindPageForAlloc DeviceOk (2 ^ 64 - 4096) 0) s /\
  used_list s = [0%nat] /\
  pages s !! 0%nat = Some (Page None None 0 8192 65536 0) /\
  GetPageForAlloc DeviceOk (2 ^ 64 - 4096) 0 s = Some (Returned (Some 0%nat), s) /\
  has_space s (2 ^ 64 - 4096) 0 0 = false /\
  65536 < aligned_cursor 8192 0 + (2 ^ 64 - 4096).
Proof.
  intros s.
  split; [apply after_reachable; runs|].
  split; [by_computation|].
  repeat (match goal with |- _ /\ _ => split end); vm_compute; reflexivity.
Qed.



Lemma destructor_waits_then_frees_witness :
  let s := after true (two_allocations ++ [op_FenceCommittedPages]) in
  wf s /\
  ((forall p, p ∈ pending_list s ->
      exists j, (j < 5)%nat /\
                fence_passed (completes_in_round_2 j) (pages s) p) ->
   is_Some (LinearAllocator_dtor 5 completes_in_round_2 s)).
Proof.
  intros s.
  assert (Hwf : wf s) by (apply (reachable_wf true), after_reachable; runs).
  split; [exact Hwf|].
  destruct (destructor_waits_then_frees 5 completes_in_round_2 s Hwf)
    as [_ H].
  exact H.
Defined.

Lemma cursor_lifecycle_witness :
  let s := after true two_allocations in
  let o := op_Suballocate 0 4096 256 in
  let s' := after true (two_allocations ++ [o]) in
  wf s /\ permitted o s /\ no_overflow o s /\ exec true o s = Some s' /\
  exists pg pg',
    pages s !! 0%nat = Some pg /\ pages s' !! 0%nat = Some pg' /\
    mOffset pg <= mOffset pg'.
Proof.
  intros s o s'.
  assert (Hwf : wf s) by (apply (reachable_wf true), after_reachable; runs).
  assert (Hperm : permitted o s) by by_computation.
  assert (Hno : no_overflow o s).
  { split; [right; exists 8; split; [lia|reflexivity]|].
    intros pg Hpg. vm_compute in Hpg. injection Hpg as <-. by vm_compute. }
  assert (Hexec : exec true o s = Some s') by (vm_compute; reflexivity).
  split; [exact Hwf|]. split; [exact Hperm|]. split; [exact Hno|].
  split; [exact Hexec|].
  destruct (cursor_lifecycle true o s s' Hwf Hperm Hno Hexec 0%nat)
    as (_ & H & _).
  apply H; by_computation.
Defined.

(** Without [_DEBUG], a request of 2^64 - 4096 bytes is given the page in
    use whose cursor is at 8192, and [Suballocate] moves that cursor back
    to 4096. *)
Lemma cursor_wraps_around :
  let s := after false two_allocations in
  let o := op_Suballocate 0 (2 ^ 64 - 4096) 0 in
  let s' := after false (two_allocations ++ [o]) in
  reachable false s /\
  FindPageForAlloc false DeviceOk (2 ^ 64 - 4096) 0 s = Some (Returned 0%nat, s) /\
  permitted o s /\ exec false o s = Some s' /\
  used_list s = [0%nat] /\ used_list s' = [0%nat] /\
  mOffset <$> pages s !! 0%nat = Some 8192 /\
  mOffset <$> pages s' !! 0%nat = Some 4096.
Proof.
  intros s o s'.
  split; [apply after_reachable; runs|].
  split; [vm_compute; reflexivity|].
  split; [by_computation|].
  repeat (match goal with |- _ /\ _ => split end); vm_compute; reflexivity.
Qed.

Lemma FenceCommittedPages_pending_order_witness :
  let s := after true two_whole_pages in
  wf s /\ Z.of_nat (size (pages s)) < 2 ^ 32 /\
  exists s',
    FenceCommittedPages s = Some s' /\
    pending_list s' =
      reverse (filter (fun p => page_ready (pages s) p) (used_list s))
        ++ pending_list s.
Proof.
  intros s.
  assert (Hwf : wf s) by (apply (reachable_wf true), after_reachable; runs).
  assert (Hroom : Z.of_nat (size (pages s)) < 2 ^ 32)
    by (vm_compute; reflexivity).
  split; [exact Hwf|]. split; [exact Hroom|].
  destruct (FenceCommittedPages_pending_order s Hwf Hroom)
    as (s' & H1 & H2 & _).
  exists s'. split; [exact H1|exact H2].
Defined.

(** Page 1 is before page 0 in the used list; both are ready; after the
    commit page 0 is before page 1 in the pending list. *)
Lemma FenceCommittedPages_reverses_order :
  let s := after true two_whole_pages in
  reachable true s /\
  used_list s = [1%nat; 0%nat] /\
  page_ready (pages s) 1 = true /\ page_ready (pages s) 0 = true /\
  pending_list <$> FenceCommittedPages s = Some [0%nat; 1%nat].
Proof.
  intros s. split; [apply after_reachable; runs|].
  repeat (match goal with |- _ /\ _ => split end); vm_compute; reflexivity.
Qed.

Lemma pending_fence_nonzero_witness :
  let s := after true (two_allocations ++ [op_FenceCommittedPages]) in
  steps true 5 s /\ Z.of_nat 5 < 2 ^ 64 /\
  (forall p, p ∈ pending_list s ->
     exists pg, pages s !! p = Some pg /\ 0 < mPendingFence pg).
Proof.
  intros s.
  assert (Hs : steps true 5 s)
    by (apply (after_steps true (two_allocations ++ [op_FenceCommittedPages]));
        runs).
  assert (Hn : Z.of_nat 5 < 2 ^ 64) by (by vm_compute).
  split; [exact Hs|]. split; [exact Hn|].
  destruct (pending_fence_nonzero true 5 s Hs Hn) as [H _]. exact H.
Defined.



(** * The functions behind the operations *)

Section align.

(** X1. For an alignment that is a power of two, and an offset that can be
    rounded up without overflow, [AlignOffset] returns the least multiple
    of the alignment that is not below the offset; it leaves an aligned
    offset alone, and so is idempotent.  With alignment 0 it returns the
    offset. *)
Theorem AlignOffset_least_multiple (off al : Z) :
  is_alignment al -> 0 <= off -> off + al <= 2 ^ 64 ->
  (al = 0 -> AlignOffset off al = off) /\
  (0 < al ->
   AlignOffset off al mod al = 0 /\
   (off <= AlignOffset off al < off + al) /\
   (forall m, off <= m -> m mod al = 0 -> AlignOffset off al <= m) /\
   (off mod al = 0 -> AlignOffset off al = off) /\
   AlignOffset (AlignOffset off al) al = AlignOffset off al).
Proof.
  intros Hal Hoff Hsum.
  destruct (AlignOffset_spec off al Hal Hoff Hsum) as (Hb & Hmod & Hz).
  split; [exact Hz|]. intros Hpos. specialize (Hmod Hpos).
  assert (Hleast : forall o, 0 <= o -> o + al <= 2 ^ 64 ->
            forall m, o <= m -> m mod al = 0 -> AlignOffset o al <= m).
  { intros o Ho Hosum m Hm Hmm.
    destruct (AlignOffset_spec o al Hal Ho Hosum) as (Hb' & Hmod' & _).
    specialize (Hmod' Hpos).
    apply Z.mod_divide in Hmm; [|lia]. destruct Hmm as [q ->].
    apply Z.mod_divide in Hmod'; [|lia]. destruct Hmod' as [c Hc].
    rewrite Z.max_l in Hb' by lia. rewrite Hc in *.
    assert (c < q + 1) by nia. nia. }
  assert (Hfix : forall o, 0 <= o -> o + al <= 2 ^ 64 -> o mod al = 0 ->
            AlignOffset o al = o).
  { intros o Ho Hosum Hom.
    pose proof (Hleast o Ho Hosum o ltac:(lia) Hom).
    destruct (AlignOffset_spec o al Hal Ho Hosum) as (Hb' & _). lia. }
  rewrite Z.max_l in Hb by lia.
  split; [exact Hmod|]. split; [lia|]. split; [by apply Hleast|].
  split; [by apply Hfix|].
  apply Hfix; [lia| |exact Hmod].
  destruct Hal as [->|(k & Hk & ->)]; [lia|].
  assert (H64 : 2 ^ 64 mod 2 ^ k = 0).
  { replace 64 with (k + (64 - k)) by lia.
    rewrite Z.pow_add_r by lia. rewrite Z.mul_comm. apply Z.mod_mul. lia. }
  apply Z.mod_divide in Hmod; [|lia]. destruct Hmod as [c Hc].
  apply Z.mod_divide in H64; [|lia]. destruct H64 as [d Hd].
  rewrite Hc in *. assert (c < d) by nia. nia.
Qed.

Lemma AlignOffset_least_multiple_witness :
  AlignOffset 4097 256 mod 256 = 0 /\
  (4097 <= AlignOffset 4097 256 < 4097 + 256).
Proof.
  assert (Hal : is_alignment 256).
  { right. exists 8. split; [lia|reflexivity]. }
  destruct (AlignOffset_least_multiple 4097 256 Hal ltac:(lia) ltac:(lia))
    as [_ H].
  destruct (H ltac:(lia)) as (H1 & H2 & _).
  split; [exact H1|exact H2].
Defined.

(** X2. When rounding the offset up to a power of two would reach 2^64 or
    more, the [size_t] sum wraps around and [AlignOffset] returns 0, an
    offset below the one it was given. *)
Theorem AlignOffset_wraps_to_zero (off k : Z) :
  0 <= k < 64 -> 0 <= off < 2 ^ 64 -> 2 ^ 64 < off + 2 ^ k ->
  AlignOffset off (2 ^ k) = 0.
Proof.
  intros Hk Hoff Hwrap.
  assert (Hpos : 0 < 2 ^ k) by (apply Z.pow_pos_nonneg; lia).
  assert (Hle : 2 ^ k <= 2 ^ 64) by (apply Z.pow_le_mono_r; lia).
  unfold AlignOffset. rewrite (proj2 (Z.ltb_lt _ _) Hpos).
  assert (Hy : size_t (off + 2 ^ k - 1) = off + 2 ^ k - 1 - 2 ^ 64).
  { unfold size_t. symmetry. apply (Z.mod_unique _ _ 1); lia. }
  rewrite Hy, mask_low by lia.
  rewrite Z.div_small by lia. lia.
Qed.

Lemma AlignOffset_wraps_to_zero_witness :
  AlignOffset (2 ^ 64 - 100) (2 ^ 8) = 0.
Proof.
  apply (AlignOffset_wraps_to_zero (2 ^ 64 - 100) 8); lia.
Defined.

End align.

(** * Moving pages between the lists *)

Section moving.
Implicit Types (s : LinearAllocator) (l : list nat) (p : nat).

Lemma wf_linked s : wf s -> linked s (fun r => page_list r s).
Proof. intros Hwf. apply (inv_linked _ _ (wf_inv s Hwf)). Qed.

Lemma linked_lists s L r : linked s L -> page_list r s = L r.
Proof. apply linked_page_list. Qed.

(** X3. [UnlinkPage] takes a page out of the list that holds it, wherever
    it stands there: the list keeps its other pages in order, the two other
    lists are as before, the page is left with both links null and in no
    list, and no page's cursor, size, fence value or count changes. *)
Theorem UnlinkPage_removes_page s r l1 p l2 :
  wf s -> page_list r s = l1 ++ p :: l2 ->
  exists s',
    UnlinkPage p s = Some s' /\
    page_list r s' = l1 ++ l2 /\
    (forall r', r' <> r -> page_list r' s' = page_list r' s) /\
    links_at (pages s') p = Some (None, None) /\
    (forall r', p ∉ page_list r' s') /\
    same_data (pages s) (pages s').
Proof.
  intros Hwf Hr. pose proof (wf_linked s Hwf) as Hlk.
  destruct (UnlinkPage_spec s _ r l1 p l2 Hlk Hr)
    as (s' & pg' & Hs' & Hlk' & Hp' & Hpv & Hnx & Hdat & _).
  assert (HL' : forall r', page_list r' s' =
            if decide (r' = r) then l1 ++ l2 else page_list r' s).
  { intros r'. rewrite (linked_lists s' _ r' Hlk').
    destruct (decide (r' = r)) as [->|Hne].
    - by rewrite fn_lookup_insert.
    - by rewrite fn_lookup_insert_ne. }
  exists s'. split; [done|]. split; [|split; [|split; [|split]]].
  - rewrite HL'. by rewrite decide_True.
  - intros r' Hne. rewrite HL'. by rewrite decide_False.
  - unfold links_at. rewrite Hp'. simpl. by rewrite Hpv, Hnx.
  - intros r' Hin.
    pose proof (all_pages_remove (fun r0 => page_list r0 s) r l1 p l2 Hr)
      as Hperm.
    destruct Hlk as [_ Hnd]. rewrite Hperm in Hnd.
    apply NoDup_cons in Hnd as [Hnotin _]. apply Hnotin.
    apply elem_of_all_pages. exists r'.
    rewrite <- (linked_lists s' _ r' Hlk'). exact Hin.
  - done.
Qed.

Lemma UnlinkPage_removes_page_witness :
  let s := after true two_whole_pages in
  wf s /\ page_list usedPages s = [1%nat] ++ 0%nat :: [] /\
  exists s',
    UnlinkPage 0 s = Some s' /\ page_list usedPages s' = [1%nat] ++ [].
Proof.
  intros s.
  assert (Hwf : wf s) by (apply (reachable_wf true), after_reachable; runs).
  assert (Hr : page_list usedPages s = [1%nat] ++ 0%nat :: [])
    by (vm_compute; reflexivity).
  split; [exact Hwf|]. split; [exact Hr|].
  destruct (UnlinkPage_removes_page s usedPages [1%nat] 0%nat [] Hwf Hr)
    as (s' & H1 & H2 & _).
  exists s'. split; [exact H1|exact H2].
Defined.

(** X4. [UnlinkPage] followed by [LinkPage], as [GetCleanPageForAlloc] and
    [ReleasePage] call them, moves a page from any place in the list that
    holds it to the head of the list given, which may be the same list;
    the other pages keep their lists and their order, and no page's data
    changes. *)
Theorem UnlinkPage_LinkPage_moves_to_head s r r' l1 p l2 :
  wf s -> page_list r s = l1 ++ p :: l2 ->
  exists s1 s2,
    UnlinkPage p s = Some s1 /\ LinkPage p r' s1 = Some s2 /\
    page_list r' s2 = p :: (if decide (r' = r) then l1 ++ l2 else page_list r' s) /\
    (forall r'', r'' <> r' ->
       page_list r'' s2 = if decide (r'' = r) then l1 ++ l2 else page_list r'' s) /\
    same_data (pages s) (pages s2).
Proof.
  intros Hwf Hr. pose proof (wf_linked s Hwf) as Hlk.
  destruct (UnlinkPage_spec s _ r l1 p l2 Hlk Hr)
    as (s1 & pg1 & Hs1 & Hlk1 & Hp1 & Hpv & _ & Hdat1 & _).
  set (L1 := <[r := l1 ++ l2]> (fun r0 => page_list r0 s)) in *.
  assert (HpL1 : p ∉ all_pages L1).
  { pose proof (all_pages_remove (fun r0 => page_list r0 s) r l1 p l2 Hr)
      as Hperm. fold L1 in Hperm.
    destruct Hlk as [_ Hnd]. rewrite Hperm in Hnd.
    by apply NoDup_cons in Hnd as [? _]. }
  destruct (LinkPage_spec s1 L1 r' p pg1 Hlk1 HpL1 Hp1 Hpv)
    as (s2 & Hs2 & Hlk2 & Hdat2 & _).
  assert (HL1 : forall r0, L1 r0 =
            if decide (r0 = r) then l1 ++ l2 else page_list r0 s).
  { intros r0. unfold L1. destruct (decide (r0 = r)) as [->|Hne].
    - by rewrite fn_lookup_insert.
    - by rewrite fn_lookup_insert_ne. }
  exists s1, s2. split; [done|]. split; [done|]. split; [|split].
  - rewrite (linked_lists s2 _ r' Hlk2), fn_lookup_insert. by rewrite HL1.
  - intros r'' Hne.
    rewrite (linked_lists s2 _ r'' Hlk2), fn_lookup_insert_ne by done.
    apply HL1.
  - by apply (same_data_trans _ (pages s1)).
Qed.

Lemma UnlinkPage_LinkPage_moves_to_head_witness :
  let s := after true two_whole_pages in
  wf s /\ page_list usedPages s = [1%nat] ++ 0%nat :: [] /\
  exists s1 s2,
    UnlinkPage 0 s = Some s1 /\ LinkPage 0 unusedPages s1 = Some s2 /\
    page_list unusedPages s2 = [0%nat].
Proof.
  intros s.
  assert (Hwf : wf s) by (apply (reachable_wf true), after_reachable; runs).
  assert (Hr : page_list usedPages s = [1%nat] ++ 0%nat :: [])
    by (vm_compute; reflexivity).
  split; [exact Hwf|]. split; [exact Hr|].
  destruct (UnlinkPage_LinkPage_moves_to_head s usedPages unusedPages
              [1%nat] 0%nat [] Hwf Hr) as (s1 & s2 & H1 & H2 & H3 & _).
  exists s1, s2. split; [exact H1|]. split; [exact H2|].
  rewrite H3. vm_compute. reflexivity.
Defined.

(** X5. [LinkPageChain] walks to the last page of a chain that no list
    holds and puts the whole chain, in its order, in front of the list
    given; the two other lists and every page's data are as before. *)
Theorem LinkPageChain_prepends_chain s L r c lc :
  linked s L -> lc <> [] -> dll (pages s) (Some c) lc -> NoDup lc ->
  (forall q, q ∈ lc -> q ∉ all_pages L) ->
  exists s',
    LinkPageChain c r s = Some s' /\
    page_list r s' = lc ++ page_list r s /\
    (forall r', r' <> r -> page_list r' s' = page_list r' s) /\
    same_data (pages s) (pages s').
Proof.
  intros Hlk Hne Hc Hnd Hdisj.
  destruct (LinkPageChain_spec s L r c lc Hlk Hne Hc Hnd Hdisj)
    as (s' & Hs' & Hlk' & Hdat & _).
  exists s'. split; [done|]. split; [|split; [|done]].
  - rewrite (linked_lists s' _ r Hlk'), fn_lookup_insert.
    by rewrite (linked_lists s L r Hlk).
  - intros r' Hr'.
    rewrite (linked_lists s' _ r' Hlk'), fn_lookup_insert_ne by done.
    by rewrite (linked_lists s L r' Hlk).
Qed.

Lemma LinkPageChain_prepends_chain_witness :
  linked two_chained_pages (fun _ => []) /\
  dll (pages two_chained_pages) (Some 0%nat) [0%nat; 1%nat] /\
  exists s',
    LinkPageChain 0 pendingPages two_chained_pages = Some s' /\
    page_list pendingPages s' =
      [0%nat; 1%nat] ++ page_list pendingPages two_chained_pages.
Proof.
  assert (Hlk : linked two_chained_pages (fun _ => [])).
  { split; [intros []; reflexivity|apply NoDup_nil_2]. }
  assert (Hne : [0%nat; 1%nat] <> []) by discriminate.
  assert (Hc : dll (pages two_chained_pages) (Some 0%nat) [0%nat; 1%nat]).
  { vm_compute. tauto. }
  assert (Hnd : NoDup [0%nat; 1%nat]) by by_computation.
  assert (Hdisj : forall q, q ∈ [0%nat; 1%nat] ->
            q ∉ all_pages (fun _ : PageList => @nil nat)).
  { intros q _ H. by apply elem_of_nil in H. }
  split; [exact Hlk|]. split; [exact Hc|].
  destruct (LinkPageChain_prepends_chain two_chained_pages _ pendingPages
              0%nat [0%nat; 1%nat] Hlk Hne Hc Hnd Hdisj) as (s' & H1 & H2 & _).
  exists s'. split; [exact H1|exact H2].
Defined.

End moving.

(** * The count of pending pages *)

Section pending_count.
Implicit Types (s : LinearAllocator) (l : list nat) (p : nat).

Lemma update_page_numPending p f s s' :
  update_page p f s = Some s' -> m_numPending s' = m_numPending s.
Proof.
  unfold update_page. destruct (pages s !! p); simpl; [|done].
  by intros [= <-].
Qed.

Lemma update_if_page_numPending q f s s' :
  update_if_page q f s = Some s' -> m_numPending s' = m_numPending s.
Proof.
  destruct q as [p|]; simpl; [apply update_page_numPending|by intros [= <-]].
Qed.

Lemma UnlinkPage_numPending p s s' :
  UnlinkPage p s = Some s' -> m_numPending s' = m_numPending s.
Proof.
  unfold UnlinkPage. intros H.
  apply bind_Some in H as (pg & _ & H).
  apply bind_Some in H as (s1 & H1 & H).
  apply bind_Some in H as (pg1 & _ & H).
  apply bind_Some in H as (s2 & H2 & H).
  apply update_page_numPending in H. apply update_if_page_numPending in H2.
  rewrite H, H2.
  destruct (pPrevPage pg); [by apply update_page_numPending in H1|].
  repeat case_decide; by injection H1 as <-.
Qed.

Lemma LinkPage_numPending p r s s' :
  LinkPage p r s = Some s' -> m_numPending s' = m_numPending s.
Proof.
  unfold LinkPage. intros H.
  apply bind_Some in H as (s1 & H1 & H).
  apply bind_Some in H as (s2 & H2 & H).
  apply update_page_numPending in H1. apply update_if_page_numPending in H2.
  injection H as <-. rewrite <- H1, <- H2. by destruct r.
Qed.

Lemma LinkPageChain_numPending c r s s' :
  LinkPageChain c r s = Some s' -> m_numPending s' = m_numPending s.
Proof.
  unfold LinkPageChain. intros H.
  apply bind_Some in H as (x & _ & H).
  apply bind_Some in H as (s1 & H1 & H).
  apply bind_Some in H as (s2 & H2 & H).
  apply update_page_numPending in H1. apply update_if_page_numPending in H2.
  injection H as <-. rewrite <- H1, <- H2. by destruct r.
Qed.

Lemma ReleasePage_numPending p s s' :
  ReleasePage p s = Some s' ->
  m_numPending s' = size_t (m_numPending s - 1).
Proof.
  unfold ReleasePage. intros H.
  apply bind_Some in H as (s1 & H1 & H).
  apply bind_Some in H as (s2 & H2 & H).
  apply update_page_numPending in H. apply LinkPage_numPending in H2.
  apply UnlinkPage_numPending in H1. by rewrite H, H2, H1.
Qed.

Lemma GetNewPage_numPending dev s r s' :
  GetNewPage dev s = Some (r, s') -> m_numPending s' = m_numPending s.
Proof.
  unfold GetNewPage. destruct dev; try by intros [= _ <-].
  intros H.
  apply bind_Some in H as (s1 & H1 & H).
  apply bind_Some in H as (s2 & H2 & H).
  apply update_page_numPending in H1. apply update_if_page_numPending in H2.
  injection H as _ <-. simpl. by rewrite H2, H1.
Qed.

Lemma GetCleanPageForAlloc_numPending dev s r s' :
  GetCleanPageForAlloc dev s = Some (r, s') -> m_numPending s' = m_numPending s.
Proof.
  unfold GetCleanPageForAlloc. intros H.
  apply bind_Some in H as ([r0 s0] & H0 & H).
  assert (Hs0 : m_numPending s0 = m_numPending s).
  { destruct (m_unusedPages s).
    - by injection H0 as _ <-.
    - by apply GetNewPage_numPending in H0. }
  destruct r0 as [[page|]|e]; try by injection H as _ <-.
  apply bind_Some in H as (s1 & H1 & H).
  apply bind_Some in H as (s2 & H2 & H).
  injection H as _ <-.
  apply UnlinkPage_numPending in H1. apply LinkPage_numPending in H2.
  by rewrite H2, H1.
Qed.

Lemma FindPageForAlloc_numPending debug dev (sizeBytes alignment : Z) s r s' :
  FindPageForAlloc debug dev sizeBytes alignment s = Some (r, s') ->
  m_numPending s' = m_numPending s.
Proof.
  unfold FindPageForAlloc.
  destruct (debug && (m_increment s <? sizeBytes)); [by intros [= _ <-]|].
  destruct (debug && (m_increment s <? alignment)); [by intros [= _ <-]|].
  destruct (debug && (sizeBytes =? 0)); [by intros [= _ <-]|].
  intros H. apply bind_Some in H as ([r0 s0] & H0 & H).
  assert (Hs0 : m_numPending s0 = m_numPending s).
  { unfold GetPageForAlloc in H0.
    destruct (_ && _); [by apply GetCleanPageForAlloc_numPending in H0|].
    apply bind_Some in H0 as ([q|] & _ & H0).
    - by injection H0 as _ <-.
    - by apply GetCleanPageForAlloc_numPending in H0. }
  destruct r0 as [[page|]|e]; by injection H as _ <-.
Qed.

Lemma FreePages_loop_numPending fuel : forall cur s s',
  FreePages_loop fuel cur s = Some s' -> m_numPending s' = m_numPending s.
Proof.
  induction fuel as [|fuel IH]; intros [p|] s s' H; simpl in H;
    try done; try by injection H as <-.
  apply bind_Some in H as (pg & _ & H). by apply IH in H.
Qed.

Lemma Shrink_numPending s s' :
  Shrink s = Some s' -> m_numPending s' = m_numPending s.
Proof.
  unfold Shrink, FreePages. intros H.
  apply bind_Some in H as (s1 & H1 & H). injection H as <-.
  by apply FreePages_loop_numPending in H1.
Qed.

Lemma RetirePendingPages_loop_numPending completed rest :
  forall kept fuel s L s',
    linked s L -> L pendingPages = kept ++ rest -> (length rest <= fuel)%nat ->
    Z.of_nat (length rest) <= m_numPending s < 2 ^ 64 ->
    RetirePendingPages_loop fuel completed (head_or None rest) s = Some s' ->
    m_numPending s' =
      m_numPending s
      - Z.of_nat (length (filter (fun q => fence_passed completed (pages s) q) rest)).
Proof.
  induction rest as [|p rest IH]; intros kept fuel s L s' Hlk Hpend Hlen Hnp Hrun.
  - assert (s' = s) as -> by (destruct fuel; simpl in Hrun; congruence).
    simpl. lia.
  - destruct fuel as [|fuel]; [simpl in Hlen; lia|].
    pose proof Hlk as [Hdll Hnd].
    pose proof (Hdll pendingPages) as Hd. rewrite Hpend in Hd.
    apply dseg_mid in Hd as (pg & Hp & _ & Hnext & _ & _).
    assert (Htest : (mPendingFence pg <=? completed p)
                    = fence_passed completed (pages s) p).
    { unfold fence_passed. by rewrite Hp. }
    simpl in Hrun. rewrite Hp in Hrun. simpl in Hrun.
    rewrite Htest, Hnext in Hrun. simpl length in Hnp, Hlen.
    destruct (fence_passed completed (pages s) p) eqn:Hpass.
    + destruct (ReleasePage_spec s L pendingPages kept p rest Hlk Hpend)
        as (s1 & Hs1 & Hlk1 & Hdat1 & _).
      rewrite Hs1 in Hrun. simpl in Hrun.
      pose proof (ReleasePage_numPending p s s1 Hs1) as Hnp1.
      unfold size_t in Hnp1. rewrite Z.mod_small in Hnp1 by lia.
      set (L0 := <[pendingPages := kept ++ rest]> L) in *.
      set (L1 := <[unusedPages := p :: L0 unusedPages]> L0) in *.
      assert (Hpend1 : L1 pendingPages = kept ++ rest).
      { unfold L1, L0. by rewrite fn_lookup_insert_ne, fn_lookup_insert. }
      rewrite (IH kept fuel s1 L1 s' Hlk1 Hpend1 ltac:(lia) ltac:(lia) Hrun).
      assert (Hsame : forall q, fence_passed completed (pages s1) q
                                = fence_passed completed (pages s) q).
      { intros q. apply fence_passed_reset. rewrite Hdat1.
        destruct (decide (q = p)); auto. }
      rewrite filter_cons_True by (by rewrite Hpass). simpl length.
      rewrite (list_filter_iff _
                 (fun q => fence_passed completed (pages s) q))
        by (intros q; by rewrite Hsame).
      lia.
    + simpl in Hrun.
      assert (Hpend1 : L pendingPages = (kept ++ [p]) ++ rest).
      { by rewrite Hpend, <- app_assoc. }
      rewrite (IH (kept ++ [p]) fuel s L s' Hlk Hpend1 ltac:(lia) ltac:(lia) Hrun).
      rewrite filter_cons_False by (rewrite Hpass; auto). done.
Qed.

Lemma inv_pending_bound s lu lus lp :
  inv s (mkL lu lus lp) -> Z.of_nat (length lus + length lp) < 2 ^ 32.
Proof.
  intros Hinv. pose proof (inv_room _ _ Hinv) as Hroom.
  rewrite (inv_size _ _ Hinv) in Hroom. unfold all_pages in Hroom.
  simpl in Hroom. rewrite !length_app in Hroom. lia.
Qed.

Lemma RetirePendingPages_numPending completed s lu lus lp s' :
  inv s (mkL lu lus lp) -> m_numPending s = Z.of_nat (length lp) ->
  RetirePendingPages completed s = Some s' ->
  m_numPending s' =
    Z.of_nat (length (filter (fun q => ~ fence_passed completed (pages s) q) lp)).
Proof.
  intros Hinv Hnp Hrun. pose proof (inv_linked _ _ Hinv) as Hlk.
  pose proof (inv_pending_bound _ _ _ _ Hinv) as Hb.
  pose proof (linked_dll _ _ Hlk pendingPages) as Hd. simpl in Hd.
  pose proof (linked_length s _ pendingPages Hlk) as Hlen. simpl in Hlen.
  unfold RetirePendingPages in Hrun.
  rewrite (dseg_head _ _ _ _ _ Hd) in Hrun.
  rewrite (RetirePendingPages_loop_numPending completed lp [] (chain_fuel s)
             s _ s' Hlk eq_refl) by (unfold chain_fuel; lia || done).
  pose proof (filter_app_complement
                (fun q => fence_passed completed (pages s) q) lp) as Hperm.
  apply Permutation_length in Hperm. rewrite length_app in Hperm. lia.
Qed.

Lemma FenceCommittedPages_numPending s lu lus lp s' :
  inv s (mkL lu lus lp) -> m_numPending s = Z.of_nat (length lp) ->
  FenceCommittedPages s = Some s' ->
  m_numPending s' =
    Z.of_nat (length (filter (fun q => page_ready (pages s) q) lus ++ lp)).
Proof.
  intros Hinv Hnp Hrun. pose proof (inv_linked _ _ Hinv) as Hlk.
  pose proof (inv_pending_bound _ _ _ _ Hinv) as Hb.
  pose proof (linked_dll _ _ Hlk usedPages) as Hdus. simpl in Hdus.
  pose proof (linked_length s _ usedPages Hlk) as Hlen. simpl in Hlen.
  pose proof (all_pages_NoDup _ usedPages (linked_NoDup _ _ Hlk)) as Hnd.
  simpl in Hnd.
  set (A := filter (fun q => page_ready (pages s) q) lus).
  assert (HlenA : (length A <= length lus)%nat) by apply length_filter.
  rewrite length_app. unfold FenceCommittedPages in Hrun.
  destruct (m_usedPages s) as [c|] eqn:Ehd.
  2:{ apply dll_None_nil in Hdus. subst lus. injection Hrun as <-.
      unfold A. simpl. lia. }
  destruct (FenceCommittedPages_loop_spec lus (chain_fuel s) s None
              (Some c) 0 None None [] [])
    as (s1 & ready' & unready' & Hs1 & _ & _ & _ & _ & _ & _ & Hcnt1);
    try done.
  { unfold chain_fuel. lia. }
  { lia. }
  { by rewrite !app_nil_r. }
  fold A in Hs1. rewrite Hs1 in Hrun. simpl in Hrun.
  unfold counters in Hcnt1. injection Hcnt1 as _ _ _ _ Hnp1.
  destruct (0 <? 0 + Z.of_nat (length A)) eqn:Epos.
  - destruct ready' as [x|]; [|done].
    apply LinkPageChain_numPending in Hrun. rewrite Hrun. simpl.
    rewrite Hnp1, Hnp. unfold size_t. rewrite Z.mod_small by lia. lia.
  - injection Hrun as <-. simpl. apply Z.ltb_ge in Epos. lia.
Qed.

Lemma GetPageForAlloc_pending dev (sizeBytes alignment : Z) s r s' :
  wf s -> permitted (op_FindPageForAlloc dev sizeBytes alignment) s ->
  GetPageForAlloc dev sizeBytes alignment s = Some (r, s') ->
  pending_list s' = pending_list s.
Proof.
  intros Hwf Hperm Hget.
  pose proof (GetPageForAlloc_outcome dev sizeBytes alignment s Hwf Hperm)
    as Hout. cbv zeta in Hout.
  match type of Hout with
  | match ?t with _ => _ end => destruct t as [p|]
  end.
  - destruct Hout as (H & _). rewrite H in Hget. by injection Hget as _ <-.
  - destruct Hout as [_ Hout].
    destruct (unused_list s) as [|p lu].
    + destruct dev; try (rewrite Hout in Hget; by injection Hget as _ <-).
      destruct Hout as (p & s'' & H & _ & _ & _ & _ & Hp & _).
      rewrite H in Hget. by injection Hget as _ <-.
    + destruct Hout as (s'' & H & _ & _ & Hp & _).
      rewrite H in Hget. by injection Hget as _ <-.
Qed.

Lemma FindPageForAlloc_pending debug dev (sizeBytes alignment : Z) s r s' :
  wf s -> permitted (op_FindPageForAlloc dev sizeBytes alignment) s ->
  FindPageForAlloc debug dev sizeBytes alignment s = Some (r, s') ->
  pending_list s' = pending_list s.
Proof.
  intros Hwf Hperm. unfold FindPageForAlloc.
  destruct (debug && (m_increment s <? sizeBytes)); [by intros [= _ <-]|].
  destruct (debug && (m_increment s <? alignment)); [by intros [= _ <-]|].
  destruct (debug && (sizeBytes =? 0)); [by intros [= _ <-]|].
  intros H. apply bind_Some in H as ([r0 s0] & H0 & H).
  apply (GetPageForAlloc_pending _ _ _ _ _ _ Hwf Hperm) in H0.
  destruct r0 as [[page|]|e]; by injection H as _ <-.
Qed.

Lemma Suballocate_links debug (sizeBytes alignment : Z) pg off pg' :
  Suballocate debug sizeBytes alignment pg = Returned (off, pg') ->
  pPrevPage pg' = pPrevPage pg /\ pNextPage pg' = pNextPage pg.
Proof.
  unfold Suballocate. destruct (debug && _); [done|]. by intros [= _ <-].
Qed.

Lemma set_page_lists s p pg pg' r :
  wf s -> pages s !! p = Some pg ->
  pPrevPage pg' = pPrevPage pg -> pNextPage pg' = pNextPage pg ->
  page_list r (set_pages (<[p := pg']> (pages s)) s) = page_list r s.
Proof.
  intros Hwf Hp Hpv Hnx.
  pose proof (linked_insert_links s _ p pg pg' (wf_linked s Hwf) Hp Hpv Hnx)
    as Hlk.
  by rewrite (linked_lists _ _ r Hlk).
Qed.

Lemma exec_numPending debug o s s' :
  wf s -> permitted o s ->
  m_numPending s = Z.of_nat (length (pending_list s)) ->
  exec debug o s = Some s' ->
  m_numPending s' = Z.of_nat (length (pending_list s')).
Proof.
  intros Hwf Hperm Hnp Hexec.
  pose proof (wf_named s Hwf) as Hinv.
  destruct o as [dev|dev sz al|page sz al|page count| |completed|];
    unfold exec in Hexec.
  - apply fmap_Some in Hexec as ([r s0] & Hget & ->). simpl.
    rewrite (GetNewPage_numPending _ _ _ _ Hget), Hnp.
    destruct (decide (dev = DeviceOk)) as [->|Hdev].
    + destruct Hperm as [Hroom _].
      destruct (GetNewPage_ok s _ _ _ Hinv (Hroom eq_refl))
        as (s1 & Hs1 & _ & Hinv1 & _).
      rewrite Hs1 in Hget. injection Hget as _ <-.
      by apply inv_named in Hinv1 as (_ & _ & _ & ->).
    + rewrite (GetNewPage_failed _ s Hdev) in Hget. by injection Hget as _ <-.
  - apply fmap_Some in Hexec as ([r s0] & Hfind & ->). simpl.
    rewrite (FindPageForAlloc_numPending _ _ _ _ _ _ _ Hfind), Hnp.
    by rewrite (FindPageForAlloc_pending _ _ _ _ _ _ _ Hwf Hperm Hfind).
  - apply bind_Some in Hexec as (pg & Hpg & Hexec).
    destruct (Suballocate debug sz al pg) as [[off pg']|e] eqn:Hsub;
      injection Hexec as <-; [|done].
    destruct (Suballocate_links _ _ _ _ _ _ Hsub) as [Hpv Hnx].
    unfold pending_list. by rewrite (set_page_lists s page pg pg').
  - unfold update_page in Hexec.
    apply bind_Some in Hexec as (pg & Hpg & Hexec). injection Hexec as <-.
    unfold pending_list. by rewrite (set_page_lists s page pg).
  - destruct (FenceCommittedPages_inv s _ _ _ Hinv) as (s1 & Hs1 & Hinv1 & _).
    rewrite Hs1 in Hexec. injection Hexec as <-.
    rewrite (FenceCommittedPages_numPending s _ _ _ s1 Hinv Hnp Hs1).
    apply inv_named in Hinv1 as (_ & _ & _ & ->).
    by rewrite !length_app, length_reverse.
  - destruct (RetirePendingPages_inv completed s _ _ _ Hinv)
      as (s1 & Hs1 & Hinv1 & _).
    rewrite Hs1 in Hexec. injection Hexec as <-.
    rewrite (RetirePendingPages_numPending completed s _ _ _ s1 Hinv Hnp Hs1).
    by apply inv_named in Hinv1 as (_ & _ & _ & ->).
  - destruct (Shrink_inv s _ _ _ Hinv) as (s1 & Hs1 & Hinv1 & _).
    rewrite Hs1 in Hexec. injection Hexec as <-.
    rewrite (Shrink_numPending s s1 Hs1), Hnp.
    by apply inv_named in Hinv1 as (_ & _ & _ & ->).
Qed.

Lemma steps_numPending debug n s :
  steps debug n s -> m_numPending s = Z.of_nat (length (pending_list s)).
Proof.
  induction 1 as [pageSize Hps|n s o s' Hsteps IH Hperm Hexec].
  - reflexivity.
  - apply (exec_numPending debug o s s'); try done.
    apply (reachable_wf debug). by exists n.
Qed.

(** X6. In every state reached while the allocator holds fewer than 2^32
    pages, which is the bound that [permitted] puts on the operations that
    create a page and so on [reachable], [m_numPending] is the length of
    the pending list; so it is positive whenever a page is pending, as
    [ReleasePage] asserts before it decrements it. *)
Theorem numPending_counts_pending debug s :
  reachable debug s ->
  m_numPending s = Z.of_nat (length (pending_list s)) /\
  (pending_list s <> [] -> 0 < m_numPending s).
Proof.
  intros [n Hn]. pose proof (steps_numPending debug n s Hn) as Hnp.
  split; [done|].
  rewrite Hnp. destruct (pending_list s); [done|]. simpl. lia.
Qed.

Lemma numPending_counts_pending_witness :
  let s := after true (two_allocations ++ [op_FenceCommittedPages]) in
  reachable true s /\
  m_numPending s = Z.of_nat (length (pending_list s)).
Proof.
  intros s.
  assert (Hr : reachable true s) by (apply after_reachable; runs).
  split; [exact Hr|].
  destruct (numPending_counts_pending true s Hr) as [H _]. exact H.
Defined.

End pending_count.

(** * Creating, recycling and freeing pages *)

Section pages_in_and_out.
Implicit Types (s : LinearAllocator) (l : list nat) (p : nat).

(** X7. [GetNewPage] on a device that creates the resource, maps it and
    creates the fence puts a page that was not live at the head of the
    unused list: fence value 0, cursor 0, size [m_increment], count 0; the
    other pages and lists are as before and [m_totalPages] grows by one.
    When the resource or the fence cannot be created it returns null, when
    the mapping fails it throws, and in both cases the allocator is left as
    it was. *)
Theorem GetNewPage_adds_clean_page dev s :
  wf s -> (dev = DeviceOk -> Z.of_nat (size (pages s)) + 1 < 2 ^ 32) ->
  match dev with
  | DeviceOk =>
      exists p s',
        GetNewPage dev s = Some (Returned (Some p), s') /\
        pages s !! p = None /\ wf s' /\
        unused_list s' = p :: unused_list s /\
        used_list s' = used_list s /\ pending_list s' = pending_list s /\
        data_at (pages s') p = Some (0, 0, m_increment s, 0) /\
        (forall q, q <> p -> data_at (pages s') q = data_at (pages s) q) /\
        m_totalPages s' = m_totalPages s + 1 /\
        created s' = S (created s) /\ destroyed s' = destroyed s
  | MapFailed => GetNewPage dev s = Some (Thrown com_exception, s)
  | _ => GetNewPage dev s = Some (Returned None, s)
  end.
Proof.
  intros Hwf Hroom. destruct dev; try reflexivity.
  pose proof (wf_named s Hwf) as Hinv.
  destruct (GetNewPage_ok s _ _ _ Hinv (Hroom eq_refl))
    as (s' & Hs' & Hp & Hinv' & Hdatp & Hdat & _ & _ & Hcr & Hde).
  pose proof (inv_total _ _ Hinv) as Ht. pose proof (inv_total _ _ Hinv') as Ht'.
  rewrite (inv_size _ _ Hinv) in Ht. rewrite (inv_size _ _ Hinv') in Ht'.
  apply inv_named in Hinv' as (Hwf' & Hu & Hus & Hpe).
  exists (fresh (dom (pages s))), s'.
  repeat (match goal with |- _ /\ _ => split end); try done.
  rewrite Ht', Ht. unfold all_pages. simpl. lia.
Qed.

Lemma GetNewPage_adds_clean_page_witness :
  let s := after true two_allocations in
  wf s /\
  exists p s',
    GetNewPage DeviceOk s = Some (Returned (Some p), s') /\
    unused_list s' = p :: unused_list s.
Proof.
  intros s.
  assert (Hwf : wf s) by (apply (reachable_wf true), after_reachable; runs).
  assert (Hroom : DeviceOk = DeviceOk -> Z.of_nat (size (pages s)) + 1 < 2 ^ 32)
    by (intros _; vm_compute; reflexivity).
  split; [exact Hwf|].
  destruct (GetNewPage_adds_clean_page DeviceOk s Hwf Hroom)
    as (p & s' & H1 & _ & _ & H2 & _).
  exists p, s'. split; [exact H1|exact H2].
Defined.

Lemma Shrink_counters s lu lus lp s' :
  inv s (mkL lu lus lp) -> Shrink s = Some s' ->
  created s' = created s /\
  destroyed s' = (destroyed s + length lu)%nat /\
  m_totalPages s' = m_totalPages s - Z.of_nat (length lu) /\
  m_unusedPages s' = None.
Proof.
  intros Hinv Hrun. pose proof (inv_linked _ _ Hinv) as Hlk.
  pose proof (linked_dll _ _ Hlk unusedPages) as Hd. simpl in Hd.
  pose proof (all_pages_NoDup _ unusedPages (linked_NoDup _ _ Hlk)) as Hnd.
  simpl in Hnd.
  pose proof (linked_length s _ unusedPages Hlk) as Hlen. simpl in Hlen.
  pose proof (inv_total _ _ Hinv) as Ht. pose proof (inv_room _ _ Hinv) as Hr.
  destruct (FreePages_loop_spec lu (chain_fuel s) s None (m_unusedPages s))
    as (s1 & Hs1 & _ & _ & Ht1 & Hd1 & Hc1 & _); try done.
  { unfold chain_fuel. lia. }
  { lia. }
  unfold Shrink, FreePages in Hrun. rewrite Hs1 in Hrun.
  injection Hrun as <-. simpl. done.
Qed.

(** X8. [Shrink] frees exactly the pages of the unused list: they leave
    the free store, the unused list becomes empty, [m_totalPages] drops by
    their number; the pages in use and the pending ones, with their data
    and order, are untouched.  A second [Shrink] changes nothing. *)
Theorem Shrink_frees_unused_pages s :
  wf s ->
  exists s',
    Shrink s = Some s' /\ wf s' /\
    unused_list s' = [] /\
    used_list s' = used_list s /\ pending_list s' = pending_list s /\
    (forall q, pages s' !! q =
               if decide (q ∈ unused_list s) then None else pages s !! q) /\
    destroyed s' = (destroyed s + length (unused_list s))%nat /\
    created s' = created s /\
    m_totalPages s' = m_totalPages s - Z.of_nat (length (unused_list s)) /\
    Shrink s' = Some s'.
Proof.
  intros Hwf. pose proof (wf_named s Hwf) as Hinv.
  destruct (Shrink_inv s _ _ _ Hinv) as (s' & Hs' & Hinv' & Hpg & _).
  destruct (Shrink_counters s _ _ _ s' Hinv Hs') as (Hc & Hd & Ht & Hhd).
  apply inv_named in Hinv' as (Hwf' & Hu & Hus & Hpe).
  exists s'. repeat (match goal with |- _ /\ _ => split end); try done.
  unfold Shrink, FreePages. rewrite Hhd. unfold chain_fuel. simpl.
  rewrite <- Hhd. by destruct s'.
Qed.

Lemma Shrink_frees_unused_pages_witness :
  let s := after true (two_allocations ++ [op_GetNewPage DeviceOk]) in
  wf s /\
  exists s', Shrink s = Some s' /\ unused_list s' = [] /\
             used_list s' = used_list s.
Proof.
  intros s.
  assert (Hwf : wf s) by (apply (reachable_wf true), after_reachable; runs).
  split; [exact Hwf|].
  destruct (Shrink_frees_unused_pages s Hwf) as (s' & H1 & _ & H2 & H3 & _).
  exists s'. split; [exact H1|]. split; [exact H2|exact H3].
Defined.

(** X9. [ReleasePage] on a pending page, wherever it stands in the pending
    list, puts it at the head of the unused list with its cursor back at
    0; its fence value, size and count stay, the other pages keep their
    lists, order and data, and [m_numPending] is decremented. *)
Theorem ReleasePage_recycles_page s l1 p l2 :
  wf s -> pending_list s = l1 ++ p :: l2 ->
  exists s',
    ReleasePage p s = Some s' /\
    unused_list s' = p :: unused_list s /\
    pending_list s' = l1 ++ l2 /\ used_list s' = used_list s /\
    data_at (pages s') p = reset_offset <$> data_at (pages s) p /\
    mOffset <$> pages s' !! p = Some 0 /\
    (forall q, q <> p -> data_at (pages s') q = data_at (pages s) q) /\
    m_numPending s' = size_t (m_numPending s - 1).
Proof.
  intros Hwf Hr. pose proof (wf_linked s Hwf) as Hlk.
  destruct (ReleasePage_spec s _ pendingPages l1 p l2 Hlk Hr)
    as (s' & Hs' & Hlk' & Hdat & _).
  pose proof (ReleasePage_numPending p s s' Hs') as Hnp.
  assert (Hdatp : data_at (pages s') p = reset_offset <$> data_at (pages s) p).
  { rewrite Hdat. by rewrite decide_True. }
  exists s'. repeat (match goal with |- _ /\ _ => split end); try done.
  - unfold unused_list. rewrite (linked_lists s' _ unusedPages Hlk').
    by rewrite fn_lookup_insert, fn_lookup_insert_ne.
  - unfold pending_list. rewrite (linked_lists s' _ pendingPages Hlk').
    by rewrite fn_lookup_insert_ne, fn_lookup_insert.
  - unfold used_list. rewrite (linked_lists s' _ usedPages Hlk').
    by rewrite !fn_lookup_insert_ne.
  - assert (is_Some (pages s !! p)) as [pg Hpg].
    { apply (linked_live s _ pendingPages p Hlk). change (p ∈ pending_list s).
      rewrite Hr. apply elem_of_app. right. left. }
    unfold data_at in Hdatp. rewrite Hpg in Hdatp.
    destruct (pages s' !! p) as [pg'|]; [|done].
    simpl in *. by injection Hdatp as _ -> _ _.
  - intros q Hq. rewrite Hdat. by rewrite decide_False.
Qed.

Lemma ReleasePage_recycles_page_witness :
  let s := after true (two_allocations ++ [op_FenceCommittedPages]) in
  wf s /\ pending_list s = [] ++ 0%nat :: [] /\
  exists s',
    ReleasePage 0 s = Some s' /\ unused_list s' = 0%nat :: unused_list s.
Proof.
  intros s.
  assert (Hwf : wf s) by (apply (reachable_wf true), after_reachable; runs).
  assert (Hr : pending_list s = [] ++ 0%nat :: []) by (vm_compute; reflexivity).
  split; [exact Hwf|]. split; [exact Hr|].
  destruct (ReleasePage_recycles_page s [] 0%nat [] Hwf Hr) as (s' & H1 & H2 & _).
  exists s'. split; [exact H1|exact H2].
Defined.

End pages_in_and_out.

(** * The constructor's preallocation *)

Section preallocation.
Implicit Types (s : LinearAllocator) (l : list nat) (p : nat).

(** The loop on a device that answers [DeviceOk] to the first [i] requests
    and, when [i] is less than the number of rounds, fails the next one. *)
Lemma preallocate_spec devs count :
  forall k s lu lus lp (i : nat),
    inv s (mkL lu lus lp) ->
    Z.of_nat (size (pages s)) + Z.of_nat count < 2 ^ 32 ->
    (i <= count)%nat ->
    (forall j, (j < i)%nat -> devs (k + j)%nat = DeviceOk) ->
    ((i < count)%nat -> devs (k + i)%nat <> DeviceOk) ->
    exists s' new,
      preallocate count devs k s =
        Some (if decide (i < count)%nat
              then match devs (k + i)%nat with
                   | MapFailed => Thrown com_exception
                   | _ => Thrown (std_exception "Out of memory.")
                   end
              else Returned tt, s') /\
      inv s' (mkL (new ++ lu) lus lp) /\ length new = i /\
      (forall q, q ∈ new -> data_at (pages s') q = Some (0, 0, m_increment s, 0)) /\
      (forall q, q ∉ new -> data_at (pages s') q = data_at (pages s) q) /\
      m_increment s' = m_increment s /\
      created s' = (created s + i)%nat /\ destroyed s' = destroyed s.
Proof.
  induction count as [|count IH]; intros k s lu lus lp i Hinv Hroom Hi Hok Hfail.
  - assert (i = 0)%nat as -> by lia. exists s, []. simpl.
    repeat (match goal with |- _ /\ _ => split end);
      try done; try lia; intros q Hq; by apply elem_of_nil in Hq.
  - rewrite preallocate_S. destruct i as [|i].
    + specialize (Hfail ltac:(lia)). rewrite Nat.add_0_r in *.
      rewrite (GetNewPage_failed _ s Hfail).
      exists s, []. rewrite decide_True by lia.
      split; [by destruct (devs k)|].
      repeat (match goal with |- _ /\ _ => split end);
        try done; try lia; intros q Hq; by apply elem_of_nil in Hq.
    + pose proof (Hok 0%nat ltac:(lia)) as H0. rewrite Nat.add_0_r in H0.
      destruct (GetNewPage_ok s _ _ _ Hinv)
        as (s1 & Hs1 & Hp & Hinv1 & Hdatp & Hdat & Hinc & _ & Hcr & Hde); [lia|].
      rewrite H0, Hs1. simpl.
      set (p := fresh (dom (pages s))) in *.
      destruct (IH (S k) s1 (p :: lu) lus lp i Hinv1) as
        (s' & new & Hs' & Hinv' & Hlen & Hnew & Hold & Hinc' & Hcr' & Hde').
      { rewrite (inv_size _ _ Hinv1). rewrite (inv_size _ _ Hinv) in Hroom.
        unfold all_pages in *. simpl in *. lia. }
      { lia. }
      { intros j Hj. replace (S k + j)%nat with (k + S j)%nat by lia.
        apply Hok. lia. }
      { intros Hlt. replace (S k + i)%nat with (k + S i)%nat by lia.
        apply Hfail. lia. }
      replace (S k + i)%nat with (k + S i)%nat in Hs' by lia.
      exists s', (new ++ [p]).
      split.
      { rewrite Hs'. do 2 f_equal.
        destruct (decide (i < count)%nat), (decide (S i < S count)%nat);
          try done; lia. }
      assert (Hpnew : p ∉ new).
      { pose proof (linked_NoDup _ _ (inv_linked _ _ Hinv')) as Hnd.
        unfold all_pages in Hnd. simpl in Hnd.
        apply NoDup_app in Hnd as (Hnd & _ & _).
        apply NoDup_app in Hnd as (_ & Hdisj & _).
        intros Hin. apply (Hdisj p Hin). left. }
      repeat (match goal with |- _ /\ _ => split end).
      * by rewrite <- app_assoc.
      * rewrite length_app. simpl. lia.
      * intros q [Hq|Hq%list_elem_of_singleton]%elem_of_app.
        -- rewrite (Hnew q Hq). by rewrite Hinc.
        -- subst q. by rewrite (Hold p Hpnew).
      * intros q Hq. rewrite elem_of_app, list_elem_of_singleton in Hq.
        rewrite Hold by tauto. apply Hdat. tauto.
      * congruence.
      * lia.
      * congruence.
Qed.

Lemma ceil_div_bounds (a b : Z) :
  0 < b -> 0 <= a -> a <= b * ((a + b - 1) / b) < a + b.
Proof.
  intros Hb Ha.
  pose proof (Z.div_mod (a + b - 1) b ltac:(lia)) as Hdm.
  pose proof (Z.mod_pos_bound (a + b - 1) b Hb) as Hm. lia.
Qed.

(** X10. On a device that creates every page asked for, the constructor
    returns an allocator whose unused list holds
    [(preallocateBytes + pageSize - 1) / pageSize] clean pages of
    [pageSize] bytes, computed in [size_t], and none when [preallocateBytes]
    is 0; nothing is in use or pending.  When the sum does not overflow,
    these pages cover [preallocateBytes] with less than one page to spare. *)
Theorem LinearAllocator_ctor_preallocates (pageSize preallocateBytes : Z) devs :
  0 < pageSize < 2 ^ 64 -> 0 <= preallocateBytes < 2 ^ 64 ->
  preallocatePageCount pageSize preallocateBytes < 2 ^ 32 ->
  (forall j, devs j = DeviceOk) ->
  exists s,
    LinearAllocator_ctor pageSize preallocateBytes devs = Some (Returned tt, s) /\
    wf s /\ m_increment s = pageSize /\
    Z.of_nat (length (unused_list s))
      = preallocatePageCount pageSize preallocateBytes /\
    used_list s = [] /\ pending_list s = [] /\
    (forall p, p ∈ unused_list s ->
       data_at (pages s) p = Some (0, 0, pageSize, 0)) /\
    m_totalPages s = preallocatePageCount pageSize preallocateBytes /\
    (preallocateBytes + pageSize - 1 < 2 ^ 64 ->
     preallocateBytes
     <= pageSize * preallocatePageCount pageSize preallocateBytes
     < preallocateBytes + pageSize).
Proof.
  intros Hps Hb Hcount Hdev.
  pose proof (init_inv pageSize Hps) as Hinit.
  assert (Hcover : preallocateBytes + pageSize - 1 < 2 ^ 64 ->
    preallocateBytes
    <= pageSize * preallocatePageCount pageSize preallocateBytes
    < preallocateBytes + pageSize).
  { intros Hno. unfold preallocatePageCount.
    destruct (preallocateBytes =? 0) eqn:E.
    - apply Z.eqb_eq in E. lia.
    - rewrite size_t_small by lia. apply ceil_div_bounds; lia. }
  unfold LinearAllocator_ctor, preallocatePageCount in *.
  rewrite (proj2 (Z.eqb_neq pageSize 0)) by lia.
  destruct (preallocateBytes =? 0) eqn:E.
  - exists (LinearAllocator_init pageSize). split; [done|].
    apply inv_named in Hinit as (Hwf & Hu & Hus & Hp).
    rewrite Hu, Hus, Hp. repeat (match goal with |- _ /\ _ => split end);
      try done.
    intros p Hp'. by apply elem_of_nil in Hp'.
  - set (c := size_t (preallocateBytes + pageSize - 1) / pageSize) in *.
    assert (Hc : 0 <= c).
    { apply Z.div_pos; [|lia]. unfold size_t. apply Z.mod_pos_bound. lia. }
    destruct (preallocate_spec devs (Z.to_nat c) 0%nat
                (LinearAllocator_init pageSize) [] [] [] (Z.to_nat c) Hinit)
      as (s & new & Hs & Hinv & Hlen & Hnew & _ & Hinc & _); try done.
    { simpl. rewrite map_size_empty. lia. }
    { intros Hlt. lia. }
    rewrite decide_False in Hs by lia.
    pose proof (inv_total _ _ Hinv) as Ht. rewrite (inv_size _ _ Hinv) in Ht.
    unfold all_pages in Ht. simpl in Ht. rewrite !app_nil_r in Ht.
    apply inv_named in Hinv as (Hwf & Hu & Hus & Hp).
    rewrite app_nil_r in Hu.
    exists s. rewrite Hu, Hus, Hp.
    repeat (match goal with |- _ /\ _ => split end); try done.
    + lia.
    + lia.
Qed.

Lemma LinearAllocator_ctor_preallocates_witness :
  exists s,
    LinearAllocator_ctor 65536 100000 (fun _ => DeviceOk) = Some (Returned tt, s) /\
    wf s /\ m_increment s = 65536 /\
    Z.of_nat (length (unused_list s)) = preallocatePageCount 65536 100000.
Proof.
  destruct (LinearAllocator_ctor_preallocates 65536 100000 (fun _ => DeviceOk))
    as (s & H1 & H2 & H3 & H4 & _).
  - lia.
  - lia.
  - vm_compute. reflexivity.
  - intros j. reflexivity.
  - exists s. split; [exact H1|]. split; [exact H2|]. split; [exact H3|exact H4].
Defined.

(** X11. When the device creates [i] pages and fails the next one while
    the constructor still needs it, the constructor throws, "Out of memory"
    or the error of the failed mapping; it frees none of the [i] pages it
    had created, which stay in the unused list of the abandoned object. *)
Theorem LinearAllocator_ctor_throws_and_keeps_pages
    (pageSize preallocateBytes : Z) devs (i : nat) :
  0 < pageSize < 2 ^ 64 -> 0 <= preallocateBytes < 2 ^ 64 ->
  preallocatePageCount pageSize preallocateBytes < 2 ^ 32 ->
  Z.of_nat i < preallocatePageCount pageSize preallocateBytes ->
  (forall j, (j < i)%nat -> devs j = DeviceOk) -> devs i <> DeviceOk ->
  exists s,
    LinearAllocator_ctor pageSize preallocateBytes devs
    = Some (match devs i with
            | MapFailed => Thrown com_exception
            | _ => Thrown (std_exception "Out of memory.")
            end, s) /\
    length (unused_list s) = i /\ size (pages s) = i /\
    created s = i /\ destroyed s = 0%nat.
Proof.
  intros Hps Hb Hcount Hi Hok Hfail.
  pose proof (init_inv pageSize Hps) as Hinit.
  unfold LinearAllocator_ctor, preallocatePageCount in *.
  rewrite (proj2 (Z.eqb_neq pageSize 0)) by lia.
  destruct (preallocateBytes =? 0) eqn:E; [lia|].
  set (c := size_t (preallocateBytes + pageSize - 1) / pageSize) in *.
  destruct (preallocate_spec devs (Z.to_nat c) 0%nat
              (LinearAllocator_init pageSize) [] [] [] i Hinit)
    as (s & new & Hs & Hinv & Hlen & _ & _ & _ & Hcr & Hde); try done.
  { simpl. rewrite map_size_empty. lia. }
  { lia. }
  rewrite decide_True in Hs by lia. simpl in Hs.
  pose proof (inv_size _ _ Hinv) as Hsz.
  unfold all_pages in Hsz. simpl in Hsz. rewrite !app_nil_r in Hsz.
  apply inv_named in Hinv as (Hwf & Hu & Hus & Hp). rewrite app_nil_r in Hu.
  exists s. rewrite Hu. simpl in Hcr, Hde.
  repeat (match goal with |- _ /\ _ => split end); try done. lia.
Qed.

Lemma LinearAllocator_ctor_throws_and_keeps_pages_witness :
  let devs := fun j : nat => if (j <? 1)%nat then DeviceOk else CreateFenceFailed in
  exists s,
    LinearAllocator_ctor 65536 200000 devs
    = Some (Thrown (std_exception "Out of memory."), s) /\
    length (unused_list s) = 1%nat /\ size (pages s) = 1%nat /\
    created s = 1%nat /\ destroyed s = 0%nat.
Proof.
  intros devs.
  destruct (LinearAllocator_ctor_throws_and_keeps_pages 65536 200000 devs 1)
    as (s & H).
  - lia.
  - lia.
  - vm_compute. reflexivity.
  - vm_compute. reflexivity.
  - intros j Hj. destruct j; [reflexivity|lia].
  - vm_compute. discriminate.
  - exists s. exact H.
Defined.

End preallocation.

(** * Validating the lists *)

Section validation.
Implicit Types (s : LinearAllocator) (l : list nat) (p : nat) (h : store).

Lemma ValidateList_loop_ok h l :
  forall fuel pv cur,
    dseg h pv cur l None -> (length l <= fuel)%nat ->
    ValidateList_loop fuel h cur pv = Some (Returned tt).
Proof.
  induction l as [|p l IH]; intros fuel pv cur Hd Hlen.
  - simpl in Hd. subst cur. by destruct fuel.
  - destruct Hd as [-> Hd]. destruct (h !! p) as [pg|] eqn:Hp; [|done].
    destruct Hd as [Hpv Hd].
    destruct fuel as [|fuel]; [simpl in Hlen; lia|].
    simpl. rewrite Hp. simpl. rewrite decide_True by done.
    apply IH; [done|]. simpl in Hlen. lia.
Qed.

Lemma ValidateList_loop_sound fuel :
  forall h cur pv,
    ValidateList_loop fuel h cur pv = Some (Returned tt) ->
    exists l, dseg h pv cur l None /\ (length l <= fuel)%nat.
Proof.
  induction fuel as [|fuel IH]; intros h [p|] pv Hrun; simpl in Hrun; try done.
  - exists []. split; [done|]. simpl. lia.
  - apply bind_Some in Hrun as (pg & Hp & Hrun).
    destruct (decide (pPrevPage pg = pv)) as [Hpv|]; [|done].
    destruct (IH h _ _ Hrun) as (l & Hd & Hlen).
    exists (p :: l). split; [|simpl; lia].
    simpl. split; [done|]. by rewrite Hp.
  - exists []. split; [done|]. simpl. lia.
Qed.

(** X12. [ValidatePageLists] passes on every allocator whose three heads
    lead to well-linked lists that share no page: on every well-formed
    allocator, and also in the middle of a list operation, when a page is
    held by no list.  It never throws "Broken link to previous" there. *)
Theorem ValidatePageLists_passes s L :
  linked s L -> ValidatePageLists s = Some (Returned tt).
Proof.
  intros Hlk.
  assert (H : forall r, ValidateList (list_head r s) s = Some (Returned tt)).
  { intros r. unfold ValidateList.
    apply (ValidateList_loop_ok _ (L r)); [apply (linked_dll _ _ Hlk)|].
    pose proof (linked_length s L r Hlk). unfold chain_fuel. lia. }
  pose proof (H pendingPages) as Hp. pose proof (H usedPages) as Hus.
  pose proof (H unusedPages) as Hu. unfold list_head in Hp, Hus, Hu.
  unfold ValidatePageLists. rewrite Hp. simpl. rewrite Hus. simpl. exact Hu.
Qed.

Lemma ValidatePageLists_passes_witness :
  let s := after true (two_allocations ++ [op_FenceCommittedPages]) in
  linked s (fun r => page_list r s) /\
  ValidatePageLists s = Some (Returned tt).
Proof.
  intros s.
  assert (Hwf : wf s) by (apply (reachable_wf true), after_reachable; runs).
  pose proof (wf_linked s Hwf) as Hlk.
  split; [exact Hlk|].
  exact (ValidatePageLists_passes s _ Hlk).
Defined.

(** X13. When [ValidateList] returns without throwing, the chain it
    walked is well linked: following [pNextPage] from the head ends at
    null, and each page's [pPrevPage] is the page before it, null for the
    head. *)
Theorem ValidateList_accepts_only_linked_chains s r :
  ValidateList (list_head r s) s = Some (Returned tt) ->
  dll (pages s) (list_head r s) (page_list r s).
Proof.
  unfold ValidateList. intros Hrun.
  destruct (ValidateList_loop_sound _ _ _ _ Hrun) as (l & Hd & Hlen).
  unfold page_list. by rewrite (dll_walk _ l _ _ Hd Hlen).
Qed.

Lemma ValidateList_accepts_only_linked_chains_witness :
  let s := after true two_whole_pages in
  ValidateList (list_head usedPages s) s = Some (Returned tt) /\
  dll (pages s) (list_head usedPages s) (page_list usedPages s).
Proof.
  intros s.
  assert (H : ValidateList (list_head usedPages s) s = Some (Returned tt))
    by (vm_compute; reflexivity).
  split; [exact H|].
  exact (ValidateList_accepts_only_linked_chains s usedPages H).
Defined.

End validation.

(** * Operations on reachable allocators *)

Section safety.
Implicit Types (s : LinearAllocator) (l : list nat) (p : nat).

(** X14. In a build in which [assert] is compiled out, and while the
    allocator holds fewer than 2^32 pages (the bound that [permitted] puts
    on the operations that create a page and so on [reachable]): on a
    reachable allocator every permitted operation runs to its end; no list
    walk meets a page pointer that is not live, none walks for ever, and
    the allocator it leaves is well formed again. *)
Theorem operations_run_to_their_end debug o s :
  reachable debug s -> permitted o s ->
  exists s', exec debug o s = Some s' /\ wf s' /\ reachable debug s'.
Proof.
  intros [n Hn] Hperm.
  assert (Hwf : wf s) by (apply (reachable_wf debug); by exists n).
  destruct (exec_defined debug o s Hwf Hperm) as [s' Hs'].
  exists s'. split; [done|]. split.
  - by apply (exec_wf debug o s s').
  - exists (S n). by apply (steps_next debug n s o s').
Qed.

Lemma operations_run_to_their_end_witness :
  let s := after false two_allocations in
  reachable false s /\ permitted op_FenceCommittedPages s /\
  exists s', exec false op_FenceCommittedPages s = Some s' /\ wf s'.
Proof.
  intros s.
  assert (Hr : reachable false s) by (apply after_reachable; runs).
  assert (Hp : permitted op_FenceCommittedPages s) by by_computation.
  split; [exact Hr|]. split; [exact Hp|].
  destruct (operations_run_to_their_end false op_FenceCommittedPages s Hr Hp)
    as (s' & H1 & H2 & _).
  exists s'. split; [exact H1|exact H2].
Defined.

(** X15. In a [_DEBUG] build no cursor is ever beyond the end of its
    page: in every reachable state each page has
    [0 <= mOffset <= mSize = m_increment]. *)
Theorem debug_cursor_within_page s :
  reachable true s ->
  cursors_in_range s /\
  forall p pg, pages s !! p = Some pg ->
    (0 <= mOffset pg <= mSize pg) /\ mSize pg = m_increment s.
Proof.
  intros [n Hn].
  assert (Hwf : wf s) by (apply (reachable_wf true); by exists n).
  assert (H : forall p pg, pages s !! p = Some pg ->
            (0 <= mOffset pg <= mSize pg) /\ mSize pg = m_increment s).
  { intros p pg Hp.
    pose proof (wf_pages s Hwf p pg Hp) as (Hs & _ & Hoff).
    pose proof (steps_cursor_bound n s Hn p (page_data pg)) as Hb.
    unfold data_at in Hb. rewrite Hp in Hb. specialize (Hb eq_refl).
    unfold d_offset, d_size in Hb. simpl in Hb. lia. }
  split; [|done]. intros p pg Hp. apply (H p pg Hp).
Qed.

Lemma debug_cursor_within_page_witness :
  let s := after true two_allocations in
  reachable true s /\ cursors_in_range s.
Proof.
  intros s.
  assert (Hr : reachable true s) by (apply after_reachable; runs).
  split; [exact Hr|].
  destruct (debug_cursor_within_page s Hr) as [H _]. exact H.
Defined.

End safety.

(** * Commit and retire, one after the other *)

Section commit_retire.
Implicit Types (s : LinearAllocator) (l : list nat) (p : nat).

Lemma filter_all (P : nat -> Prop) `{!forall x, Decision (P x)} l :
  (forall x, x ∈ l -> P x) -> filter P l = l.
Proof.
  induction l as [|x l IH]; intros Hall; [done|].
  rewrite filter_cons_True by (apply Hall; left).
  f_equal. apply IH. intros y Hy. apply Hall. by right.
Qed.

Lemma filter_none (P : nat -> Prop) `{!forall x, Decision (P x)} l :
  (forall x, x ∈ l -> ~ P x) -> filter P l = [].
Proof.
  induction l as [|x l IH]; intros Hall; [done|].
  rewrite filter_cons_False by (apply Hall; left).
  apply IH. intros y Hy. apply Hall. by right.
Qed.

Lemma RetirePendingPages_loop_idle completed l :
  forall fuel s pv cur,
    dseg (pages s) pv cur l None -> (length l <= fuel)%nat ->
    (forall q, q ∈ l -> ~ fence_passed completed (pages s) q) ->
    RetirePendingPages_loop fuel completed cur s = Some s.
Proof.
  induction l as [|p l IH]; intros fuel s pv cur Hd Hlen Hno.
  - simpl in Hd. subst cur. by destruct fuel.
  - destruct Hd as [-> Hd]. destruct (pages s !! p) as [pg|] eqn:Hp; [|done].
    destruct Hd as [_ Hd].
    destruct fuel as [|fuel]; [simpl in Hlen; lia|].
    simpl. rewrite Hp. simpl.
    pose proof (Hno p ltac:(left)) as Hnp. unfold fence_passed in Hnp.
    rewrite Hp in Hnp. destruct (mPendingFence pg <=? completed p); [done|].
    simpl. apply (IH fuel s (Some p)); [done|simpl in Hlen; lia|].
    intros q Hq. apply Hno. by right.
Qed.

(** X16. When none of the pending pages has its fence value completed,
    [RetirePendingPages] writes nothing: the allocator it leaves is the one
    it was given, links and counters included. *)
Theorem RetirePendingPages_idle completed s :
  wf s ->
  (forall p, p ∈ pending_list s -> ~ fence_passed completed (pages s) p) ->
  RetirePendingPages completed s = Some s.
Proof.
  intros Hwf Hno. unfold RetirePendingPages.
  apply (RetirePendingPages_loop_idle completed (pending_list s) _ s None).
  - apply (wf_pending s Hwf).
  - pose proof (linked_length s _ pendingPages (wf_linked s Hwf)).
    unfold chain_fuel, pending_list. lia.
  - done.
Qed.

Lemma RetirePendingPages_idle_witness :
  let s := after true (two_allocations ++ [op_FenceCommittedPages]) in
  wf s /\ pending_list s = [0%nat] /\
  RetirePendingPages nothing_completed s = Some s.
Proof.
  intros s.
  assert (Hwf : wf s) by (apply (reachable_wf true), after_reachable; runs).
  assert (Hno : forall p, p ∈ pending_list s ->
            ~ fence_passed nothing_completed (pages s) p).
  { apply Forall_forall. by_computation. }
  split; [exact Hwf|]. split; [vm_compute; reflexivity|].
  exact (RetirePendingPages_idle nothing_completed s Hwf Hno).
Defined.

(** X17. On an allocator that holds fewer than 2^32 pages, a commit
    followed by a retire that finds every fence value completed empties
    the pending list: the pages that were pending come
    back to the unused list, in front, in reverse order, followed by the
    released pages of the used list in their used-list order; each has its
    cursor at 0, and the released pages of the used list a fence value one
    higher.  The pages still referenced stay in use. *)
Theorem commit_then_retire_recycles completed s :
  wf s -> Z.of_nat (size (pages s)) < 2 ^ 32 ->
  (forall p, p ∈ pending_list s -> fence_at (pages s) p <= completed p) ->
  (forall p, p ∈ used_list s -> page_ready (pages s) p ->
     UINT64 (fence_at (pages s) p + 1) <= completed p) ->
  let ready p : Prop := page_ready (pages s) p in
  exists s1 s2,
    FenceCommittedPages s = Some s1 /\
    RetirePendingPages completed s1 = Some s2 /\
    wf s2 /\ pending_list s2 = [] /\
    unused_list s2 =
      reverse (pending_list s) ++ filter ready (used_list s) ++ unused_list s /\
    used_list s2 = reverse (filter (fun p => ~ ready p) (used_list s)) /\
    (forall p, p ∈ pending_list s ->
       data_at (pages s2) p = reset_offset <$> data_at (pages s) p) /\
    (forall p, p ∈ used_list s -> ready p ->
       data_at (pages s2) p
       = reset_offset <$> (bump_fence <$> data_at (pages s) p)).
Proof.
  intros Hwf _ Hpend Hused ready. pose proof (wf_named s Hwf) as Hinv.
  destruct (FenceCommittedPages_inv s _ _ _ Hinv)
    as (s1 & Hs1 & Hinv1 & Hdat1 & _).
  fold ready in Hinv1, Hdat1.
  set (A := filter ready (used_list s)) in *.
  set (B := filter (fun q => ~ ready q) (used_list s)) in *.
  pose proof (linked_NoDup _ _ (inv_linked _ _ Hinv)) as Hnd.
  unfold all_pages in Hnd. simpl in Hnd.
  apply NoDup_app in Hnd as (_ & _ & (_ & Hdisj & _)%NoDup_app).
  assert (Hpass : forall q, q ∈ reverse A ++ pending_list s ->
            fence_passed completed (pages s1) q).
  { intros q Hq. unfold fence_passed. pose proof (Hdat1 q) as Hd.
    unfold data_at in Hd.
    apply elem_of_app in Hq as [Hq|Hq].
    - apply elem_of_reverse, list_elem_of_filter in Hq as [Hr Hq].
      rewrite decide_True in Hd by done.
      specialize (Hused q Hq Hr). unfold fence_at in Hused.
      assert (is_Some (pages s !! q)) as [pg Hpg]
        by (by apply (linked_live s _ usedPages q (inv_linked _ _ Hinv))).
      rewrite Hpg in Hd, Hused.
      destruct (pages s1 !! q) as [pg1|]; simpl in Hd; [|done].
      injection Hd as -> _ _ _. by apply Is_true_true, Z.leb_le.
    - rewrite decide_False in Hd.
      2:{ intros [Hq' _]. by apply (Hdisj q Hq'). }
      specialize (Hpend q Hq). unfold fence_at in Hpend.
      assert (is_Some (pages s !! q)) as [pg Hpg]
        by (by apply (linked_live s _ pendingPages q (inv_linked _ _ Hinv))).
      rewrite Hpg in Hd, Hpend.
      destruct (pages s1 !! q) as [pg1|]; simpl in Hd; [|done].
      injection Hd as -> _ _ _. by apply Is_true_true, Z.leb_le. }
  destruct (RetirePendingPages_inv completed s1 _ _ _ Hinv1)
    as (s2 & Hs2 & Hinv2 & Hdat2 & _).
  rewrite (filter_all _ _ Hpass) in Hinv2.
  rewrite (filter_none (fun q => ~ fence_passed completed (pages s1) q))
    in Hinv2 by (intros q Hq Hn; by apply Hn, Hpass).
  rewrite reverse_app, reverse_involutive, <- app_assoc in Hinv2.
  apply inv_named in Hinv2 as (Hwf2 & Hu2 & Hus2 & Hp2).
  exists s1, s2. repeat (match goal with |- _ /\ _ => split end); try done.
  - intros p Hp. rewrite Hdat2, decide_True.
    2:{ split; [apply elem_of_app; by right|]. apply Hpass, elem_of_app. by right. }
    rewrite Hdat1, decide_False; [done|].
    intros [Hp' _]. by apply (Hdisj p Hp').
  - intros p Hp Hr. rewrite Hdat2, decide_True.
    2:{ assert (Hin : p ∈ reverse A ++ pending_list s).
        { apply elem_of_app. left. apply elem_of_reverse, list_elem_of_filter.
          done. }
        split; [done|by apply Hpass]. }
    by rewrite Hdat1, decide_True.
Qed.

Lemma commit_then_retire_recycles_witness :
  let s := after true two_allocations in
  wf s /\ Z.of_nat (size (pages s)) < 2 ^ 32 /\
  exists s1 s2,
    FenceCommittedPages s = Some s1 /\
    RetirePendingPages all_completed s1 = Some s2 /\
    wf s2 /\ pending_list s2 = [].
Proof.
  intros s.
  assert (Hwf : wf s) by (apply (reachable_wf true), after_reachable; runs).
  assert (H1 : forall p, p ∈ pending_list s ->
            fence_at (pages s) p <= all_completed p).
  { apply Forall_forall. by_computation. }
  assert (H2 : forall p, p ∈ used_list s -> page_ready (pages s) p ->
            UINT64 (fence_at (pages s) p + 1) <= all_completed p).
  { apply (Forall_forall
             (fun p => page_ready (pages s) p ->
                       UINT64 (fence_at (pages s) p + 1) <= all_completed p)).
    by_computation. }
  assert (Hroom : Z.of_nat (size (pages s)) < 2 ^ 32)
    by (vm_compute; reflexivity).
  split; [exact Hwf|]. split; [exact Hroom|].
  destruct (commit_then_retire_recycles all_completed s Hwf Hroom H1 H2)
    as (s1 & s2 & Ha & Hb & Hc & Hd & _).
  exists s1, s2. split; [exact Ha|]. split; [exact Hb|].
  split; [exact Hc|exact Hd].
Defined.

End commit_retire.

(** * Requests that stay inside their page *)

Section in_range.
Implicit Types (s : LinearAllocator) (l : list nat) (p : nat).

Lemma cursors_in_range_data s :
  cursors_in_range s <->
  forall p d, data_at (pages s) p = Some d -> d_offset d <= d_size d.
Proof.
  unfold cursors_in_range, data_at. split.
  - intros H p d Hd. destruct (pages s !! p) as [pg|] eqn:Hp; [|done].
    injection Hd as <-. apply (H p pg Hp).
  - intros H p pg Hp. specialize (H p (page_data pg)). rewrite Hp in H.
    by apply H.
Qed.

Lemma exec_cursors_in_range debug o s s' :
  wf s -> permitted o s -> cursors_in_range s ->
  (debug = false -> forall page sz al, o <> op_Suballocate page sz al) ->
  exec debug o s = Some s' -> cursors_in_range s'.
Proof.
  intros Hwf Hperm Hcur Hrel Hexec.
  pose proof (wf_inv s Hwf) as Hinv.
  destruct (exec_transition debug o s _ Hinv Hperm)
    as (s'' & L' & Hs'' & Hinv' & Htr).
  rewrite Hexec in Hs''. injection Hs'' as <-.
  rewrite cursors_in_range_data in Hcur. apply cursors_in_range_data.
  intros p d' Hd'.
  pose proof (inv_ok _ _ Hinv' p d' Hd') as (Hsz' & _ & Hoff').
  pose proof (inv_increment _ _ Hinv') as Hinc'.
  pose proof (tr_increment _ _ _ _ _ _ Htr) as Hi.
  destruct (data_at (pages s) p) as [d|] eqn:Hd.
  - pose proof (inv_ok _ _ Hinv p d Hd) as (Hsz & _ & Hoff).
    destruct (tr_offset _ _ _ _ _ _ Htr p d d' Hd Hd')
      as [Ho|[(Ho & _)|(sz & al & Ho' & Ho & Hb)]].
    + rewrite Ho, Hsz', Hi, <- Hsz. by apply (Hcur p).
    + lia.
    + destruct debug; [specialize (Hb eq_refl); lia|].
      by destruct (Hrel eq_refl p sz al).
  - destruct (tr_new _ _ _ _ _ _ Htr p d' Hd Hd') as [-> _].
    unfold d_offset, d_size in *. simpl in *. lia.
Qed.

(** X18. An operation leaves every cursor within its page when they all
    were: any operation in a [_DEBUG] build, and in a build without
    [_DEBUG] any operation but a [Suballocate]. *)
Theorem cursors_stay_within_pages debug o s s' :
  wf s -> permitted o s -> cursors_in_range s ->
  (debug = false -> forall page sz al, o <> op_Suballocate page sz al) ->
  exec debug o s = Some s' ->
  cursors_in_range s' /\
  forall p pg', pages s' !! p = Some pg' -> 0 <= mOffset pg' <= mSize pg'.
Proof.
  intros Hwf Hperm Hcur Hrel Hexec.
  pose proof (exec_cursors_in_range debug o s s' Hwf Hperm Hcur Hrel Hexec)
    as Hcur'.
  split; [done|]. intros p pg' Hp.
  pose proof (exec_wf debug o s s' Hwf Hperm Hexec) as Hwf'.
  pose proof (wf_pages s' Hwf' p pg' Hp) as (_ & _ & Hoff).
  pose proof (Hcur' p pg' Hp). simpl in *. lia.
Qed.

Lemma cursors_stay_within_pages_witness :
  let s := after false two_allocations in
  wf s /\ cursors_in_range s /\
  exists s', exec false op_FenceCommittedPages s = Some s' /\
             cursors_in_range s'.
Proof.
  intros s.
  assert (Hwf : wf s) by (apply (reachable_wf false), after_reachable; runs).
  assert (Hp : permitted op_FenceCommittedPages s) by by_computation.
  assert (Hcur : cursors_in_range s) by by_computation.
  assert (Hrel : false = false -> forall page sz al,
            op_FenceCommittedPages <> op_Suballocate page sz al)
    by (intros _ page sz al; discriminate).
  assert (Hex : exists s', exec false op_FenceCommittedPages s = Some s')
    by (vm_compute; eexists; reflexivity).
  split; [exact Hwf|]. split; [exact Hcur|].
  destruct Hex as [s' Hs']. exists s'. split; [exact Hs'|].
  destruct (cursors_stay_within_pages false op_FenceCommittedPages s s'
              Hwf Hp Hcur Hrel Hs') as [H _].
  exact H.
Defined.

Lemma FindPageForAlloc_valid debug dev (sizeBytes alignment : Z) s :
  0 < sizeBytes <= m_increment s -> alignment <= m_increment s ->
  FindPageForAlloc debug dev sizeBytes alignment s =
    r ← GetPageForAlloc dev sizeBytes alignment s;
    match r with
    | (Returned (Some page), s) => Some (Returned page, s)
    | (Returned None, s) => Some (Thrown (std_exception "Out of memory."), s)
    | (Thrown e, s) => Some (Thrown e, s)
    end.
Proof.
  intros Hs Ha. destruct debug.
  - by apply FindPageForAlloc_debug_valid.
  - reflexivity.
Qed.

Lemma has_room_Suballocate debug (sizeBytes alignment : Z) pg :
  has_room sizeBytes alignment pg ->
  0 <= mOffset pg -> 0 <= sizeBytes -> mSize pg < 2 ^ 64 ->
  Suballocate debug sizeBytes alignment pg
  = Returned (AlignOffset (mOffset pg) alignment,
              set_mOffset (AlignOffset (mOffset pg) alignment + sizeBytes) pg).
Proof.
  intros (Ha & Hb & Hdbg) Ho Hs Hsz. destruct debug; [done|].
  rewrite Suballocate_release. by rewrite size_t_small by lia.
Qed.

Lemma fits_has_room s (sizeBytes alignment : Z) p pg :
  wf s -> pages s !! p = Some pg -> mOffset pg <= mSize pg ->
  valid_request s sizeBytes alignment -> 3 * m_increment s <= 2 ^ 64 ->
  0 <= alignment ->
  page_fits s sizeBytes alignment p -> has_room sizeBytes alignment pg.
Proof.
  intros Hwf Hp Hcur (Hsz & Hal & Hale) H3 Hal0 Hfit.
  pose proof (wf_pages s Hwf p pg Hp) as (Hs & _ & Hoff). simpl in Hs, Hoff.
  destruct (AlignOffset_spec (mOffset pg) alignment Hal) as (Ha & _ & _);
    [lia|lia|].
  unfold page_fits in Hfit. rewrite Hp in Hfit.
  apply Is_true_true, Z.leb_le in Hfit.
  rewrite size_t_small in Hfit by lia.
  apply has_room_intro; lia.
Qed.

Lemma clean_has_room s (sizeBytes alignment : Z) pg :
  valid_request s sizeBytes alignment -> 0 < m_increment s < 2 ^ 64 ->
  0 <= alignment ->
  mOffset pg = 0 -> mSize pg = m_increment s ->
  has_room sizeBytes alignment pg.
Proof.
  intros (Hsz & Hal & Hale) Hinc Hal0 Ho Hs.
  apply has_room_intro; rewrite ?Ho, ?Hs; try lia.
  all: rewrite AlignOffset_clean by (done || lia); lia.
Qed.

(** X19. In a build with or without [_DEBUG]: when no cursor is beyond the
    end of its page, a request of 1 to [m_increment] bytes, with an alignment
    that is zero or a power of two and at most [m_increment], that
    [FindPageForAlloc] answers with a page is then served by [Suballocate]
    inside that page: it returns the cursor rounded up to the alignment and
    moves the cursor past the bytes handed out, not beyond the end of the
    page.  ([m_increment] is taken to be at most 2^64 / 3.) *)
Theorem valid_request_is_served_within_page debug dev (sizeBytes alignment : Z)
    s p s1 :
  wf s -> cursors_in_range s ->
  permitted (op_FindPageForAlloc dev sizeBytes alignment) s ->
  valid_request s sizeBytes alignment -> 3 * m_increment s <= 2 ^ 64 ->
  FindPageForAlloc debug dev sizeBytes alignment s = Some (Returned p, s1) ->
  wf s1 /\ cursors_in_range s1 /\ p ∈ used_list s1 /\
  exists pg,
    pages s1 !! p = Some pg /\
    let off := AlignOffset (mOffset pg) alignment in
    Suballocate debug sizeBytes alignment pg
    = Returned (off, set_mOffset (off + sizeBytes) pg) /\
    mOffset pg <= off /\ (0 < alignment -> off mod alignment = 0) /\
    off + sizeBytes <= mSize pg.
Proof.
  intros Hwf Hcur Hperm Hvalid H3 Hfind.
  pose proof Hvalid as (Hsz & Hal & Hale).
  pose proof Hperm as (_ & _ & Halr).
  pose proof (wf_increment s Hwf) as Hinc.
  assert (Hexec : exec debug (op_FindPageForAlloc dev sizeBytes alignment) s
                  = Some s1) by (unfold exec; by rewrite Hfind).
  pose proof (exec_wf _ _ _ _ Hwf Hperm Hexec) as Hwf1.
  assert (Hcur1 : cursors_in_range s1).
  { apply (exec_cursors_in_range debug _ s s1 Hwf Hperm Hcur); [|done].
    intros _ page sz al. discriminate. }
  split; [done|]. split; [done|].
  assert (Hroom : p ∈ used_list s1 /\
            exists pg, pages s1 !! p = Some pg /\
                       has_room sizeBytes alignment pg).
  { rewrite (FindPageForAlloc_valid debug dev sizeBytes alignment s)
      in Hfind by lia.
    apply bind_Some in Hfind as ([r0 s0] & Hget & Hfind).
    assert (r0 = Returned (Some p) /\ s0 = s1) as [-> ->].
    { destruct r0 as [[page|]|e]; try done. by injection Hfind as -> ->. }
    clear Hfind.
    pose proof (GetPageForAlloc_outcome dev sizeBytes alignment s Hwf Hperm)
      as Hout. cbv zeta in Hout.
    match type of Hout with
    | match ?t with _ => _ end => destruct t as [p0|]
    end.
    - destruct Hout as (Hget' & Hfit & l1 & l2 & Hused & _).
      rewrite Hget' in Hget. injection Hget as -> ->.
      assert (Hp : p ∈ used_list s1).
      { rewrite Hused. apply elem_of_app. right. left. }
      split; [done|].
      destruct (linked_live s1 _ usedPages p (wf_linked s1 Hwf) Hp)
        as [pg Hpg].
      exists pg. split; [done|].
      apply (fits_has_room s1 _ _ p pg); try done; [|lia].
      apply (Hcur p pg Hpg).
    - destruct Hout as [_ Hout].
      destruct (unused_list s) as [|p0 lu] eqn:Eu.
      + destruct dev; try (rewrite Hout in Hget; by injection Hget).
        destruct Hout as (p0 & s' & Hget' & _ & Hdatp & _ & Hus' & _).
        rewrite Hget' in Hget. injection Hget as -> ->.
        split; [rewrite Hus'; left|].
        unfold data_at in Hdatp.
        destruct (pages s1 !! p) as [pg|] eqn:Hpg; [|done].
        simpl in Hdatp. injection Hdatp as _ Ho Hs _.
        exists pg. split; [done|].
        apply (clean_has_room s); try done. lia.
      + destruct Hout as (s' & Hget' & _ & Hus' & _ & Hdat).
        rewrite Hget' in Hget. injection Hget as -> ->.
        split; [rewrite Hus'; left|].
        assert (Hpu : p ∈ unused_list s) by (rewrite Eu; left).
        destruct (linked_live s _ unusedPages p (wf_linked s Hwf) Hpu)
          as [pg0 Hpg0].
        pose proof (Hdat p) as Hd. unfold data_at in Hd. rewrite Hpg0 in Hd.
        destruct (pages s1 !! p) as [pg|] eqn:Hpg; [|done].
        simpl in Hd. injection Hd as _ Ho Hs _.
        pose proof (wf_pages s Hwf p pg0 Hpg0) as (Hs0 & _ & _).
        pose proof (wf_clean s Hwf) as Hcl. rewrite Forall_forall in Hcl.
        specialize (Hcl p Hpu). rewrite Hpg0 in Hcl. simpl in Hcl.
        injection Hcl as Ho0.
        exists pg. split; [done|].
        apply (clean_has_room s); try done; [lia|congruence|congruence]. }
  destruct Hroom as (Hin & pg & Hpg & Hhas).
  split; [done|]. exists pg. split; [done|].
  pose proof (wf_pages s1 Hwf1 p pg Hpg) as (Hs & _ & Hoff). simpl in Hs, Hoff.
  pose proof (wf_increment s1 Hwf1) as Hinc1.
  cbv zeta. split.
  - apply has_room_Suballocate; try done; lia.
  - destruct Hhas as (Ha & Hb & _). split; [done|]. split; [|done].
    intros Hpos.
    assert (Hinc_eq : m_increment s1 = m_increment s).
    { pose proof (wf_inv s Hwf) as Hinv.
      destruct (exec_transition debug _ s _ Hinv Hperm)
        as (s'' & L' & Hs'' & _ & Htr).
      rewrite Hexec in Hs''. injection Hs'' as <-.
      apply (tr_increment _ _ _ _ _ _ Htr). }
    destruct (AlignOffset_spec (mOffset pg) alignment Hal) as (_ & Hmod & _);
      [lia|lia|].
    by apply Hmod.
Qed.

Lemma valid_request_is_served_within_page_witness :
  let s := after false two_allocations in
  wf s /\ cursors_in_range s /\ valid_request s 1000 16 /\
  exists p s1,
    FindPageForAlloc false DeviceOk 1000 16 s = Some (Returned p, s1) /\
    p ∈ used_list s1.
Proof.
  intros s.
  assert (Hwf : wf s) by (apply (reachable_wf false), after_reachable; runs).
  assert (Hcur : cursors_in_range s) by by_computation.
  assert (Hperm : permitted (op_FindPageForAlloc DeviceOk 1000 16) s)
    by by_computation.
  assert (Hvalid : valid_request s 1000 16).
  { split; [vm_compute; split; [reflexivity|discriminate]|].
    split; [right; exists 4; split; [lia|reflexivity]|].
    vm_compute. discriminate. }
  assert (H3 : 3 * m_increment s <= 2 ^ 64) by (vm_compute; discriminate).
  assert (Hfind : exists p s1,
    FindPageForAlloc false DeviceOk 1000 16 s = Some (Returned p, s1))
    by (vm_compute; do 2 eexists; reflexivity).
  split; [exact Hwf|]. split; [exact Hcur|]. split; [exact Hvalid|].
  destruct Hfind as (p & s1 & Hfind). exists p, s1. split; [exact Hfind|].
  destruct (valid_request_is_served_within_page false DeviceOk 1000 16 s p s1
              Hwf Hcur Hperm Hvalid H3 Hfind) as (_ & _ & H & _).
  exact H.
Defined.

End in_range.

(** * What frees a page *)

Section freeing.
Implicit Types (s : LinearAllocator) (l : list nat) (p : nat).

Lemma keeps_pages_refl s : keeps_pages s s.
Proof. by repeat split. Qed.

Lemma keeps_pages_trans s1 s2 s3 :
  keeps_pages s1 s2 -> keeps_pages s2 s3 -> keeps_pages s1 s3.
Proof.
  intros (H1 & H2 & H3) (H4 & H5 & H6). split; [congruence|].
  split; [set_solver|congruence].
Qed.

Lemma keeps_pages_heads s s' :
  pages s' = pages s -> destroyed s' = destroyed s ->
  m_increment s' = m_increment s -> keeps_pages s s'.
Proof. intros H1 H2 H3. split; [done|]. split; [by rewrite H1|done]. Qed.

Lemma update_page_keeps p f s s' :
  update_page p f s = Some s' -> keeps_pages s s'.
Proof.
  unfold update_page. destruct (pages s !! p) eqn:Hp; simpl; [|done].
  intros [= <-]. split; [done|]. split; [|done]. simpl.
  rewrite dom_insert_L. set_solver.
Qed.

Lemma update_if_page_keeps q f s s' :
  update_if_page q f s = Some s' -> keeps_pages s s'.
Proof.
  destruct q as [p|]; simpl; [apply update_page_keeps|].
  intros [= <-]. apply keeps_pages_refl.
Qed.

Lemma UnlinkPage_keeps p s s' : UnlinkPage p s = Some s' -> keeps_pages s s'.
Proof.
  unfold UnlinkPage. intros H.
  apply bind_Some in H as (pg & _ & H).
  apply bind_Some in H as (s1 & H1 & H).
  apply bind_Some in H as (pg1 & _ & H).
  apply bind_Some in H as (s2 & H2 & H).
  apply update_page_keeps in H. apply update_if_page_keeps in H2.
  assert (keeps_pages s s1).
  { destruct (pPrevPage pg); [by apply update_page_keeps in H1|].
    repeat case_decide; injection H1 as <-; by apply keeps_pages_heads. }
  eauto using keeps_pages_trans.
Qed.

Lemma set_list_head_keeps r v s : keeps_pages s (set_list_head r v s).
Proof. destruct r; by apply keeps_pages_heads. Qed.

Lemma LinkPage_keeps p r s s' : LinkPage p r s = Some s' -> keeps_pages s s'.
Proof.
  unfold LinkPage. intros H.
  apply bind_Some in H as (s1 & H1 & H).
  apply bind_Some in H as (s2 & H2 & H).
  apply update_page_keeps in H1. apply update_if_page_keeps in H2.
  injection H as <-.
  eauto using keeps_pages_trans, set_list_head_keeps.
Qed.

Lemma LinkPageChain_keeps c r s s' :
  LinkPageChain c r s = Some s' -> keeps_pages s s'.
Proof.
  unfold LinkPageChain. intros H.
  apply bind_Some in H as (x & _ & H).
  apply bind_Some in H as (s1 & H1 & H).
  apply bind_Some in H as (s2 & H2 & H).
  apply update_page_keeps in H1. apply update_if_page_keeps in H2.
  injection H as <-.
  eauto using keeps_pages_trans, set_list_head_keeps.
Qed.

Lemma GetNewPage_keeps dev s r s' :
  GetNewPage dev s = Some (r, s') -> keeps_pages s s'.
Proof.
  unfold GetNewPage.
  destruct dev; try (intros [= _ <-]; apply keeps_pages_refl).
  intros H.
  apply bind_Some in H as (s1 & H1 & H).
  apply bind_Some in H as (s2 & H2 & H).
  apply update_page_keeps in H1. apply update_if_page_keeps in H2.
  injection H as _ <-.
  eapply keeps_pages_trans; [|eapply keeps_pages_trans;
    [exact H1|eapply keeps_pages_trans; [exact H2|]]].
  - split; [done|]. split; [|done]. simpl. rewrite dom_insert_L. set_solver.
  - by apply keeps_pages_heads.
Qed.

Lemma GetCleanPageForAlloc_keeps dev s r s' :
  GetCleanPageForAlloc dev s = Some (r, s') -> keeps_pages s s'.
Proof.
  unfold GetCleanPageForAlloc. intros H.
  apply bind_Some in H as ([r0 s0] & H0 & H).
  assert (Hs0 : keeps_pages s s0).
  { destruct (m_unusedPages s).
    - injection H0 as _ <-. apply keeps_pages_refl.
    - by apply GetNewPage_keeps in H0. }
  destruct r0 as [[page|]|e]; try by injection H as _ <-.
  apply bind_Some in H as (s1 & H1 & H).
  apply bind_Some in H as (s2 & H2 & H).
  injection H as _ <-.
  apply UnlinkPage_keeps in H1. apply LinkPage_keeps in H2.
  eauto using keeps_pages_trans.
Qed.

Lemma FindPageForAlloc_keeps debug dev (sizeBytes alignment : Z) s r s' :
  FindPageForAlloc debug dev sizeBytes alignment s = Some (r, s') ->
  keeps_pages s s'.
Proof.
  unfold FindPageForAlloc.
  destruct (debug && (m_increment s <? sizeBytes));
    [intros [= _ <-]; apply keeps_pages_refl|].
  destruct (debug && (m_increment s <? alignment));
    [intros [= _ <-]; apply keeps_pages_refl|].
  destruct (debug && (sizeBytes =? 0));
    [intros [= _ <-]; apply keeps_pages_refl|].
  intros H. apply bind_Some in H as ([r0 s0] & H0 & H).
  assert (Hs0 : keeps_pages s s0).
  { unfold GetPageForAlloc in H0.
    destruct (_ && _); [by apply GetCleanPageForAlloc_keeps in H0|].
    apply bind_Some in H0 as ([q|] & _ & H0).
    - injection H0 as _ <-. apply keeps_pages_refl.
    - by apply GetCleanPageForAlloc_keeps in H0. }
  destruct r0 as [[page|]|e]; by injection H as _ <-.
Qed.

Lemma FenceCommittedPages_loop_keeps fuel :
  forall cur numReady ready unready s r,
    FenceCommittedPages_loop fuel cur numReady ready unready s = Some r ->
    keeps_pages s (snd r).
Proof.
  induction fuel as [|fuel IH]; intros [p|] numReady ready unready s r H;
    simpl in H; try done;
    try (injection H as <-; apply keeps_pages_refl).
  apply bind_Some in H as (pg & _ & H).
  apply bind_Some in H as (s1 & H1 & H). apply update_page_keeps in H1.
  apply bind_Some in H as (pg1 & _ & H).
  destruct (mRefCount pg1 =? 0).
  - apply bind_Some in H as (s2 & H2 & H). apply update_page_keeps in H2.
    apply bind_Some in H as (pg2 & _ & H).
    apply bind_Some in H as (s3 & H3 & H). apply update_page_keeps in H3.
    apply bind_Some in H as (s4 & H4 & H). apply update_if_page_keeps in H4.
    apply IH in H.
    assert (keeps_pages s2 (Signal p (mPendingFence pg2) s2))
      by (by apply keeps_pages_heads).
    eauto 10 using keeps_pages_trans.
  - apply bind_Some in H as (s2 & H2 & H). apply update_page_keeps in H2.
    apply bind_Some in H as (s3 & H3 & H). apply update_if_page_keeps in H3.
    apply IH in H. eauto 10 using keeps_pages_trans.
Qed.

Lemma FenceCommittedPages_keeps s s' :
  FenceCommittedPages s = Some s' -> keeps_pages s s'.
Proof.
  unfold FenceCommittedPages. destruct (m_usedPages s);
    [|intros [= <-]; apply keeps_pages_refl].
  intros H. apply bind_Some in H as ([[[num rd] unr] s1] & H1 & H).
  apply FenceCommittedPages_loop_keeps in H1. simpl in H1.
  destruct (0 <? num).
  - destruct rd as [x|]; [|done]. apply LinkPageChain_keeps in H.
    eapply keeps_pages_trans; [exact H1|].
    eapply keeps_pages_trans; [|exact H]. by apply keeps_pages_heads.
  - injection H as <-. eapply keeps_pages_trans; [exact H1|].
    by apply keeps_pages_heads.
Qed.

Lemma ReleasePage_keeps p s s' : ReleasePage p s = Some s' -> keeps_pages s s'.
Proof.
  unfold ReleasePage. intros H.
  apply bind_Some in H as (s1 & H1 & H).
  apply bind_Some in H as (s2 & H2 & H).
  apply update_page_keeps in H. apply LinkPage_keeps in H2.
  apply UnlinkPage_keeps in H1.
  eapply keeps_pages_trans; [|eapply keeps_pages_trans;
    [exact H1|eapply keeps_pages_trans; [exact H2|exact H]]].
  by apply keeps_pages_heads.
Qed.

Lemma RetirePendingPages_loop_keeps completed fuel :
  forall cur s s',
    RetirePendingPages_loop fuel completed cur s = Some s' -> keeps_pages s s'.
Proof.
  induction fuel as [|fuel IH]; intros [p|] s s' H; simpl in H; try done;
    try (injection H as <-; apply keeps_pages_refl).
  apply bind_Some in H as (pg & _ & H).
  apply bind_Some in H as (s1 & H1 & H). apply IH in H.
  destruct (mPendingFence pg <=? completed p).
  - apply ReleasePage_keeps in H1. eauto using keeps_pages_trans.
  - by injection H1 as <-.
Qed.

Lemma exec_keeps debug o s s' :
  o <> op_Shrink -> exec debug o s = Some s' -> keeps_pages s s'.
Proof.
  intros Hne Hexec.
  destruct o as [dev|dev sz al|page sz al|page count| |completed|];
    unfold exec in Hexec; try done.
  - apply fmap_Some in Hexec as ([r s0] & H & ->).
    by apply GetNewPage_keeps in H.
  - apply fmap_Some in Hexec as ([r s0] & H & ->).
    by apply FindPageForAlloc_keeps in H.
  - apply bind_Some in Hexec as (pg & Hpg & Hexec).
    destruct (Suballocate debug sz al pg) as [[off pg']|e];
      injection Hexec as <-; [|apply keeps_pages_refl].
    split; [done|]. split; [|done]. simpl. rewrite dom_insert_L. set_solver.
  - by apply update_page_keeps in Hexec.
  - by apply FenceCommittedPages_keeps.
  - by apply RetirePendingPages_loop_keeps in Hexec.
Qed.

(** X20. No operation but [Shrink] frees a page: whatever the state it
    starts from, an allocation, a suballocation, a commit or a retire that
    runs to its end leaves every page that was live still live, deletes
    nothing, and keeps [m_increment]. *)
Theorem only_Shrink_frees_pages debug o s s' :
  o <> op_Shrink -> exec debug o s = Some s' ->
  destroyed s' = destroyed s /\
  (forall p, is_Some (pages s !! p) -> is_Some (pages s' !! p)) /\
  m_increment s' = m_increment s.
Proof.
  intros Hne Hexec.
  destruct (exec_keeps debug o s s' Hne Hexec) as (Hd & Hdom & Hi).
  split; [done|]. split; [|done].
  intros p Hp. apply elem_of_dom. apply Hdom. by apply elem_of_dom.
Qed.

Lemma only_Shrink_frees_pages_witness :
  let s := after true (two_allocations ++ [op_FenceCommittedPages]) in
  exists s',
    exec true (op_RetirePendingPages all_completed) s = Some s' /\
    destroyed s' = destroyed s.
Proof.
  intros s.
  assert (Hne : op_RetirePendingPages all_completed <> op_Shrink)
    by discriminate.
  assert (Hex : exists s',
            exec true (op_RetirePendingPages all_completed) s = Some s')
    by (vm_compute; eexists; reflexivity).
  destruct Hex as [s' Hs']. exists s'. split; [exact Hs'|].
  destruct (only_Shrink_frees_pages true _ s s' Hne Hs') as [H _]. exact H.
Defined.

(** X21. While the unused list holds a page, [FindPageForAlloc] does not
    ask the device for one: its result is the same whatever the device
    would have answered, it creates no page, and it does not fail with
    "Out of memory". *)
Theorem FindPageForAlloc_reuses_before_creating debug dev dev'
    (sizeBytes alignment : Z) s :
  wf s -> unused_list s <> [] ->
  permitted (op_FindPageForAlloc dev sizeBytes alignment) s ->
  FindPageForAlloc debug dev sizeBytes alignment s
  = FindPageForAlloc debug dev' sizeBytes alignment s /\
  forall r s',
    FindPageForAlloc debug dev sizeBytes alignment s = Some (r, s') ->
    created s' = created s /\ dom (pages s') = dom (pages s) /\
    (r = Thrown (std_exception "Out of memory.") -> False).
Proof.
  intros Hwf Hu Hperm.
  assert (exists q, m_unusedPages s = Some q) as [q Hq].
  { pose proof (wf_unused s Hwf) as Hd.
    destruct (unused_list s) as [|q l]; [done|]. destruct Hd as [-> _]. eauto. }
  assert (Hclean : GetCleanPageForAlloc dev s = GetCleanPageForAlloc dev' s).
  { unfold GetCleanPageForAlloc. by rewrite Hq. }
  assert (Hget : GetPageForAlloc dev sizeBytes alignment s
                 = GetPageForAlloc dev' sizeBytes alignment s).
  { unfold GetPageForAlloc. by rewrite Hclean. }
  split.
  { unfold FindPageForAlloc. by rewrite Hget. }
  intros r s' Hfind.
  assert (Hexec : exec debug (op_FindPageForAlloc dev sizeBytes alignment) s
                  = Some s') by (unfold exec; by rewrite Hfind).
  pose proof (exec_wf _ _ _ _ Hwf Hperm Hexec) as Hwf'.
  assert (Hne : op_FindPageForAlloc dev sizeBytes alignment <> op_Shrink)
    by discriminate.
  destruct (exec_keeps debug _ s s' Hne Hexec) as (Hd & Hdom & _).
  pose proof (wf_created s Hwf) as Hc. pose proof (wf_created s' Hwf') as Hc'.
  assert (Hout : (r = Thrown (std_exception "Out of memory.") -> False) /\
                 size (pages s') = size (pages s)).
  { unfold FindPageForAlloc in Hfind.
    destruct (debug && (m_increment s <? sizeBytes));
      [by injection Hfind as <- <-|].
    destruct (debug && (m_increment s <? alignment));
      [by injection Hfind as <- <-|].
    destruct (debug && (sizeBytes =? 0)); [by injection Hfind as <- <-|].
    apply bind_Some in Hfind as ([r0 s0] & H0 & Hfind).
    pose proof (GetPageForAlloc_outcome dev sizeBytes alignment s Hwf Hperm)
      as Hout. cbv zeta in Hout.
    match type of Hout with
    | match ?t with _ => _ end => destruct t as [p0|]
    end.
    - destruct Hout as (Hget' & _). rewrite Hget' in H0.
      injection H0 as <- <-. by injection Hfind as <- <-.
    - destruct Hout as [_ Hout].
      destruct (unused_list s) as [|p0 lu]; [done|].
      destruct Hout as (s1 & Hget' & _ & _ & _ & Hdat).
      rewrite Hget' in H0. injection H0 as <- <-. injection Hfind as <- <-.
      split; [done|]. by apply same_data_size. }
  destruct Hout as [Hr Hsz]. split; [lia|]. split; [|done].
  apply set_eq. intros x. split; [|apply Hdom].
  intros Hx. destruct (decide (x ∈ dom (pages s))) as [|Hn]; [done|].
  exfalso.
  assert (Hsub : dom (pages s) ⊂ dom (pages s')).
  { split; [done|]. intros Hsup. apply Hn. by apply Hsup. }
  apply subset_size in Hsub. rewrite !size_dom in Hsub. lia.
Qed.

Lemma FindPageForAlloc_reuses_before_creating_witness :
  let s := after true (two_allocations ++ [op_GetNewPage DeviceOk]) in
  wf s /\ unused_list s <> [] /\
  FindPageForAlloc true DeviceOk 65536 0 s
  = FindPageForAlloc true CreateFenceFailed 65536 0 s.
Proof.
  intros s.
  assert (Hwf : wf s) by (apply (reachable_wf true), after_reachable; runs).
  assert (Hu : unused_list s <> []) by (vm_compute; discriminate).
  assert (Hperm : permitted (op_FindPageForAlloc DeviceOk 65536 0) s)
    by by_computation.
  split; [exact Hwf|]. split; [exact Hu|].
  destruct (FindPageForAlloc_reuses_before_creating true DeviceOk
              CreateFenceFailed 65536 0 s Hwf Hu Hperm) as [H _].
  exact H.
Defined.

End freeing.

(** * What a request is given *)

Section handed_out.
Implicit Types (s : LinearAllocator) (l : list nat) (p : nat).

Lemma FindPageForAlloc_returns_used debug dev (sizeBytes alignment : Z) s p s1 :
  wf s -> permitted (op_FindPageForAlloc dev sizeBytes alignment) s ->
  FindPageForAlloc debug dev sizeBytes alignment s = Some (Returned p, s1) ->
  p ∈ used_list s1 /\
  (p ∈ used_list s \/ p ∈ unused_list s \/ pages s !! p = None).
Proof.
  intros Hwf Hperm Hfind. unfold FindPageForAlloc in Hfind.
  destruct (debug && (m_increment s <? sizeBytes)); [done|].
  destruct (debug && (m_increment s <? alignment)); [done|].
  destruct (debug && (sizeBytes =? 0)); [done|].
  apply bind_Some in Hfind as ([r0 s0] & Hget & Hfind).
  assert (r0 = Returned (Some p) /\ s0 = s1) as [-> ->].
  { destruct r0 as [[page|]|e]; try done. by injection Hfind as -> ->. }
  clear Hfind.
  pose proof (GetPageForAlloc_outcome dev sizeBytes alignment s Hwf Hperm)
    as Hout. cbv zeta in Hout.
  match type of Hout with
  | match ?t with _ => _ end => destruct t as [p0|]
  end.
  - destruct Hout as (Hget' & _ & l1 & l2 & Hused & _).
    rewrite Hget' in Hget. injection Hget as -> ->.
    assert (p ∈ used_list s1)
      by (rewrite Hused; apply elem_of_app; right; left).
    auto.
  - destruct Hout as [_ Hout].
    destruct (unused_list s) as [|p0 lu] eqn:Eu.
    + destruct dev; try (rewrite Hout in Hget; by injection Hget).
      destruct Hout as (p0 & s' & Hget' & Hnew & _ & _ & Hus' & _).
      rewrite Hget' in Hget. injection Hget as -> ->.
      split; [rewrite Hus'; left|auto].
    + destruct Hout as (s' & Hget' & _ & Hus' & _).
      rewrite Hget' in Hget. injection Hget as -> ->.
      split; [rewrite Hus'; left|]. right. left. left.
Qed.

(** X22. [FindPageForAlloc] never hands out a page that is pending, in
    any build and whatever the request: the page it returns was in use,
    or unused, or is new, it is in the used list afterwards, and the
    pending list is as it was.  Memory that waits for its fence is not
    given to a new request. *)
Theorem FindPageForAlloc_never_returns_pending_page debug dev
    (sizeBytes alignment : Z) s p s1 :
  wf s -> permitted (op_FindPageForAlloc dev sizeBytes alignment) s ->
  FindPageForAlloc debug dev sizeBytes alignment s = Some (Returned p, s1) ->
  (p ∉ pending_list s) /\ (p ∉ pending_list s1) /\
  pending_list s1 = pending_list s /\ p ∈ used_list s1.
Proof.
  intros Hwf Hperm Hfind.
  destruct (FindPageForAlloc_returns_used _ _ _ _ _ _ _ Hwf Hperm Hfind)
    as [Hin Hfrom].
  pose proof (FindPageForAlloc_pending _ _ _ _ _ _ _ Hwf Hperm Hfind) as Hpe.
  assert (Hexec : exec debug (op_FindPageForAlloc dev sizeBytes alignment) s
                  = Some s1) by (unfold exec; by rewrite Hfind).
  pose proof (exec_wf _ _ _ _ Hwf Hperm Hexec) as Hwf1.
  assert (Hnot : p ∉ pending_list s1).
  { apply (all_pages_disjoint (fun r => page_list r s1) usedPages pendingPages);
      [apply (wf_NoDup s1 Hwf1)|done|exact Hin]. }
  split; [by rewrite <- Hpe|]. split; [done|]. split; done.
Qed.

Lemma FindPageForAlloc_never_returns_pending_page_witness :
  let s := after false (two_allocations ++ [op_FenceCommittedPages]) in
  wf s /\ pending_list s = [0%nat] /\
  exists p s1,
    FindPageForAlloc false DeviceOk 4096 256 s = Some (Returned p, s1) /\
    (p ∉ pending_list s).
Proof.
  intros s.
  assert (Hwf : wf s) by (apply (reachable_wf false), after_reachable; runs).
  assert (Hperm : permitted (op_FindPageForAlloc DeviceOk 4096 256) s)
    by by_computation.
  assert (Hfind : exists p s1,
    FindPageForAlloc false DeviceOk 4096 256 s = Some (Returned p, s1))
    by (vm_compute; do 2 eexists; reflexivity).
  split; [exact Hwf|]. split; [vm_compute; reflexivity|].
  destruct Hfind as (p & s1 & Hfind). exists p, s1. split; [exact Hfind|].
  destruct (FindPageForAlloc_never_returns_pending_page false DeviceOk 4096 256
              s p s1 Hwf Hperm Hfind) as [H _].
  exact H.
Defined.

(** X23. Two [Suballocate] calls on a page, one after the other, hand
    out bytes that do not overlap: the second offset is not below the end
    of the first range, provided the alignments are zero or powers of two
    and neither rounding nor adding the first size overflows [size_t]. *)
Theorem successive_suballocations_do_not_overlap debug
    (size1 alignment1 size2 alignment2 : Z) pg off1 pg1 off2 pg2 :
  is_alignment alignment1 -> is_alignment alignment2 ->
  0 <= mOffset pg -> 0 <= size1 ->
  mOffset pg + alignment1 <= 2 ^ 64 ->
  AlignOffset (mOffset pg) alignment1 + size1 + alignment2 <= 2 ^ 64 ->
  AlignOffset (mOffset pg) alignment1 + size1 < 2 ^ 64 ->
  Suballocate debug size1 alignment1 pg = Returned (off1, pg1) ->
  Suballocate debug size2 alignment2 pg1 = Returned (off2, pg2) ->
  mOffset pg <= off1 /\ off1 + size1 <= off2 /\
  mOffset pg1 = off1 + size1 /\ mSize pg2 = mSize pg.
Proof.
  intros Hal1 Hal2 Ho Hs1 Hov1 Hov2 Hov3 Hsub1 Hsub2.
  destruct (AlignOffset_spec (mOffset pg) alignment1 Hal1 Ho Hov1)
    as (Ha1 & _ & _).
  unfold Suballocate in Hsub1.
  destruct (debug && _) in Hsub1; [done|]. injection Hsub1 as <- <-.
  rewrite size_t_small in * by lia.
  unfold Suballocate in Hsub2. simpl in Hsub2.
  destruct (debug && _) in Hsub2; [done|]. injection Hsub2 as <- <-.
  destruct (AlignOffset_spec (AlignOffset (mOffset pg) alignment1 + size1)
              alignment2 Hal2) as (Ha2 & _ & _); [lia|lia|].
  simpl. repeat split; lia.
Qed.

Lemma successive_suballocations_do_not_overlap_witness :
  let pg := Page None None 0 100 65536 0 in
  exists off1 pg1 off2 pg2,
    Suballocate true 1000 256 pg = Returned (off1, pg1) /\
    Suballocate true 24 16 pg1 = Returned (off2, pg2) /\
    off1 + 1000 <= off2.
Proof.
  intros pg.
  assert (Hal1 : is_alignment 256) by (right; exists 8; split; [lia|reflexivity]).
  assert (Hal2 : is_alignment 16) by (right; exists 4; split; [lia|reflexivity]).
  assert (H1 : Suballocate true 1000 256 pg
               = Returned (256, Page None None 0 1256 65536 0))
    by (vm_compute; reflexivity).
  assert (H2 : Suballocate true 24 16 (Page None None 0 1256 65536 0)
               = Returned (1264, Page None None 0 1288 65536 0))
    by (vm_compute; reflexivity).
  exists 256, (Page None None 0 1256 65536 0), 1264,
    (Page None None 0 1288 65536 0).
  split; [exact H1|]. split; [exact H2|].
  destruct (successive_suballocations_do_not_overlap true 1000 256 24 16 pg
              256 (Page None None 0 1256 65536 0)
              1264 (Page None None 0 1288 65536 0) Hal1 Hal2)
    as (_ & H & _).
  - simpl. lia.
  - lia.
  - simpl. lia.
  - vm_compute. discriminate.
  - vm_compute. reflexivity.
  - exact H1.
  - exact H2.
  - exact H.
Defined.

End handed_out.

(** * More than 2^32 pages *)

Section many_pages.
Implicit Types (s : LinearAllocator) (l : list nat) (p : nat).

Lemma chain_store_lookup_notin inc prev l p :
  p ∉ l -> chain_store inc prev l !! p = None.
Proof.
  revert prev. induction l as [|q l IH]; intros prev Hp; [done|].
  simpl. rewrite lookup_insert_ne by (intros ->; apply Hp; left).
  apply IH. intros H. apply Hp. by right.
Qed.














Lemma reachable_reaches debug s : reachable debug s -> reaches debug s.
Proof.
  intros [n Hn]. induction Hn as [pageSize Hps|n s o s' _ IH Hperm Hexec].
  - by apply reaches_init.
  - apply (reaches_next debug s o s'); [done| |done].
    destruct Hperm as [_ H]. by destruct o.
Qed.


End many_pages.


(** 2^32 released pages in use are not made pending by a commit. *)

